(** * negroni-sessions: session middleware and database-backed stores

    A shallow embedding of the Go packages [sessions] (sessions.go,
    cookie_token.go, errors.go), [mongostore] and [dalstore], and the
    properties their documentation states about them.  sessions.go exists
    in two revisions: in one the methods work on [s.Session()] directly
    and [Clear] deletes key by key (module [sessions]); in the other every
    method tests the session for nil and [Clear] sets the values map to
    nil (module [sessions_nil]).

    Conventions of the embedding.
    - A Go pointer to a struct is modelled by the struct it points to, kept
      in the state that the functions thread: assigning through the pointer
      is an update of that component of the state.  A pointer that may be
      nil is an [option].
    - A Go [error] result is an [option error]; [None] is [nil].
    - A call that may panic returns an [outcome]; what it assigned before
      the panic stays assigned.
    - The libraries the packages call (gorilla/sessions, securecookie, mgo,
      dal, bson, negroni) are not part of the repository.  Their entry
      points are fields of the records [Store], [Flash], [GContext],
      [Codec] and [Backend], over which every definition and theorem is
      generic; negroni's response writer appears as the moments at which it
      calls the function registered with [Before]. *)

From stdpp Require Import gmap strings list fin_maps.
From Stdlib Require Import ZArith Ascii String.

Open Scope Z_scope.

(** ** Go values *)

(** errors.go; [ErrNoCookie] is [http.ErrNoCookie], [ErrOther] stands for
    whatever error a codec or a database driver reports. *)
Inductive error : Type :=
  | ErrInvalidId
  | ErrInvalidModified
  | ErrNoCookie
  | ErrOther (msg : string).

(** The dynamic values an [interface{}] holds in a session.  A [float64]
    is given by its IEEE 754 bits, a [time.Time] by its instant. *)
#[warnings="-register-all"]
Inductive iface : Type :=
  | Nil
  | Str (s : string)
  | Int (n : Z)
  | Bool (b : bool)
  | Float (bits : Z)
  | Time (t : Z)
  | Slice (l : list iface).

(** How a call ends: it returns, or it panics. *)
Inductive outcome (A : Type) : Type :=
  | Returned (a : A)
  | Panicked.
Arguments Returned {A}.
Arguments Panicked {A}.

Definition outcome_map {A B} (f : A -> B) (o : outcome A) : outcome B :=
  match o with
  | Returned a => Returned (f a)
  | Panicked => Panicked
  end.

(** *** [float64] and its [==] *)

Definition u64 (x : Z) : Z := x mod 2 ^ 64.

Definition exponent (b : Z) : Z := Z.land (Z.shiftr b 52) 2047.

Definition mantissa (b : Z) : Z := Z.land b (2 ^ 52 - 1).

Definition isNaN (x : Z) : bool :=
  (exponent (u64 x) =? 2047) && negb (mantissa (u64 x) =? 0).

(** Plus and minus zero. *)
Definition isZero (x : Z) : bool := Z.land (u64 x) (2 ^ 63 - 1) =? 0.

(** [x == y]: false as soon as one side is a NaN, true on the two zeros. *)
Definition float_eqb (x y : Z) : bool :=
  negb (isNaN x) && negb (isNaN y)
  && ((u64 x =? u64 y) || (isZero x && isZero y)).

(** The bits of [math.NaN()]. *)
Definition NaN : Z := 0x7FF8000000000001.

(** *** [map[interface{}]interface{}]

    A key of a map is an interface value whose dynamic type can be
    hashed; asking the map for a key that cannot, a slice, panics
    with "hash of unhashable type". *)
Inductive key : Type :=
  | KNil
  | KStr (s : string)
  | KInt (n : Z)
  | KBool (b : bool)
  | KFloat (bits : Z)
  | KTime (t : Z).

Definition hash (k : iface) : option key :=
  match k with
  | Nil => Some KNil
  | Str s => Some (KStr s)
  | Int n => Some (KInt n)
  | Bool b => Some (KBool b)
  | Float bits => Some (KFloat bits)
  | Time t => Some (KTime t)
  | Slice _ => None
  end.

Definition of_key (k : key) : iface :=
  match k with
  | KNil => Nil
  | KStr s => Str s
  | KInt n => Int n
  | KBool b => Bool b
  | KFloat bits => Float bits
  | KTime t => Time t
  end.

(** [a == b] on two keys: the same dynamic type and equal values. *)
Definition key_eqb (a b : key) : bool :=
  match a, b with
  | KNil, KNil => true
  | KStr s, KStr t => String.eqb s t
  | KInt n, KInt m => n =? m
  | KBool x, KBool y => Bool.eqb x y
  | KFloat x, KFloat y => float_eqb x y
  | KTime t, KTime u => t =? u
  | _, _ => false
  end.

(** [a == b] on two interface values, where it does not panic. *)
Definition iface_eqb (a b : iface) : bool :=
  match hash a, hash b with
  | Some x, Some y => key_eqb x y
  | _, _ => false
  end.

(** A map is nil or made; a made map is the list of its entries, in some
    order.  An entry is found by a key equal to its own, so an entry under
    a NaN is never found again.  (In a map no two entries have equal
    keys; a list may, and then the first one counts.  Nothing below
    depends on the difference.) *)
Inductive values : Type :=
  | nil_map
  | make_map (l : list (key * iface)).

Definition entries (m : values) : list (key * iface) :=
  match m with
  | nil_map => []
  | make_map l => l
  end.

Fixpoint assoc (k : key) (l : list (key * iface)) : option iface :=
  match l with
  | [] => None
  | (k', v) :: l' => if key_eqb k' k then Some v else assoc k l'
  end.

(** [v, ok := m[k]] *)
Global Instance values_lookup : Lookup key iface values :=
  fun k m => assoc k (entries m).

(** [make(map[interface{}]interface{})] *)
Global Instance values_empty : Empty values := make_map [].

(** [m[k]]: at a missing key, and in a nil map, the zero value [nil]. *)
Definition index (m : values) (k : key) : iface :=
  match m !! k with
  | Some v => v
  | None => Nil
  end.

(** [m[k] = v] on the entries: the entry of an equal key gets the value
    and keeps its key, otherwise a new entry is added. *)
Fixpoint map_put (k : key) (v : iface) (l : list (key * iface))
  : list (key * iface) :=
  match l with
  | [] => [(k, v)]
  | (k', v') :: l' =>
      if key_eqb k' k then (k', v) :: l' else (k', v') :: map_put k v l'
  end.

(** [delete(m, k)] on the entries. *)
Definition map_drop (k : key) (l : list (key * iface))
  : list (key * iface) :=
  List.filter (fun e => negb (key_eqb (fst e) k)) l.

(** The keys [range m] yields. *)
Definition keys (m : values) : list iface :=
  map (fun e => of_key (fst e)) (entries m).

(** [m[k]], [m[k] = v] and [delete(m, k)] with an interface value for
    key.  All three panic on a key that cannot be hashed, the assignment
    also on a nil map; [delete] on a nil map does nothing. *)
Definition map_index (m : values) (k : iface) : outcome iface :=
  match hash k with
  | Some k => Returned (index m k)
  | None => Panicked
  end.

Definition map_assign (m : values) (k v : iface) : outcome values :=
  match hash k, m with
  | Some k, make_map l => Returned (make_map (map_put k v l))
  | _, _ => Panicked
  end.

Definition map_delete (m : values) (k : iface) : outcome values :=
  match hash k, m with
  | Some k, make_map l => Returned (make_map (map_drop k l))
  | Some _, nil_map => Returned nil_map
  | None, _ => Panicked
  end.

(** ** A state monad for code that mutates through pointers *)

Definition M (S A : Type) : Type := S -> A * S.

Definition ret {S A} (a : A) : M S A := fun s => (a, s).

Definition bind {S A B} (m : M S A) (f : A -> M S B) : M S B :=
  fun s => let (a, s') := m s in f a s'.

Definition gets {S A} (f : S -> A) : M S A := fun s => (f s, s).

Definition modify {S} (f : S -> S) : M S unit := fun s => (tt, f s).

Declare Scope go_scope.
Delimit Scope go_scope with go.
Notation "x <- c1 ;; c2" := (bind c1 (fun x => c2))
  (at level 100, c1 at next level, right associativity) : go_scope.
Notation "c1 ;; c2" := (bind c1 (fun _ => c2))
  (at level 100, right associativity) : go_scope.

(** [for _, x := range l { body x }]; a panic of the body ends the loop. *)
Fixpoint for_range {S A} (l : list A) (body : A -> M S (outcome unit))
  : M S (outcome unit) :=
  match l with
  | [] => ret (Returned tt)
  | x :: l' =>
      (done <- body x ;;
       match done with
       | Returned _ => for_range l' body
       | Panicked => ret Panicked
       end)%go
  end.

(** ** gorilla/sessions and net/http data *)

Module gorilla.

(** [sessions.Options] of gorilla. *)
Record Options : Type := mkOptions {
  Path : string;
  Domain : string;
  MaxAge : Z;
  Secure : bool;
  HttpOnly : bool
}.

(** [sessions.Session] of gorilla; [Options] is a pointer in Go and
    every store sets it when it creates the session. *)
Record Session : Type := mkSession {
  ID : string;
  Values : values;
  Opts : Options;
  IsNew : bool;
  Name : string
}.

(** [sessions.NewSession(store, name)]: an empty, non-nil values map. *)
Definition NewSession (name : string) : Session :=
  {| ID := ""; Values := ∅;
     Opts := {| Path := ""; Domain := ""; MaxAge := 0;
                Secure := false; HttpOnly := false |};
     IsNew := true; Name := name |}.

Definition set_ID (id : string) (s : Session) : Session :=
  {| ID := id; Values := Values s; Opts := Opts s;
     IsNew := IsNew s; Name := Name s |}.

Definition set_Values (v : values) (s : Session) : Session :=
  {| ID := ID s; Values := v; Opts := Opts s;
     IsNew := IsNew s; Name := Name s |}.

Definition set_Options (o : Options) (s : Session) : Session :=
  {| ID := ID s; Values := Values s; Opts := o;
     IsNew := IsNew s; Name := Name s |}.

Definition set_IsNew (b : bool) (s : Session) : Session :=
  {| ID := ID s; Values := Values s; Opts := Opts s;
     IsNew := b; Name := Name s |}.

End gorilla.

(** What [http.SetCookie(rw, sessions.NewCookie(name, value, options))]
    adds to the response. *)
Record Cookie : Type := mkCookie {
  cookie_name : string;
  cookie_value : string;
  cookie_options : gorilla.Options
}.

(** [http.Request]: the cookies the client sent and the request context.
    A context is the chain [context.WithValue] builds; the session the
    middleware stores in it is a pointer, identified by its address. *)
Definition addr : Type := nat.

Inductive ctxkey : Type :=
  | sessionKey                     (* contextKey(0), unexported *)
  | foreignKey (k : string).       (* a key of any other type *)

Inductive ctxval : Type :=
  | PtrSession (a : addr)          (* a *session *)
  | Foreign (v : iface).           (* a value of any other type *)

Inductive Context : Type :=
  | Background
  | WithValue (parent : Context) (key : ctxkey) (val : ctxval).

Global Instance ctxkey_eq_dec : EqDecision ctxkey.
Proof. solve_decision. Defined.

(** [ctx.Value(key)]: the innermost binding of [key]; [None] is nil. *)
Fixpoint Value (ctx : Context) (key : ctxkey) : option ctxval :=
  match ctx with
  | Background => None
  | WithValue parent k v =>
      if decide (k = key) then Some v else Value parent key
  end.

Record Request : Type := mkRequest {
  req_cookies : list (string * string);
  req_ctx : Context
}.

(** [r.WithContext(ctx)] *)
Definition WithContext (r : Request) (ctx : Context) : Request :=
  {| req_cookies := req_cookies r; req_ctx := ctx |}.

(** [r.Cookie(name)]: the first cookie of that name, or [http.ErrNoCookie]. *)
Fixpoint Cookie_of (cs : list (string * string)) (name : string)
  : error + string :=
  match cs with
  | [] => inl ErrNoCookie
  | (n, v) :: cs' => if decide (n = name) then inr v else Cookie_of cs' name
  end.

(** ** Package sessions (sessions.go) *)

Module sessions.

(** [Options]: configuration for a session or session store. *)
Record Options : Type := mkOptions {
  Path : string;
  Domain : string;
  MaxAge : Z;
  Secure : bool;
  HTTPOnly : bool
}.

(** The conversion every [Options] method of the repository performs. *)
Definition to_gorilla (options : Options) : gorilla.Options :=
  {| gorilla.Path := Path options;
     gorilla.Domain := Domain options;
     gorilla.MaxAge := MaxAge options;
     gorilla.Secure := Secure options;
     gorilla.HttpOnly := HTTPOnly options |}.

(** [Store]: gorilla's [sessions.Store] plus [Options].  [W] is whatever
    a store reads and writes: its own fields, the backend, gorilla's
    per-request registry and the headers of the response.  [Get] and [New]
    return a pointer to a session, which may be nil (gorilla's registry
    returns nil and an error for a cookie name it rejects), together with
    an error; [Save] may assign fields of the session it is handed, so it
    returns the session as it left it. *)
Record Store (W : Type) : Type := mkStore {
  Get : Request -> string -> M W (option gorilla.Session * option error);
  New : Request -> string -> M W (option gorilla.Session * option error);
  Save : Request -> gorilla.Session -> M W (option error * gorilla.Session);
  SetOptions : Options -> M W unit
}.
Arguments Get {W}.
Arguments New {W}.
Arguments Save {W}.
Arguments SetOptions {W}.

(** gorilla's [Session.AddFlash] and [Session.Flashes], which the
    session methods of the same name delegate to.  They work through the
    pointer and may panic (a type assertion on the stored flashes, an
    assignment to a nil map): each returns how it ended and the session as
    it left it. *)
Class Flash : Type := mkFlash {
  gAddFlash : iface -> list string -> gorilla.Session
              -> outcome unit * gorilla.Session;
  gFlashes : list string -> gorilla.Session
             -> outcome (list iface) * gorilla.Session
}.

(** gorilla/context's [Clear], which works on the registry of the
    request. *)
Class GContext (W : Type) : Type := mkGContext {
  context_Clear : Request -> M W unit
}.

(** [type session struct]; [s_session] is nil until a store has returned
    a session. *)
Record session (W : Type) : Type := mk_session {
  s_name : string;
  s_request : Request;
  s_store : Store W;
  s_session : option gorilla.Session;
  s_written : bool
}.
Arguments mk_session {W}.
Arguments s_name {W}.
Arguments s_request {W}.
Arguments s_store {W}.
Arguments s_session {W}.
Arguments s_written {W}.

(** What a request leaves behind, in order: the calls into the store and
    into gorilla/context, and the lines [check] prints. *)
Inductive event : Type :=
  | CallGet (r : Request) (name : string)
  | CallSave (r : Request) (g : gorilla.Session)
  | CallClear (r : Request)
  | Printf (e : error).

(** The state one request threads: the [session] struct the middleware
    allocated, the store's world, and the events so far. *)
Record state (W : Type) : Type := mk_state {
  self : session W;
  world : W;
  events : list event
}.
Arguments mk_state {W}.
Arguments self {W}.
Arguments world {W}.
Arguments events {W}.

Section Methods.
Context {W : Type} {flash : Flash}.

Definition emit (e : event) : M (state W) unit :=
  modify (fun st => mk_state (self st) (world st) (events st ++ [e])).

(** Run a store method on the world component. *)
Definition in_world {A} (m : M W A) : M (state W) A :=
  fun st => let (a, w) := m (world st) in
            (a, mk_state (self st) w (events st)).

(** [s.session = g], also used for an assignment through [s.session];
    [g] may be nil. *)
Definition assign_session (g : option gorilla.Session) : M (state W) unit :=
  modify (fun st =>
    let s := self st in
    mk_state (mk_session (s_name s) (s_request s) (s_store s)
                         g (s_written s))
             (world st) (events st)).

(** [s.written = true] *)
Definition mark_written : M (state W) unit :=
  modify (fun st =>
    let s := self st in
    mk_state (mk_session (s_name s) (s_request s) (s_store s)
                         (s_session s) true)
             (world st) (events st)).

(** [func check(err error)] *)
Definition check (err : option error) : M (state W) unit :=
  match err with
  | Some e => emit (Printf e)
  | None => ret tt
  end.

(** [func (s *session) Session() *sessions.Session]: what [Get] of the
    store returns is stored, nil or not, and a nil is asked for again the
    next time. *)
Definition session_Session : M (state W) (option gorilla.Session) :=
  (s <- gets self ;;
   match s_session s with
   | Some g => ret (Some g)
   | None =>
       emit (CallGet (s_request s) (s_name s)) ;;
       res <- in_world (Get (s_store s) (s_request s) (s_name s)) ;;
       assign_session (fst res) ;;
       check (snd res) ;;
       ret (fst res)
   end)%go.

(** [func (s *session) Get(key interface{}) interface{}]; reading
    [Values] of a nil session panics. *)
Definition session_Get (key : iface) : M (state W) (outcome iface) :=
  (sess <- session_Session ;;
   match sess with
   | None => ret Panicked
   | Some g => ret (map_index (gorilla.Values g) key)
   end)%go.

(** [func (s *session) Set(key interface{}, val interface{})] *)
Definition session_Set (key val : iface) : M (state W) (outcome unit) :=
  (sess <- session_Session ;;
   match sess with
   | None => ret Panicked
   | Some g =>
       match map_assign (gorilla.Values g) key val with
       | Panicked => ret Panicked
       | Returned m =>
           assign_session (Some (gorilla.set_Values m g)) ;;
           mark_written ;;
           ret (Returned tt)
       end
   end)%go.

(** [func (s *session) Delete(key interface{})] *)
Definition session_Delete (key : iface) : M (state W) (outcome unit) :=
  (sess <- session_Session ;;
   match sess with
   | None => ret Panicked
   | Some g =>
       match map_delete (gorilla.Values g) key with
       | Panicked => ret Panicked
       | Returned m =>
           assign_session (Some (gorilla.set_Values m g)) ;;
           mark_written ;;
           ret (Returned tt)
       end
   end)%go.

(** [func (s *session) Clear()]: the loop ranges over the keys of the
    map and deletes each through [Delete]. *)
Definition session_Clear : M (state W) (outcome unit) :=
  (sess <- session_Session ;;
   match sess with
   | None => ret Panicked
   | Some g => for_range (keys (gorilla.Values g)) session_Delete
   end)%go.

(** [func (s *session) AddFlash(value interface{}, vars ...string)];
    the flag is set once gorilla has returned. *)
Definition session_AddFlash (value : iface) (vars : list string)
  : M (state W) (outcome unit) :=
  (sess <- session_Session ;;
   match sess with
   | None => ret Panicked
   | Some g =>
       assign_session (Some (snd (gAddFlash value vars g))) ;;
       match fst (gAddFlash value vars g) with
       | Panicked => ret Panicked
       | Returned _ => (mark_written ;; ret (Returned tt))
       end
   end)%go.

(** [func (s *session) Flashes(vars ...string) []interface{}]; the flag
    is set before anything else. *)
Definition session_Flashes (vars : list string)
  : M (state W) (outcome (list iface)) :=
  (mark_written ;;
   sess <- session_Session ;;
   match sess with
   | None => ret Panicked
   | Some g =>
       assign_session (Some (snd (gFlashes vars g))) ;;
       ret (fst (gFlashes vars g))
   end)%go.

(** [func (s *session) Options(options Options)] *)
Definition session_Options (options : Options) : M (state W) (outcome unit) :=
  (sess <- session_Session ;;
   match sess with
   | None => ret Panicked
   | Some g =>
       assign_session (Some (gorilla.set_Options (to_gorilla options) g)) ;;
       ret (Returned tt)
   end)%go.

(** [func (s *session) Written() bool] *)
Definition session_Written : M (state W) bool :=
  gets (fun st => s_written (self st)).

(** The function [Sessions] hands to [rw.Before].  [s.Session().Save(r,
    res)] is gorilla's [Session.Save], which hands the session to [Save]
    of the store that made it, the store [Get] was called on, and which
    panics on a nil session. *)
Definition beforeHook (r : Request) : M (state W) (outcome unit) :=
  (written <- session_Written ;;
   if (written : bool) then
     sess <- session_Session ;;
     match sess with
     | None => ret Panicked
     | Some g =>
         s <- gets self ;;
         emit (CallSave r g) ;;
         res <- in_world (Save (s_store s) r g) ;;
         assign_session (Some (snd res)) ;;
         check (fst res) ;;
         ret (Returned tt)
     end
   else ret (Returned tt))%go.

End Methods.

(** [func GetSession(req *http.Request) Session]: the comma-ok type
    assertion fails on a nil value and on a value of another type. *)
Definition GetSession (req : Request) : option addr :=
  match Value (req_ctx req) sessionKey with
  | Some (PtrSession a) => Some a
  | _ => None
  end.

(** The methods of the [Session] interface, as calls a handler makes. *)
Inductive op : Type :=
  | OGet (key : iface)
  | OSet (key : iface) (val : iface)
  | ODelete (key : iface)
  | OClear
  | OAddFlash (value : iface) (vars : list string)
  | OFlashes (vars : list string)
  | OOptions (options : Options).

Inductive result : Type :=
  | RNone
  | RValue (v : iface)
  | RFlashes (l : list iface).

(** What the rest of a request does with the session and with the
    response writer [rw], from the moment [Sessions] calls [next]: calls
    on the session, and writes through [rw] at which negroni calls the
    functions registered with [Before] (it does so when the header is
    written; a write that does not call them is of no concern here, nor
    is a response that net/http completes by itself).  Each step is chosen
    from the outcomes of the steps before it.  After a call that
    panicked, the steps that follow are those of the code that recovers:
    a deferred function of the handler, or negroni's [Recovery], which
    writes the error page through [rw]. *)
Inductive handler : Type :=
  | Done
  | Call (o : op) (k : outcome result -> handler)
  | Write (k : outcome unit -> handler).

(** A step that was taken, with how it ended. *)
Inductive step : Type :=
  | Called (o : op) (res : outcome result)
  | Wrote (res : outcome unit).

Section Middleware.
Context {W : Type}.

(** [s := &session{name, r, store, nil, false}], in the world the
    request arrives in. *)
Definition initial (name : string) (store : Store W) (r : Request)
    (w : W) : state W :=
  mk_state (mk_session name r store None false) w [].

(** The two revisions differ in the methods [call] stands for. *)
Variable call : op -> M (state W) (outcome result).

(** Running the rest of the request; the result lists the steps taken,
    each with the state it was taken in. *)
Fixpoint run_chain (hook : M (state W) (outcome unit)) (h : handler)
  : M (state W) (list (step * state W)) :=
  match h with
  | Done => ret []
  | Call o k =>
      (st <- gets (fun st => st) ;;
       res <- call o ;;
       rest <- run_chain hook (k res) ;;
       ret ((Called o res, st) :: rest))%go
  | Write k =>
      (st <- gets (fun st => st) ;;
       res <- hook ;;
       rest <- run_chain hook (k res) ;;
       ret ((Wrote res, st) :: rest))%go
  end.

(** [func Sessions(name string, store Store) negroni.HandlerFunc], the
    same in both revisions.  [a] is the address of the [session] it
    allocates; [res] is the response writer negroni hands to its
    handlers.  The function registered with [rw.Before] is a closure over
    the variable [r], which holds the request with the new context by the
    time it is called; [s.request] keeps the original one.  [Sessions]
    itself only registers the function: it runs when, and as often as,
    [rw] calls it. *)
Definition serve (name : string) (store : Store W) (a : addr)
    (r : Request) (next : Request -> handler) (w : W)
  : list (step * state W) * state W :=
  let ctx := WithValue (req_ctx r) sessionKey (PtrSession a) in
  let r' := WithContext r ctx in
  run_chain (beforeHook r') (next r') (initial name store r w).

End Middleware.

Section Revision.
Context {W : Type} {flash : Flash}.

Definition call (o : op) : M (state W) (outcome result) :=
  match o with
  | OGet key => (v <- session_Get key ;; ret (outcome_map RValue v))%go
  | OSet key val =>
      (u <- session_Set key val ;; ret (outcome_map (fun _ => RNone) u))%go
  | ODelete key =>
      (u <- session_Delete key ;; ret (outcome_map (fun _ => RNone) u))%go
  | OClear =>
      (u <- session_Clear ;; ret (outcome_map (fun _ => RNone) u))%go
  | OAddFlash value vars =>
      (u <- session_AddFlash value vars ;;
       ret (outcome_map (fun _ => RNone) u))%go
  | OFlashes vars =>
      (l <- session_Flashes vars ;; ret (outcome_map RFlashes l))%go
  | OOptions options =>
      (u <- session_Options options ;;
       ret (outcome_map (fun _ => RNone) u))%go
  end.

Definition run : M (state W) (outcome unit) -> handler
    -> M (state W) (list (step * state W)) :=
  run_chain call.

Definition Sessions : string -> Store W -> addr -> Request
    -> (Request -> handler) -> W -> list (step * state W) * state W :=
  serve call.

End Revision.

(** cookie_token.go: [cookieToken], the [TokenGetSetter] every store of
    the repository is built with.  The response is the list of cookies
    set on it so far. *)
Definition GetToken (req : Request) (name : string) : error + string :=
  Cookie_of (req_cookies req) name.

Definition SetToken (rw : list Cookie) (name value : string)
    (options : gorilla.Options) : list Cookie :=
  rw ++ [mkCookie name value options].

End sessions.

(** ** Package sessions, the revision with nil checks (sessions.go)

    Every method tests the result of [s.Session()] for nil and returns
    at once when there is no session; [Clear] sets the values map to nil
    and clears gorilla's registry.  [Sessions], [Session], [Written],
    [check] and [GetSession] are as in the other revision. *)

Module sessions_nil.

Import sessions.

Section Methods.
Context {W : Type} {flash : Flash} {gctx : GContext W}.

(** [func (s *session) Get(key interface{}) interface{}] *)
Definition session_Get (key : iface) : M (state W) (outcome iface) :=
  (sess <- session_Session ;;
   match sess with
   | None => ret (Returned Nil)
   | Some g => ret (map_index (gorilla.Values g) key)
   end)%go.

(** [func (s *session) Set(key interface{}, val interface{})] *)
Definition session_Set (key val : iface) : M (state W) (outcome unit) :=
  (sess <- session_Session ;;
   match sess with
   | None => ret (Returned tt)
   | Some g =>
       match map_assign (gorilla.Values g) key val with
       | Panicked => ret Panicked
       | Returned m =>
           assign_session (Some (gorilla.set_Values m g)) ;;
           mark_written ;;
           ret (Returned tt)
       end
   end)%go.

(** [func (s *session) Delete(key interface{})] *)
Definition session_Delete (key : iface) : M (state W) (outcome unit) :=
  (sess <- session_Session ;;
   match sess with
   | None => ret (Returned tt)
   | Some g =>
       match map_delete (gorilla.Values g) key with
       | Panicked => ret Panicked
       | Returned m =>
           assign_session (Some (gorilla.set_Values m g)) ;;
           mark_written ;;
           ret (Returned tt)
       end
   end)%go.

(** [func (s *session) Clear()] *)
Definition session_Clear : M (state W) (outcome unit) :=
  (sess <- session_Session ;;
   match sess with
   | None => ret (Returned tt)
   | Some g =>
       assign_session (Some (gorilla.set_Values nil_map g)) ;;
       mark_written ;;
       s <- gets self ;;
       emit (CallClear (s_request s)) ;;
       in_world (context_Clear (s_request s)) ;;
       ret (Returned tt)
   end)%go.

(** [func (s *session) AddFlash(value interface{}, vars ...string)] *)
Definition session_AddFlash (value : iface) (vars : list string)
  : M (state W) (outcome unit) :=
  (sess <- session_Session ;;
   match sess with
   | None => ret (Returned tt)
   | Some g =>
       assign_session (Some (snd (gAddFlash value vars g))) ;;
       match fst (gAddFlash value vars g) with
       | Panicked => ret Panicked
       | Returned _ => (mark_written ;; ret (Returned tt))
       end
   end)%go.

(** [func (s *session) Flashes(vars ...string) []interface{}]; the flag
    is set before gorilla is asked. *)
Definition session_Flashes (vars : list string)
  : M (state W) (outcome (list iface)) :=
  (sess <- session_Session ;;
   match sess with
   | None => ret (Returned [])
   | Some g =>
       mark_written ;;
       assign_session (Some (snd (gFlashes vars g))) ;;
       ret (fst (gFlashes vars g))
   end)%go.

(** [func (s *session) Options(options Options)] *)
Definition session_Options (options : Options) : M (state W) (outcome unit) :=
  (sess <- session_Session ;;
   match sess with
   | None => ret (Returned tt)
   | Some g =>
       assign_session (Some (gorilla.set_Options (to_gorilla options) g)) ;;
       ret (Returned tt)
   end)%go.

Definition call (o : op) : M (state W) (outcome result) :=
  match o with
  | OGet key => (v <- session_Get key ;; ret (outcome_map RValue v))%go
  | OSet key val =>
      (u <- session_Set key val ;; ret (outcome_map (fun _ => RNone) u))%go
  | ODelete key =>
      (u <- session_Delete key ;; ret (outcome_map (fun _ => RNone) u))%go
  | OClear =>
      (u <- session_Clear ;; ret (outcome_map (fun _ => RNone) u))%go
  | OAddFlash value vars =>
      (u <- session_AddFlash value vars ;;
       ret (outcome_map (fun _ => RNone) u))%go
  | OFlashes vars =>
      (l <- session_Flashes vars ;; ret (outcome_map RFlashes l))%go
  | OOptions options =>
      (u <- session_Options options ;;
       ret (outcome_map (fun _ => RNone) u))%go
  end.

Definition run : M (state W) (outcome unit) -> handler
    -> M (state W) (list (step * state W)) :=
  run_chain call.

Definition Sessions : string -> Store W -> addr -> Request
    -> (Request -> handler) -> W -> list (step * state W) * state W :=
  serve call.

End Methods.

(** What a method returns when there is no session. *)
Definition zero (o : op) : result :=
  match o with
  | OGet _ => RValue Nil
  | OFlashes _ => RFlashes []
  | _ => RNone
  end.

(** The steps of a request when every call is answered with [zero] and
    every write returns. *)
Fixpoint unanswered (h : handler) : list step :=
  match h with
  | Done => []
  | Call o k =>
      Called o (Returned (zero o)) :: unanswered (k (Returned (zero o)))
  | Write k => Wrote (Returned tt) :: unanswered (k (Returned tt))
  end.

(** A state without session whose store has none to give. *)
Definition bereft {W} (st : state W) : Prop :=
  s_session (self st) = None
  /\ forall w, fst (fst (Get (s_store (self st)) (s_request (self st))
                             (s_name (self st)) w)) = None.

End sessions_nil.

(** ** The libraries behind the database-backed stores *)

(** gorilla/securecookie with the codecs of a store.  [EncodeMulti] and
    [DecodeMulti] take an [interface{}]; the stores use them at two types,
    the session id (a string) and the values map.  Decoding writes through
    the destination pointer, so it returns what the destination holds
    afterwards, whether it failed or not. *)
Class Codec : Type := mkCodec {
  Codecs : Type;
  EncodeMulti_string : string -> string -> Codecs -> error + string;
  EncodeMulti_values : string -> values -> Codecs -> error + string;
  DecodeMulti_string : string -> string -> string -> Codecs -> option error * string;
  DecodeMulti_values : string -> string -> values -> Codecs -> option error * values
}.

(** [bson.ObjectId] and [dal.ObjectID] are string types. *)
Definition ObjectId : Type := string.

(** [type mongoSession struct] and [type dalSession struct]: the document
    kept per session.  The zero [doc_ID] is omitted when it is stored. *)
Record Doc : Type := mkDoc {
  doc_ID : ObjectId;
  Data : string;
  Modified : Z
}.

(** The driver: mgo with bson for mongostore, dal for dalstore (which
    spells the same entry points [IsObjectIDHex], [ObjectIDHex],
    [NewObjectID], [FindID], [UpsertID], [RemoveID]).  [DB] is the state of
    the database server; a collection is named by database and collection.
    [NewObjectId] draws on a counter. *)
Class Backend : Type := mkBackend {
  IsObjectIdHex : string -> bool;
  ObjectIdHex : string -> ObjectId;
  Hex : ObjectId -> string;
  NewObjectId : nat -> ObjectId;
  DB : Type;
  FindId : string -> string -> ObjectId -> DB -> error + Doc;
  UpsertId : string -> string -> ObjectId -> Doc -> DB -> option error * DB;
  RemoveId : string -> string -> ObjectId -> DB -> option error * DB
}.

(** The requests a store sent to the database. *)
Inductive access : Type :=
  | Find (database collection : string) (id : ObjectId)
  | Upsert (database collection : string) (id : ObjectId) (doc : Doc)
  | Remove (database collection : string) (id : ObjectId).

(** What the methods of a database-backed store read and write besides
    the session: the database, the response, the clock and the counter
    behind [NewObjectId]. *)
Record dbworld {bck : Backend} : Type := mkWorld {
  db : DB;
  accesses : list access;
  response : list Cookie;
  clock : Z;
  counter : nat
}.

Section World.
Context {bck : Backend}.

Definition set_db (d : DB) (a : access) (w : dbworld) : dbworld :=
  {| db := d; accesses := accesses w ++ [a]; response := response w;
     clock := clock w; counter := counter w |}.

(** [c.FindId(id).One(&s)], [c.UpsertId(id, &s)], [c.RemoveId(id)] on
    the collection [conn.DB(database).C(collection)] of a cloned
    connection. *)
Definition find (database collection : string) (id : ObjectId)
  : M dbworld (error + Doc) :=
  fun w => (FindId database collection id (db w),
            set_db (db w) (Find database collection id) w).

Definition upsert (database collection : string) (id : ObjectId) (doc : Doc)
  : M dbworld (option error) :=
  fun w => let (err, d) := UpsertId database collection id doc (db w) in
           (err, set_db d (Upsert database collection id doc) w).

Definition remove (database collection : string) (id : ObjectId)
  : M dbworld (option error) :=
  fun w => let (err, d) := RemoveId database collection id (db w) in
           (err, set_db d (Remove database collection id) w).

(** [time.Now()] *)
Definition time_Now : M dbworld Z := gets clock.

(** [bson.NewObjectId()] *)
Definition new_object_id : M dbworld ObjectId :=
  fun w => (NewObjectId (counter w),
            {| db := db w; accesses := accesses w; response := response w;
               clock := clock w; counter := S (counter w) |}).

(** [Token.SetToken(w, name, value, options)] *)
Definition set_token (name value : string) (options : gorilla.Options)
  : M dbworld unit :=
  modify (fun w =>
    {| db := db w; accesses := accesses w;
       response := sessions.SetToken (response w) name value options;
       clock := clock w; counter := counter w |}).

End World.

(** ** Package mongostore (mongostore/main.go) *)

Module mongostore.

Section Store.
Context {cdc : Codec} {bck : Backend}.

(** [type mongoStore struct].  [Token] is the [cookieToken] that [New]
    installs; the mgo session is the database of the [dbworld]. *)
Record mongoStore : Type := mk_mongoStore {
  store_Codecs : Codecs;
  database : string;
  collection : string;
  options : gorilla.Options
}.

(** [func (m *mongoStore) Options(options nSessions.Options)] *)
Definition mongoStore_Options (m : mongoStore) (o : sessions.Options)
  : mongoStore :=
  mk_mongoStore (store_Codecs m) (database m) (collection m)
                (sessions.to_gorilla o).

(** [func (m *mongoStore) load(session *gSessions.Session) (bool, error)];
    the third component is the session as the call leaves it. *)
Definition mongoStore_load (m : mongoStore) (session : gorilla.Session)
  : M dbworld (bool * option error * gorilla.Session) :=
  if negb (IsObjectIdHex (gorilla.ID session)) then
    ret (false, Some ErrInvalidId, session)
  else
    (found <- find (database m) (collection m)
                   (ObjectIdHex (gorilla.ID session)) ;;
     match found with
     | inl err => ret (false, Some err, session)
     | inr s =>
         let (err, vals) :=
           DecodeMulti_values (gorilla.Name session) (Data s)
                              (gorilla.Values session) (store_Codecs m) in
         let session := gorilla.set_Values vals session in
         match err with
         | Some e => ret (false, Some e, session)
         | None => ret (true, None, session)
         end
     end)%go.

(** [func (m *mongoStore) save(session *gSessions.Session) error] *)
Definition mongoStore_save (m : mongoStore) (session : gorilla.Session)
  : M dbworld (option error) :=
  if negb (IsObjectIdHex (gorilla.ID session)) then
    ret (Some ErrInvalidId)
  else
    (modified <- match gorilla.Values session !! KStr "modified" with
                 | Some (Time t) => ret (inr t)
                 | Some _ => ret (inl ErrInvalidModified)
                 | None => (now <- time_Now ;; ret (inr now))
                 end ;;
     match modified with
     | inl err => ret (Some err)
     | inr modified =>
         match EncodeMulti_values (gorilla.Name session)
                 (gorilla.Values session) (store_Codecs m) with
         | inl err => ret (Some err)
         | inr encoded =>
             let s := {| doc_ID := ""; Data := encoded;
                         Modified := modified |} in
             upsert (database m) (collection m)
                    (ObjectIdHex (gorilla.ID session)) s
         end
     end)%go.

(** [func (m *mongoStore) delete(session *gSessions.Session) error] *)
Definition mongoStore_delete (m : mongoStore) (session : gorilla.Session)
  : M dbworld (option error) :=
  if negb (IsObjectIdHex (gorilla.ID session)) then
    ret (Some ErrInvalidId)
  else
    remove (database m) (collection m) (ObjectIdHex (gorilla.ID session)).

(** [func (m *mongoStore) New(r *http.Request, name string)], which
    returns a session and an error.  The [err] that [load] returns is
    declared in the inner block; the one returned is the outer [err],
    which holds the result of decoding the cookie. *)
Definition mongoStore_New (m : mongoStore) (r : Request) (name : string)
  : M dbworld (gorilla.Session * option error) :=
  let session := gorilla.NewSession name in
  let session :=
    gorilla.set_Options
      {| gorilla.Path := gorilla.Path (options m);
         gorilla.Domain := "";
         gorilla.MaxAge := gorilla.MaxAge (options m);
         gorilla.Secure := false;
         gorilla.HttpOnly := false |} session in
  let session := gorilla.set_IsNew true session in
  match sessions.GetToken r name with
  | inr cook =>
      let (err, id) :=
        DecodeMulti_string name cook (gorilla.ID session) (store_Codecs m) in
      let session := gorilla.set_ID id session in
      match err with
      | None =>
          (loaded <- mongoStore_load m session ;;
           let '(ok, err', session) := loaded in
           let is_nil := match err' with None => true | Some _ => false end in
           ret (gorilla.set_IsNew (negb (is_nil && ok)) session, err))%go
      | Some _ => ret (session, err)
      end
  | inl errToken => ret (session, None)
  end.

(** [func (m *mongoStore) Save(r *http.Request, w http.ResponseWriter,
    session *gSessions.Session) error]; the second component is the
    session as the call leaves it. *)
Definition mongoStore_Save (m : mongoStore) (r : Request)
    (session : gorilla.Session)
  : M dbworld (option error * gorilla.Session) :=
  if gorilla.MaxAge (gorilla.Opts session) <? 0 then
    (err <- mongoStore_delete m session ;;
     match err with
     | Some e => ret (Some e, session)
     | None =>
         set_token (gorilla.Name session) "" (gorilla.Opts session) ;;
         ret (None, session)
     end)%go
  else
    (session <- (if decide (gorilla.ID session = "") then
                   (id <- new_object_id ;;
                    ret (gorilla.set_ID (Hex id) session))
                 else ret session) ;;
     err <- mongoStore_save m session ;;
     match err with
     | Some e => ret (Some e, session)
     | None =>
         match EncodeMulti_string (gorilla.Name session)
                 (gorilla.ID session) (store_Codecs m) with
         | inl e => ret (Some e, session)
         | inr encoded =>
             set_token (gorilla.Name session) encoded
                       (gorilla.Opts session) ;;
             ret (None, session)
         end
     end)%go.

End Store.

End mongostore.

(** ** Package dalstore *)

Module dalstore.

Section Store.
Context {cdc : Codec} {bck : Backend}.

(** [type dalStore struct] *)
Record dalStore : Type := mk_dalStore {
  store_Codecs : Codecs;
  database : string;
  collection : string;
  options : gorilla.Options
}.

(** [func (d *dalStore) Options(options nSessions.Options)] *)
Definition dalStore_Options (d : dalStore) (o : sessions.Options)
  : dalStore :=
  mk_dalStore (store_Codecs d) (database d) (collection d)
              (sessions.to_gorilla o).

(** [func (d *dalStore) load(session *gSessions.Session) (bool, error)] *)
Definition dalStore_load (d : dalStore) (session : gorilla.Session)
  : M dbworld (bool * option error * gorilla.Session) :=
  if negb (IsObjectIdHex (gorilla.ID session)) then
    ret (false, Some ErrInvalidId, session)
  else
    (found <- find (database d) (collection d)
                   (ObjectIdHex (gorilla.ID session)) ;;
     match found with
     | inl err => ret (false, Some err, session)
     | inr s =>
         let (err, vals) :=
           DecodeMulti_values (gorilla.Name session) (Data s)
                              (gorilla.Values session) (store_Codecs d) in
         let session := gorilla.set_Values vals session in
         match err with
         | Some e => ret (false, Some e, session)
         | None => ret (true, None, session)
         end
     end)%go.

(** [func (d *dalStore) save(session *gSessions.Session) error]; the
    document carries its id. *)
Definition dalStore_save (d : dalStore) (session : gorilla.Session)
  : M dbworld (option error) :=
  if negb (IsObjectIdHex (gorilla.ID session)) then
    ret (Some ErrInvalidId)
  else
    (modified <- match gorilla.Values session !! KStr "modified" with
                 | Some (Time t) => ret (inr t)
                 | Some _ => ret (inl ErrInvalidModified)
                 | None => (now <- time_Now ;; ret (inr now))
                 end ;;
     match modified with
     | inl err => ret (Some err)
     | inr modified =>
         match EncodeMulti_values (gorilla.Name session)
                 (gorilla.Values session) (store_Codecs d) with
         | inl err => ret (Some err)
         | inr encoded =>
             let s := {| doc_ID := ObjectIdHex (gorilla.ID session);
                         Data := encoded; Modified := modified |} in
             upsert (database d) (collection d)
                    (ObjectIdHex (gorilla.ID session)) s
         end
     end)%go.

(** [func (d *dalStore) delete(session *gSessions.Session) error] *)
Definition dalStore_delete (d : dalStore) (session : gorilla.Session)
  : M dbworld (option error) :=
  if negb (IsObjectIdHex (gorilla.ID session)) then
    ret (Some ErrInvalidId)
  else
    remove (database d) (collection d) (ObjectIdHex (gorilla.ID session)).

(** [func (d *dalStore) New(r *http.Request, name string)]: the session
    starts with a copy of all the options of the store. *)
Definition dalStore_New (d : dalStore) (r : Request) (name : string)
  : M dbworld (gorilla.Session * option error) :=
  let session := gorilla.NewSession name in
  let session := gorilla.set_Options (options d) session in
  let session := gorilla.set_IsNew true session in
  match sessions.GetToken r name with
  | inr cook =>
      let (err, id) :=
        DecodeMulti_string name cook (gorilla.ID session) (store_Codecs d) in
      let session := gorilla.set_ID id session in
      match err with
      | None =>
          (loaded <- dalStore_load d session ;;
           let '(ok, err', session) := loaded in
           let is_nil := match err' with None => true | Some _ => false end in
           ret (gorilla.set_IsNew (negb (is_nil && ok)) session, err))%go
      | Some _ => ret (session, err)
      end
  | inl errToken => ret (session, None)
  end.

(** [func (d *dalStore) Save(r *http.Request, w http.ResponseWriter,
    session *gSessions.Session) error] *)
Definition dalStore_Save (d : dalStore) (r : Request)
    (session : gorilla.Session)
  : M dbworld (option error * gorilla.Session) :=
  if gorilla.MaxAge (gorilla.Opts session) <? 0 then
    (err <- dalStore_delete d session ;;
     match err with
     | Some e => ret (Some e, session)
     | None =>
         set_token (gorilla.Name session) "" (gorilla.Opts session) ;;
         ret (None, session)
     end)%go
  else
    (session <- (if decide (gorilla.ID session = "") then
                   (id <- new_object_id ;;
                    ret (gorilla.set_ID (Hex id) session))
                 else ret session) ;;
     err <- dalStore_save d session ;;
     match err with
     | Some e => ret (Some e, session)
     | None =>
         match EncodeMulti_string (gorilla.Name session)
                 (gorilla.ID session) (store_Codecs d) with
         | inl e => ret (Some e, session)
         | inr encoded =>
             set_token (gorilla.Name session) encoded
                       (gorilla.Opts session) ;;
             ret (None, session)
         end
     end)%go.

End Store.

End dalstore.

(** ** The stores of the earlier revision (package sessions)

    Before the stores moved to packages of their own they held a
    collection instead of a connection, [load] returned an error alone,
    and [New] set that error back to nil by hand.  Its [getToken] has the
    body of [GetToken]. *)

Module earlystore.

Section Store.
Context {cdc : Codec} {bck : Backend}.

(** [type mongoStore struct]; [coll] names the collection the store was
    built on, by database and collection. *)
Record mongoStore : Type := mk_mongoStore {
  store_Codecs : Codecs;
  coll : string * string;
  options : gorilla.Options
}.

(** [func (m *mongoStore) load(session *sessions.Session) error] *)
Definition mongoStore_load (m : mongoStore) (session : gorilla.Session)
  : M dbworld (option error * gorilla.Session) :=
  if negb (IsObjectIdHex (gorilla.ID session)) then
    ret (Some ErrInvalidId, session)
  else
    (found <- find (fst (coll m)) (snd (coll m))
                   (ObjectIdHex (gorilla.ID session)) ;;
     match found with
     | inl err => ret (Some err, session)
     | inr s =>
         let (err, vals) :=
           DecodeMulti_values (gorilla.Name session) (Data s)
                              (gorilla.Values session) (store_Codecs m) in
         let session := gorilla.set_Values vals session in
         match err with
         | Some e => ret (Some e, session)
         | None => ret (None, session)
         end
     end)%go.

(** [func (m *mongoStore) New(r *http.Request, name string)] *)
Definition mongoStore_New (m : mongoStore) (r : Request) (name : string)
  : M dbworld (gorilla.Session * option error) :=
  let session := gorilla.NewSession name in
  let session :=
    gorilla.set_Options
      {| gorilla.Path := gorilla.Path (options m);
         gorilla.Domain := "";
         gorilla.MaxAge := gorilla.MaxAge (options m);
         gorilla.Secure := false;
         gorilla.HttpOnly := false |} session in
  let session := gorilla.set_IsNew true session in
  match sessions.GetToken r name with
  | inr cook =>
      let (err, id) :=
        DecodeMulti_string name cook (gorilla.ID session) (store_Codecs m) in
      let session := gorilla.set_ID id session in
      match err with
      | None =>
          (loaded <- mongoStore_load m session ;;
           let (err, session) := loaded in
           match err with
           | None => ret (gorilla.set_IsNew false session, None)
           | Some _ => ret (session, None)
           end)%go
      | Some _ => ret (session, err)
      end
  | inl errToken => ret (session, None)
  end.

End Store.

End earlystore.

(** ** Sample instances of the libraries

    Small executable stand-ins, used to run the definitions above on
    concrete requests. *)

Module sample.

(** gorilla keeps the flashes of a key as a slice under that key,
    ["_flash"] by default.  Adding asserts that what is stored there is a
    slice and assigns to the map; reading removes the key and then
    asserts the same. *)
Definition flashKey (vars : list string) : string :=
  match vars with
  | v :: _ => v
  | [] => "_flash"
  end.

Definition AddFlash (value : iface) (vars : list string)
    (s : gorilla.Session) : outcome unit * gorilla.Session :=
  let k := KStr (flashKey vars) in
  let add flashes :=
    match gorilla.Values s with
    | make_map l =>
        (Returned tt,
         gorilla.set_Values
           (make_map (map_put k (Slice (flashes ++ [value])) l)) s)
    | nil_map => (Panicked, s)
    end in
  match gorilla.Values s !! k with
  | Some (Slice l) => add l
  | Some _ => (Panicked, s)
  | None => add []
  end.

Definition Flashes (vars : list string) (s : gorilla.Session)
  : outcome (list iface) * gorilla.Session :=
  let k := KStr (flashKey vars) in
  let dropped :=
    gorilla.set_Values (make_map (map_drop k (entries (gorilla.Values s)))) s in
  match gorilla.Values s !! k with
  | Some (Slice l) => (Returned l, dropped)
  | Some _ => (Panicked, dropped)
  | None => (Returned [], s)
  end.

Global Instance flash : sessions.Flash :=
  {| sessions.gAddFlash := AddFlash; sessions.gFlashes := Flashes |}.

Global Instance gctx : sessions.GContext (list Cookie) :=
  {| sessions.context_Clear := fun _ => ret tt |}.

(** A store over the response alone: every session starts empty, and
    saving sets a cookie that names the session. *)
Definition store : sessions.Store (list Cookie) :=
  {| sessions.Get := fun _ name => ret (Some (gorilla.NewSession name), None);
     sessions.New := fun _ name => ret (Some (gorilla.NewSession name), None);
     sessions.Save := fun _ g =>
       (modify (fun rw => sessions.SetToken rw (gorilla.Name g)
                            (gorilla.Name g) (gorilla.Opts g)) ;;
        ret (None, g))%go;
     sessions.SetOptions := fun _ => ret tt |}.

(** A store that has no session to give, as gorilla's registry has for
    a cookie name it rejects. *)
Definition invalid_name : error :=
  ErrOther "sessions: invalid character in cookie name".

Definition no_session : sessions.Store (list Cookie) :=
  {| sessions.Get := fun _ _ => ret (None, Some invalid_name);
     sessions.New := fun _ _ => ret (None, Some invalid_name);
     sessions.Save := fun _ g => ret (None, g);
     sessions.SetOptions := fun _ => ret tt |}.

Definition request : Request :=
  {| req_cookies := []; req_ctx := Background |}.

(** A codec that prefixes the session name; it only knows how to write
    the values of an empty session and of the session of the README. *)
Definition strip (name s : string) : option string :=
  if String.prefix (name +:+ "|") s
  then Some (String.substring (String.length name + 1)
               (String.length s - (String.length name + 1)) s)
  else None.

Definition hello : values := make_map [(KStr "hello", Str "world")].

Global Instance codec : Codec :=
  {| Codecs := unit;
     EncodeMulti_string := fun name id _ => inr (name +:+ "|" +:+ id);
     EncodeMulti_values := fun name vals _ =>
       match entries vals with
       | [] => inr (name +:+ "|")
       | [(KStr k, Str v)] => inr (name +:+ "|" +:+ k +:+ "=" +:+ v)
       | _ => inl (ErrOther "securecookie: the value is too long")
       end;
     DecodeMulti_string := fun name cook dst _ =>
       match strip name cook with
       | Some id => (None, id)
       | None => (Some (ErrOther "securecookie: the value is not valid"), dst)
       end;
     DecodeMulti_values := fun name data dst _ =>
       match strip name data with
       | Some "" => (None, dst)
       | Some "hello=world" =>
           (None, make_map (map_put (KStr "hello") (Str "world")
                                    (entries dst)))
       | _ => (Some (ErrOther "securecookie: the value is not valid"), dst)
       end |}.

(** A database that is a map from ids to documents and that can be
    unreachable.  An object-id hex is 24 hexadecimal digits. *)
Record database : Type := mk_database {
  docs : gmap string Doc;
  reachable : bool
}.

Definition is_hex (c : ascii) : bool :=
  let n := nat_of_ascii c in
  ((48 <=? n) && (n <=? 57) || (97 <=? n) && (n <=? 102)
   || (65 <=? n) && (n <=? 70))%nat.

Definition is_object_id_hex (s : string) : bool :=
  (String.length s =? 24)%nat && forallb is_hex (list_ascii_of_string s).

Definition unreachable : error := ErrOther "no reachable servers".
Definition not_found : error := ErrOther "not found".

Global Instance backend : Backend :=
  {| IsObjectIdHex := is_object_id_hex;
     ObjectIdHex := fun s => s;
     Hex := fun id => id;
     NewObjectId := fun n =>
       if (n =? 0)%nat then "507f1f77bcf86cd799439011"
       else "507f191e810c19729de860ea";
     DB := database;
     FindId := fun _ _ id d =>
       if reachable d then
         match docs d !! id with
         | Some doc => inr doc
         | None => inl not_found
         end
       else inl unreachable;
     UpsertId := fun _ _ id doc d =>
       if reachable d
       then (None, mk_database (<[id := doc]> (docs d)) true)
       else (Some unreachable, d);
     RemoveId := fun _ _ id d =>
       if reachable d then
         match docs d !! id with
         | Some _ => (None, mk_database (delete id (docs d)) true)
         | None => (Some not_found, d)
         end
       else (Some unreachable, d) |}.

(** A mongo store over these, an empty reachable database, and the
    sessions of the examples. *)
Definition mongo : mongostore.mongoStore :=
  mongostore.mk_mongoStore (cdc := codec) tt
    "app" "sessions" (gorilla.mkOptions "/" "" 3600 false false).

Definition dal : dalstore.dalStore :=
  dalstore.mk_dalStore (cdc := codec) tt
    "app" "sessions" (gorilla.mkOptions "/" "" 3600 false false).

Definition empty_world : dbworld :=
  {| db := mk_database ∅ true; accesses := []; response := [];
     clock := 1700000000; counter := 0 |}.

Definition unreachable_world : dbworld :=
  {| db := mk_database ∅ false; accesses := []; response := [];
     clock := 1700000000; counter := 0 |}.

(** The session of the README after [session.Set("hello", "world")], not
    saved before, with the options [New] gave it. *)
Definition fresh_session : gorilla.Session :=
  gorilla.set_Values hello
    (gorilla.set_Options (gorilla.mkOptions "/" "" 3600 false false)
       (gorilla.NewSession "my_session")).

(** The same session once the handler has set [MaxAge] to -1. *)
Definition expired_session : gorilla.Session :=
  gorilla.set_Options (gorilla.mkOptions "/" "" (-1) false false)
    fresh_session.

(** A session whose cookie decoded to something that is no object id. *)
Definition forged_session : gorilla.Session :=
  gorilla.set_ID "not-an-object-id" fresh_session.

(** The world after the first save of [fresh_session], the session as
    that save left it, and the request that brings its cookie back. *)
Definition saved_world : dbworld :=
  snd (mongostore.mongoStore_Save mongo request fresh_session empty_world).

Definition saved_session : gorilla.Session :=
  snd (fst (mongostore.mongoStore_Save mongo request fresh_session
              empty_world)).

Definition returning_request : Request :=
  {| req_cookies := [("my_session", "my_session|507f1f77bcf86cd799439011")];
     req_ctx := Background |}.


Definition test_handler (r : Request) : sessions.handler :=
  sessions.Call (sessions.OSet (Str "hello") (Str "world")) (fun _ =>
  sessions.Write (fun _ => sessions.Done)).


Definition clear_handler (r : Request) : sessions.handler :=
  sessions.Call sessions.OClear (fun _ =>
  sessions.Write (fun _ => sessions.Done)).

(** A handler that reads, writes and reads back, and then writes the
    response. *)
Definition busy_handler (r : Request) : sessions.handler :=
  sessions.Call (sessions.OGet (Str "hello")) (fun _ =>
  sessions.Call (sessions.OSet (Str "hello") (Str "world")) (fun _ =>
  sessions.Call (sessions.OFlashes []) (fun _ =>
  sessions.Write (fun _ => sessions.Done)))).

(** A handler that clears the session and then sets a value. *)
Definition reset_handler (r : Request) : sessions.handler :=
  sessions.Call sessions.OClear (fun _ =>
  sessions.Call (sessions.OSet (Str "hello") (Str "world")) (fun _ =>
  sessions.Done)).

End sample.

(** ** Vocabulary of the properties *)

(** How often a request called [Get] and [Save] of its store. *)
Fixpoint Get_calls (evs : list sessions.event) : nat :=
  match evs with
  | [] => 0
  | sessions.CallGet _ _ :: evs' => S (Get_calls evs')
  | _ :: evs' => Get_calls evs'
  end.

Fixpoint Save_calls (evs : list sessions.event) : nat :=
  match evs with
  | [] => 0
  | sessions.CallSave _ _ :: evs' => S (Save_calls evs')
  | _ :: evs' => Save_calls evs'
  end.

(** The five methods the documentation counts as mutations. *)
Definition mutator (o : sessions.op) : bool :=
  match o with
  | sessions.OSet _ _ | sessions.ODelete _ | sessions.OClear
  | sessions.OAddFlash _ _ | sessions.OFlashes _ => true
  | sessions.OGet _ | sessions.OOptions _ => false
  end.

(** The session a step taken in state [st] works on, nil if the store
    has none, and the state once [s.Session()] has returned it. *)
Definition cur {W} (st : sessions.state W) : option gorilla.Session :=
  fst (sessions.session_Session st).

Definition load {W} (st : sessions.state W) : sessions.state W :=
  snd (sessions.session_Session st).

Definition loaded {W} (st : sessions.state W) : Prop :=
  is_Some (sessions.s_session (sessions.self st)).

(** The state after [s.session = g; s.written = b]. *)
Definition updated {W} (st : sessions.state W) (g : option gorilla.Session)
    (b : bool) : sessions.state W :=
  sessions.mk_state
    (sessions.mk_session (sessions.s_name (sessions.self st))
       (sessions.s_request (sessions.self st))
       (sessions.s_store (sessions.self st)) g b)
    (sessions.world st) (sessions.events st).

(** What [check] prints for an error. *)
Definition printed (err : option error) : list sessions.event :=
  match err with
  | Some e => [sessions.Printf e]
  | None => []
  end.

(** A step that is a call on the session, and the call of a mutator. *)
Definition called (s : sessions.step) : bool :=
  match s with
  | sessions.Called _ _ => true
  | sessions.Wrote _ => false
  end.


(** A step that sets the written flag: [Flashes], whatever it does next;
    [Set], [Delete] and [AddFlash] when they return; [Clear] when the
    session holds at least one value. *)
Definition marks {W} (c : sessions.step * sessions.state W) : Prop :=
  match fst c with
  | sessions.Called (sessions.OFlashes _) _ => True
  | sessions.Called (sessions.OSet _ _) res
  | sessions.Called (sessions.ODelete _) res
  | sessions.Called (sessions.OAddFlash _ _) res =>
      res = Returned sessions.RNone
  | sessions.Called sessions.OClear _ =>
      exists g, cur (snd c) = Some g /\ entries (gorilla.Values g) <> []
  | _ => False
  end.

(** A step that finds [s.session] nil and so asks the store: any call,
    and a run of the Before hook with the flag set. *)
Definition asks {W} (c : sessions.step * sessions.state W) : bool :=
  match sessions.s_session (sessions.self (snd c)), fst c with
  | Some _, _ => false
  | None, sessions.Called _ _ => true
  | None, sessions.Wrote _ => sessions.s_written (sessions.self (snd c))
  end.

(** A step that calls [Save]: a run of the Before hook that finds the
    flag set and gets a session from [s.Session()]. *)
Definition saves {W} (c : sessions.step * sessions.state W) : bool :=
  match fst c, cur (snd c) with
  | sessions.Wrote _, Some _ => sessions.s_written (sessions.self (snd c))
  | _, _ => false
  end.

(** The events of [s.Session()] in state [st]: none with a session
    cached, else the call of [Get], with the request and the name the
    middleware was given, and the error it printed. *)
Definition fetch {W} (st : sessions.state W) : list sessions.event :=
  let s := sessions.self st in
  match sessions.s_session s with
  | Some _ => []
  | None =>
      sessions.CallGet (sessions.s_request s) (sessions.s_name s)
      :: printed (snd (fst (sessions.Get (sessions.s_store s)
                              (sessions.s_request s) (sessions.s_name s)
                              (sessions.world st))))
  end.

(** The events of a step of the revision without nil checks, the hook
    being the one registered for the request [r]. *)
Definition trail {W} (r : Request) (c : sessions.step * sessions.state W)
  : list sessions.event :=
  let st := snd c in
  match fst c with
  | sessions.Called _ _ => fetch st
  | sessions.Wrote _ =>
      if sessions.s_written (sessions.self st) then
        fetch st ++
        match cur st with
        | Some g =>
            sessions.CallSave r g
            :: printed (fst (fst (sessions.Save
                                    (sessions.s_store (sessions.self st))
                                    r g (sessions.world (load st)))))
        | None => []
        end
      else []
  end.

(** The state a step leaves, whether the outcome recorded with a step
    is the one the step has in its state, and a sequence of steps in which
    each step starts in the state the one before it left: from [st] to
    [final]. *)
Definition after {W} `{sessions.Flash} (r : Request)
    (c : sessions.step * sessions.state W) : sessions.state W :=
  match fst c with
  | sessions.Called o _ => snd (sessions.call o (snd c))
  | sessions.Wrote _ => snd (sessions.beforeHook r (snd c))
  end.

Definition recorded {W} `{sessions.Flash} (r : Request)
    (c : sessions.step * sessions.state W) : Prop :=
  match fst c with
  | sessions.Called o res => res = fst (sessions.call o (snd c))
  | sessions.Wrote res => res = fst (sessions.beforeHook r (snd c))
  end.

Fixpoint linked {W} `{sessions.Flash} (r : Request) (st : sessions.state W)
    (l : list (sessions.step * sessions.state W))
    (final : sessions.state W) : Prop :=
  match l with
  | [] => final = st
  | c :: l' => snd c = st /\ recorded r c /\ linked r (after r c) l' final
  end.

(** A request context into which no [Sessions] middleware put a session:
    no link of the chain binds [sessionKey]. *)
Fixpoint unpopulated (ctx : Context) : Prop :=
  match ctx with
  | Background => True
  | WithValue parent key _ => key ≠ sessionKey ∧ unpopulated parent
  end.

(** The request the handler and the Before hook see. *)
Definition with_session (r : Request) (a : addr) : Request :=
  WithContext r (WithValue (req_ctx r) sessionKey (PtrSession a)).

(** [delete(m, k)] on a map, and what a loop of it over the keys of the
    map leaves: the entries whose key is not equal to itself. *)
Definition drop (k : key) (m : values) : values :=
  match m with
  | nil_map => nil_map
  | make_map l => make_map (map_drop k l)
  end.

Definition cleared (m : values) : values :=
  match m with
  | nil_map => nil_map
  | make_map l =>
      make_map (List.filter (fun e => negb (key_eqb (fst e) (fst e))) l)
  end.

(** ** The [Session] interface, read as functions on the session

    Its doc comments say what each method does to the session and what it
    returns; [apply] says the same on the session alone: how the call
    ends and the session it leaves. *)
Definition apply `{sessions.Flash} (o : sessions.op) (g : gorilla.Session)
  : outcome sessions.result * gorilla.Session :=
  match o with
  | sessions.OGet key =>
      (outcome_map sessions.RValue (map_index (gorilla.Values g) key), g)
  | sessions.OSet key val =>
      match map_assign (gorilla.Values g) key val with
      | Returned m => (Returned sessions.RNone, gorilla.set_Values m g)
      | Panicked => (Panicked, g)
      end
  | sessions.ODelete key =>
      match map_delete (gorilla.Values g) key with
      | Returned m => (Returned sessions.RNone, gorilla.set_Values m g)
      | Panicked => (Panicked, g)
      end
  | sessions.OClear =>
      (Returned sessions.RNone,
       gorilla.set_Values (cleared (gorilla.Values g)) g)
  | sessions.OAddFlash value vars =>
      (outcome_map (fun _ => sessions.RNone)
         (fst (sessions.gAddFlash value vars g)),
       snd (sessions.gAddFlash value vars g))
  | sessions.OFlashes vars =>
      (outcome_map sessions.RFlashes (fst (sessions.gFlashes vars g)),
       snd (sessions.gFlashes vars g))
  | sessions.OOptions options =>
      (Returned sessions.RNone,
       gorilla.set_Options (sessions.to_gorilla options) g)
  end.

(** For the stores.  The cookie of a request names a stored session: it
    is present, decodes to an id, the id is an object-id hex, the document
    of that id is found and its data decodes. *)
Definition cookie_loads `{Codec} `{Backend} (codecs : Codecs)
    (database collection : string) (r : Request) (name : string)
    (w : dbworld) : Prop :=
  exists cook id doc vals,
    sessions.GetToken r name = inr cook
    /\ DecodeMulti_string name cook "" codecs = (None, id)
    /\ IsObjectIdHex id = true
    /\ FindId database collection (ObjectIdHex id) (db w) = inr doc
    /\ DecodeMulti_values name (Data doc) ∅ codecs = (None, vals).

(** The cookie is present and decoding it fails with [e]. *)
Definition cookie_decode_fails `{Codec} (codecs : Codecs) (r : Request)
    (name : string) (e : error) : Prop :=
  exists cook,
    sessions.GetToken r name = inr cook
    /\ fst (DecodeMulti_string name cook "" codecs) = Some e.

(** The id under which [Save] stores a session: its own, or a new one
    when it has none. *)
Definition saved_id `{Backend} (session : gorilla.Session) (w : dbworld)
  : string :=
  if decide (gorilla.ID session = "") then Hex (NewObjectId (counter w))
  else gorilla.ID session.

(** The [Modified] field [save] gives the document. *)
Definition modified_of `{Backend} (session : gorilla.Session) (w : dbworld)
  : error + Z :=
  match gorilla.Values session !! KStr "modified" with
  | Some (Time t) => inr t
  | Some _ => inl ErrInvalidModified
  | None => inr (clock w)
  end.

(** The first step of [Save] on a session that is kept: a session without
    id gets a new one. *)
Definition assign_id `{Backend} (session : gorilla.Session)
  : M dbworld gorilla.Session :=
  if decide (gorilla.ID session = "") then
    (id <- new_object_id ;; ret (gorilla.set_ID (Hex id) session))%go
  else ret session.

Definition is_upsert (a : access) : bool :=
  match a with
  | Upsert _ _ _ _ => true
  | _ => false
  end.

(** The access [New] makes to the database: one look-up, once the cookie
    has decoded to an object-id hex. *)
Definition New_access `{Codec} `{Backend} (codecs : Codecs) (database collection : string)
    (r : Request) (name : string) : list access :=
  match sessions.GetToken r name with
  | inr cook =>
      match DecodeMulti_string name cook "" codecs with
      | (None, id) =>
          if IsObjectIdHex id
          then [Find database collection (ObjectIdHex id)] else []
      | (Some _, _) => []
      end
  | inl _ => []
  end.

(** The time [save] stamps a document with: the session's own
    ["modified"] value when it is a time, else the clock. *)
Definition stamp `{Backend} (session : gorilla.Session) (w : dbworld) : Z :=
  match gorilla.Values session !! KStr "modified" with
  | Some (Time t) => t
  | _ => clock w
  end.

(** What [Save] may ask of the database: a removal for an expired
    session, an upsert for one that is kept, never a look-up. *)
Definition Save_may (expired : bool) (a : access) : Prop :=
  match a with
  | Find _ _ _ => False
  | Remove _ _ _ => expired = true
  | Upsert _ _ _ _ => expired = false
  end.

(** * Properties *)

Import sessions.

Import sessions.

(** ** Keys and maps *)

Lemma float_eqb_sym x y : float_eqb x y = float_eqb y x.
Proof.
  unfold float_eqb. rewrite (Z.eqb_sym (u64 x)).
  destruct (isNaN x), (isNaN y), (isZero x), (isZero y); cbn;
    rewrite ?orb_true_r, ?orb_false_r; reflexivity.
Qed.

Lemma float_eqb_trans x y z :
  float_eqb x y = true -> float_eqb y z = float_eqb x z.
Proof.
  unfold float_eqb, isNaN, isZero.
  destruct (Z.eqb_spec (u64 x) (u64 y)) as [->|Hne]; [reflexivity|].
  cbn [orb]. intros H.
  apply andb_prop in H as [H Hz]. apply andb_prop in H as [Hx Hy].
  apply andb_prop in Hz as [Hzx Hzy].
  rewrite Hx, Hy, Hzx, Hzy. cbn [andb].
  destruct (Z.eqb_spec (u64 y) (u64 z)) as [Hyz|Hyz];
    destruct (Z.eqb_spec (u64 x) (u64 z)) as [Hxz|Hxz]; try reflexivity.
  - rewrite <- Hyz, Hzy. reflexivity.
  - rewrite <- Hxz, Hzx. reflexivity.
Qed.


Lemma key_eqb_sym a b : key_eqb a b = key_eqb b a.
Proof.
  destruct a, b; cbn; try reflexivity.
  - apply String.eqb_sym.
  - apply Z.eqb_sym.
  - now destruct b, b0.
  - apply float_eqb_sym.
  - apply Z.eqb_sym.
Qed.

Lemma key_eqb_trans a b c :
  key_eqb a b = true -> key_eqb b c = key_eqb a c.
Proof.
  destruct a, b; cbn; try discriminate; intros H.
  - reflexivity.
  - apply String.eqb_eq in H. now subst.
  - apply Z.eqb_eq in H. now subst.
  - apply Bool.eqb_prop in H. now subst.
  - destruct c; try reflexivity. cbn. now apply float_eqb_trans.
  - apply Z.eqb_eq in H. now subst.
Qed.


(** A key that is not equal to itself is equal to no key. *)
Lemma key_eqb_irrefl a b : key_eqb a a = false -> key_eqb a b = false.
Proof.
  intros Ha. destruct (key_eqb a b) eqn:Hab; [|reflexivity].
  pose proof (key_eqb_trans a b a Hab) as Ht.
  rewrite (key_eqb_sym b a), Hab in Ht. congruence.
Qed.

Lemma hash_of_key k : hash (of_key k) = Some k.
Proof. now destruct k. Qed.

Lemma assoc_put_eq k v l : key_eqb k k = true -> assoc k (map_put k v l) = Some v.
Proof.
  intros Hk. induction l as [|[k' v'] l IH]; cbn.
  - now rewrite Hk.
  - destruct (key_eqb k' k) eqn:He; cbn; now rewrite He.
Qed.

Lemma assoc_put_irrefl k v l :
  key_eqb k k = false -> assoc k (map_put k v l) = None.
Proof.
  intros Hk.
  assert (Hall : forall k', key_eqb k' k = false).
  { intros k'. rewrite key_eqb_sym. now apply key_eqb_irrefl. }
  induction l as [|[k' v'] l IH]; cbn.
  - now rewrite Hk.
  - rewrite Hall. cbn. now rewrite Hall.
Qed.

Lemma assoc_put_ne k k' v l :
  key_eqb k k' = false -> assoc k' (map_put k v l) = assoc k' l.
Proof.
  intros Hne. induction l as [|[k1 v1] l IH]; cbn.
  - now rewrite Hne.
  - destruct (key_eqb k1 k) eqn:He; cbn.
    + rewrite <- (key_eqb_trans k1 k k' He), Hne. reflexivity.
    + now rewrite IH.
Qed.

Lemma assoc_drop_eq k l : assoc k (map_drop k l) = None.
Proof.
  induction l as [|[k' v'] l IH]; cbn; [reflexivity|].
  destruct (key_eqb k' k) eqn:He; cbn; [exact IH|]. now rewrite He.
Qed.

Lemma assoc_drop_ne k k' l :
  key_eqb k k' = false -> assoc k' (map_drop k l) = assoc k' l.
Proof.
  intros Hne. induction l as [|[k1 v1] l IH]; cbn; [reflexivity|].
  destruct (key_eqb k1 k) eqn:He; cbn.
  - rewrite <- (key_eqb_trans k1 k k' He), Hne. exact IH.
  - destruct (key_eqb k1 k'); [reflexivity|exact IH].
Qed.

(** A loop of [delete] over some keys keeps the entries equal to none of
    them; over the keys of the map itself, those not equal to
    themselves. *)
Lemma foldl_map_drop ks : forall l,
  foldl (fun l k => map_drop k l) l ks =
    List.filter (fun e => forallb (fun k => negb (key_eqb (fst e) k)) ks) l.
Proof.
  induction ks as [|k ks IH]; intros l; cbn.
  - induction l as [|e l IHl]; cbn; congruence.
  - rewrite IH. unfold map_drop. clear IH.
    induction l as [|e l IHl]; cbn; [reflexivity|].
    destruct (key_eqb (fst e) k); cbn; [exact IHl|].
    destruct (forallb _ ks); cbn; congruence.
Qed.

Lemma foldl_drop_keys l :
  foldl (fun l k => map_drop k l) l (map fst l) =
    List.filter (fun e => negb (key_eqb (fst e) (fst e))) l.
Proof.
  rewrite foldl_map_drop. apply List.filter_ext_in. intros e Hin.
  destruct (key_eqb (fst e) (fst e)) eqn:He; cbn.
  - apply not_true_is_false. intros Hall.
    rewrite forallb_forall in Hall.
    specialize (Hall (fst e) (List.in_map fst l e Hin)).
    rewrite He in Hall. discriminate.
  - apply forallb_forall. intros k _.
    now rewrite (key_eqb_irrefl _ k He).
Qed.


(** ** [s.Session()] and the methods built on it *)

Section SessionFacts.
Context {W : Type}.
Implicit Types (st : state W) (g : gorilla.Session).

Lemma Session_cached st g :
  s_session (self st) = Some g -> session_Session st = (Some g, st).
Proof.
  intros Hg. unfold session_Session, bind, gets, ret. cbn. now rewrite Hg.
Qed.

(** With nothing cached: one call of [Get], whose result is stored. *)
Lemma Session_first st :
  s_session (self st) = None ->
  let res := Get (s_store (self st)) (s_request (self st))
                 (s_name (self st)) (world st) in
  session_Session st =
    (fst (fst res),
     mk_state (mk_session (s_name (self st)) (s_request (self st))
                 (s_store (self st)) (fst (fst res))
                 (s_written (self st)))
              (snd res)
              (events st
                 ++ CallGet (s_request (self st)) (s_name (self st))
                 :: printed (snd (fst res)))).
Proof.
  intros Hg. unfold session_Session, bind, gets, ret. cbn. rewrite Hg.
  unfold in_world, emit, assign_session, check, emit, modify, ret. cbn.
  destruct (Get _ _ _ _) as [[g [e|]] w']; cbn.
  - now rewrite <- app_assoc.
  - reflexivity.
Qed.

Lemma Get_calls_app evs evs' :
  Get_calls (evs ++ evs') = (Get_calls evs + Get_calls evs')%nat.
Proof.
  induction evs as [|[]]; cbn; auto.
Qed.

Lemma Save_calls_app evs evs' :
  Save_calls (evs ++ evs') = (Save_calls evs + Save_calls evs')%nat.
Proof.
  induction evs as [|[]]; cbn; auto.
Qed.

Lemma Get_calls_printed err : Get_calls (printed err) = 0%nat.
Proof. now destruct err. Qed.

Lemma Save_calls_printed err : Save_calls (printed err) = 0%nat.
Proof. now destruct err. Qed.

(** *** What [s.Session()] does to the state *)

Ltac by_Session st :=
  unfold load, cur, fetch;
  let Hg := fresh "Hg" in
  let g := fresh "g" in
  destruct (s_session (self st)) as [g|] eqn:Hg;
  [rewrite (Session_cached st g Hg) | rewrite (Session_first st Hg)];
  cbn [fst snd self world events s_session s_written s_name s_request
       s_store];
  rewrite ?Hg.

Lemma load_session st : s_session (self (load st)) = cur st.
Proof. by_Session st; reflexivity. Qed.

Lemma load_written st : s_written (self (load st)) = s_written (self st).
Proof. by_Session st; reflexivity. Qed.

Lemma load_cached st g : s_session (self st) = Some g -> load st = st.
Proof. intros Hg. unfold load. now rewrite (Session_cached st g Hg). Qed.

Lemma cur_cached st g : s_session (self st) = Some g -> cur st = Some g.
Proof. intros Hg. unfold cur. now rewrite (Session_cached st g Hg). Qed.

Lemma cur_none st : cur st = None -> s_session (self st) = None.
Proof.
  intros Hc. destruct (s_session (self st)) as [g|] eqn:Hg; [|reflexivity].
  rewrite (cur_cached st g Hg) in Hc. discriminate.
Qed.

Lemma load_events st : events (load st) = events st ++ fetch st.
Proof. by_Session st; [now rewrite app_nil_r|reflexivity]. Qed.

Lemma load_config st :
  s_name (self (load st)) = s_name (self st)
  /\ s_request (self (load st)) = s_request (self st)
  /\ s_store (self (load st)) = s_store (self st).
Proof. by_Session st; auto. Qed.

Lemma fetch_Get_calls st :
  Get_calls (fetch st) =
    match s_session (self st) with
    | Some _ => 0%nat
    | None => 1%nat
    end.
Proof.
  unfold fetch. destruct (s_session (self st)); [reflexivity|].
  cbn. now rewrite Get_calls_printed.
Qed.

Lemma fetch_Save_calls st : Save_calls (fetch st) = 0%nat.
Proof.
  unfold fetch. destruct (s_session (self st)); [reflexivity|].
  cbn. now rewrite Save_calls_printed.
Qed.

(** [s.Session()] does not look at the flag. *)
Lemma Session_updated st b :
  session_Session (updated st (s_session (self st)) b) =
    (cur st, updated (load st) (cur st) b).
Proof.
  unfold updated. by_Session st.
  - erewrite Session_cached by reflexivity. reflexivity.
  - rewrite Session_first by reflexivity. reflexivity.
Qed.

Lemma updated_updated st a b a' b' :
  updated (updated st a b) a' b' = updated st a' b'.
Proof. reflexivity. Qed.

End SessionFacts.

Section MethodFacts.
Context {W : Type} {flash : Flash}.
Implicit Types (st : state W) (g : gorilla.Session).

(** *** The methods, as updates of the loaded state *)

Lemma Get_eq key st :
  session_Get key st =
    (match cur st with
     | Some g => map_index (gorilla.Values g) key
     | None => Panicked
     end, load st).
Proof.
  unfold session_Get, bind, ret, cur, load.
  now destruct (session_Session st) as [[g|] st1].
Qed.

Lemma Set_eq key val st :
  session_Set key val st =
    match cur st with
    | Some g =>
        match map_assign (gorilla.Values g) key val with
        | Returned m =>
            (Returned tt,
             updated (load st) (Some (gorilla.set_Values m g)) true)
        | Panicked => (Panicked, load st)
        end
    | None => (Panicked, load st)
    end.
Proof.
  unfold session_Set, bind, ret, cur, load.
  destruct (session_Session st) as [[g|] st1]; cbn [fst snd];
    [|reflexivity].
  now destruct (map_assign _ _ _).
Qed.

Lemma Delete_eq key st :
  session_Delete key st =
    match cur st with
    | Some g =>
        match map_delete (gorilla.Values g) key with
        | Returned m =>
            (Returned tt,
             updated (load st) (Some (gorilla.set_Values m g)) true)
        | Panicked => (Panicked, load st)
        end
    | None => (Panicked, load st)
    end.
Proof.
  unfold session_Delete, bind, ret, cur, load.
  destruct (session_Session st) as [[g|] st1]; cbn [fst snd];
    [|reflexivity].
  now destruct (map_delete _ _).
Qed.

Lemma AddFlash_eq value vars st :
  session_AddFlash value vars st =
    match cur st with
    | Some g =>
        match fst (gAddFlash value vars g) with
        | Returned _ =>
            (Returned tt,
             updated (load st) (Some (snd (gAddFlash value vars g))) true)
        | Panicked =>
            (Panicked,
             updated (load st) (Some (snd (gAddFlash value vars g)))
                     (s_written (self st)))
        end
    | None => (Panicked, load st)
    end.
Proof.
  rewrite <- load_written.
  unfold session_AddFlash, bind, ret, cur, load.
  destruct (session_Session st) as [[g|] st1]; cbn [fst snd];
    [|reflexivity].
  now destruct (fst (gAddFlash _ _ _)).
Qed.

Lemma Options_eq options st :
  session_Options options st =
    match cur st with
    | Some g =>
        (Returned tt,
         updated (load st)
           (Some (gorilla.set_Options (to_gorilla options) g))
           (s_written (self st)))
    | None => (Panicked, load st)
    end.
Proof.
  rewrite <- load_written.
  unfold session_Options, bind, ret, cur, load.
  now destruct (session_Session st) as [[g|] st1].
Qed.

Lemma Flashes_eq vars st :
  session_Flashes vars st =
    match cur st with
    | Some g =>
        (fst (gFlashes vars g),
         updated (load st) (Some (snd (gFlashes vars g))) true)
    | None => (Panicked, updated (load st) None true)
    end.
Proof.
  unfold session_Flashes, bind, mark_written, modify.
  change (mk_state _ (world st) (events st))
    with (updated st (s_session (self st)) true).
  rewrite Session_updated. now destruct (cur st).
Qed.

(** *** [Clear]: a loop of [Delete] over the keys *)

Lemma Delete_of_key k st g :
  s_session (self st) = Some g ->
  session_Delete (of_key k) st =
    (Returned tt,
     updated st (Some (gorilla.set_Values (drop k (gorilla.Values g)) g))
             true).
Proof.
  intros Hg. rewrite Delete_eq, (cur_cached st g Hg), (load_cached st g Hg).
  unfold map_delete. rewrite hash_of_key.
  now destruct (gorilla.Values g).
Qed.

Lemma for_range_Delete ks : forall st g,
  s_session (self st) = Some g ->
  for_range (map of_key ks) session_Delete st =
    (Returned tt,
     match ks with
     | [] => st
     | _ :: _ =>
         updated st
           (Some (gorilla.set_Values
                    (foldl (fun m k => drop k m) (gorilla.Values g) ks) g))
           true
     end).
Proof.
  induction ks as [|k ks IH]; intros st g Hg; [reflexivity|].
  cbn [for_range map]. unfold bind. rewrite (Delete_of_key k st g Hg).
  erewrite IH by reflexivity.
  destruct ks; reflexivity.
Qed.

Lemma foldl_drop l : forall ks,
  foldl (fun m k => drop k m) (make_map l) ks =
    make_map (foldl (fun l k => map_drop k l) l ks).
Proof.
  intros ks. revert l. induction ks as [|k ks IH]; intros l; cbn; auto.
Qed.

Lemma keys_of_key m : keys m = map of_key (map fst (entries m)).
Proof. unfold keys. now rewrite map_map. Qed.

Lemma Clear_eq st :
  session_Clear st =
    match cur st with
    | Some g =>
        (Returned tt,
         match entries (gorilla.Values g) with
         | [] => load st
         | _ :: _ =>
             updated (load st)
               (Some (gorilla.set_Values (cleared (gorilla.Values g)) g))
               true
         end)
    | None => (Panicked, load st)
    end.
Proof.
  unfold session_Clear, bind.
  pose proof (load_session st) as Hl. unfold cur, load in *.
  destruct (session_Session st) as [[g|] st1]; cbn [fst snd] in *;
    [|reflexivity].
  rewrite keys_of_key, (for_range_Delete _ st1 g Hl).
  destruct (gorilla.Values g) as [|l] eqn:Hv; cbn [entries]; [reflexivity|].
  destruct l as [|e l]; [reflexivity|].
  cbn [map]. unfold cleared.
  now rewrite foldl_drop, <- (foldl_drop_keys (e :: l)).
Qed.

(** *** One call of a handler *)

Ltac by_method o :=
  destruct o; cbn [call]; unfold bind, ret;
  rewrite ?Get_eq, ?Set_eq, ?Delete_eq, ?Clear_eq, ?AddFlash_eq,
          ?Flashes_eq, ?Options_eq.

Ltac by_cases :=
  repeat match goal with
  | |- context [match cur ?st with _ => _ end] =>
      let Hc := fresh "Hc" in destruct (cur st) eqn:Hc
  | |- context [match map_assign ?m ?k ?v with _ => _ end] =>
      let Ha := fresh "Ha" in destruct (map_assign m k v) eqn:Ha
  | |- context [match map_delete ?m ?k with _ => _ end] =>
      let Ha := fresh "Ha" in destruct (map_delete m k) eqn:Ha
  | |- context [match fst (gAddFlash ?a ?b ?c) with _ => _ end] =>
      let Ha := fresh "Ha" in destruct (fst (gAddFlash a b c)) eqn:Ha
  | |- context [match entries ?m with _ => _ end] =>
      let Ha := fresh "Ha" in destruct (entries m) eqn:Ha
  end; cbn [fst snd outcome_map].

(** A call goes through [s.Session()] and then only assigns [s.session]
    and [s.written]; it never sets [s.session] back to nil. *)
Lemma call_frame o st :
  events (snd (call o st)) = events (load st)
  /\ world (snd (call o st)) = world (load st)
  /\ s_name (self (snd (call o st))) = s_name (self st)
  /\ s_request (self (snd (call o st))) = s_request (self st)
  /\ s_store (self (snd (call o st))) = s_store (self st)
  /\ (s_session (self (snd (call o st))) = None <-> cur st = None).
Proof.
  destruct (load_config st) as (Hn & Hr & Hs).
  pose proof (load_session st) as Hl.
  by_method o; by_cases; cbn; rewrite ?Hn, ?Hr, ?Hs, ?Hl;
    repeat split; auto; congruence.
Qed.

Lemma call_written o st :
  s_written (self (snd (call o st))) = true
  <-> s_written (self st) = true \/ marks (Called o (fst (call o st)), st).
Proof.
  unfold marks. cbn [fst snd].
  by_method o; by_cases; cbn; rewrite ?load_written;
    try tauto; try (intuition congruence).
  - split; [intros H; now left|]. intros [H|(g0 & [= <-] & Hne)]; [exact H|].
    congruence.
  - split; [intros _; right|reflexivity].
    eexists. split; [reflexivity|]. congruence.
  - split; [intros H; now left|]. intros [H|(g0 & Hg0 & _)]; [exact H|].
    discriminate.
Qed.

Lemma call_events o st : events (snd (call o st)) = events st ++ fetch st.
Proof.
  destruct (call_frame o st) as (-> & _). apply load_events.
Qed.



End MethodFacts.

(** ** The Before hook and the steps of a request *)

Section StepFacts.
Context {W : Type} {flash : Flash}.
Implicit Types (st : state W) (g : gorilla.Session) (c : step * state W).

Lemma beforeHook_unwritten r st :
  s_written (self st) = false -> beforeHook r st = (Returned tt, st).
Proof.
  intros Hw. unfold beforeHook, bind, session_Written, gets. now rewrite Hw.
Qed.

Lemma beforeHook_written r st :
  s_written (self st) = true ->
  beforeHook r st =
    match cur st with
    | Some g =>
        let res := Save (s_store (self st)) r g (world (load st)) in
        (Returned tt,
         mk_state (mk_session (s_name (self st)) (s_request (self st))
                     (s_store (self st)) (Some (snd (fst res))) true)
                  (snd res)
                  (events (load st) ++ CallSave r g :: printed (fst (fst res))))
    | None => (Panicked, load st)
    end.
Proof.
  intros Hw. unfold beforeHook, bind, session_Written, gets. rewrite Hw.
  destruct (load_config st) as (Hn & Hr & Hs).
  pose proof (load_written st) as Hlw. rewrite Hw in Hlw.
  unfold cur, load in *.
  destruct (session_Session st) as [[g|] st1]; cbn [fst snd] in *;
    [|reflexivity].
  unfold emit, in_world, assign_session, check, emit, modify, ret. cbn.
  rewrite <- Hs, <- Hn, <- Hr.
  destruct (Save _ _ _ _) as [[[e|] g'] w']; cbn; rewrite ?Hlw.
  - now rewrite <- app_assoc.
  - reflexivity.
Qed.

Lemma beforeHook_written_flag r st :
  s_written (self (snd (beforeHook r st))) = s_written (self st).
Proof.
  destruct (s_written (self st)) eqn:Hw.
  2: { now rewrite beforeHook_unwritten. }
  rewrite beforeHook_written by exact Hw.
  destruct (cur st); cbn; [reflexivity|]. now rewrite load_written.
Qed.

(** *** One step *)

Lemma step_events r c : events (after r c) = events (snd c) ++ trail r c.
Proof.
  destruct c as [[o res|res] st]; unfold after, trail; cbn [fst snd].
  - apply call_events.
  - destruct (s_written (self st)) eqn:Hw.
    + rewrite beforeHook_written by exact Hw.
      destruct (cur st); cbn; rewrite load_events.
      * now rewrite <- app_assoc.
      * now rewrite app_nil_r.
    + rewrite beforeHook_unwritten by exact Hw. cbn. now rewrite app_nil_r.
Qed.

Lemma step_written r c :
  recorded r c ->
  (s_written (self (after r c)) = true
   <-> s_written (self (snd c)) = true \/ marks c).
Proof.
  destruct c as [[o res|res] st]; unfold after, recorded; cbn [fst snd].
  - intros ->. apply call_written.
  - intros _. rewrite beforeHook_written_flag. unfold marks. cbn. tauto.
Qed.

Lemma step_config r c :
  s_name (self (after r c)) = s_name (self (snd c))
  /\ s_request (self (after r c)) = s_request (self (snd c))
  /\ s_store (self (after r c)) = s_store (self (snd c)).
Proof.
  destruct c as [[o res|res] st]; unfold after; cbn [fst snd].
  - destruct (call_frame o st) as (_ & _ & -> & -> & -> & _). auto.
  - destruct (s_written (self st)) eqn:Hw.
    + rewrite beforeHook_written by exact Hw.
      destruct (cur st); cbn; [auto|apply load_config].
    + rewrite beforeHook_unwritten by exact Hw. auto.
Qed.






(** *** A whole request *)

Lemma run_Call hook o k st :
  run hook (Call o k) st =
    ((Called o (fst (call o st)), st)
       :: fst (run hook (k (fst (call o st))) (snd (call o st))),
     snd (run hook (k (fst (call o st))) (snd (call o st)))).
Proof.
  unfold run. cbn [run_chain]. unfold bind, gets, ret.
  destruct (call o st) as [res st1]. cbn [fst snd].
  now destruct (run_chain call hook (k res) st1).
Qed.

Lemma run_Write hook k st :
  run hook (Write k) st =
    ((Wrote (fst (hook st)), st)
       :: fst (run hook (k (fst (hook st))) (snd (hook st))),
     snd (run hook (k (fst (hook st))) (snd (hook st)))).
Proof.
  unfold run. cbn [run_chain]. unfold bind, gets, ret.
  destruct (hook st) as [res st1]. cbn [fst snd].
  now destruct (run_chain call hook (k res) st1).
Qed.

Lemma run_linked r h : forall st,
  linked r st (fst (run (beforeHook r) h st)) (snd (run (beforeHook r) h st)).
Proof.
  induction h as [|o k IH|k IH]; intros st.
  - reflexivity.
  - rewrite run_Call. cbn. split; [reflexivity|]. split; [reflexivity|].
    apply IH.
  - rewrite run_Write. cbn. split; [reflexivity|]. split; [reflexivity|].
    apply IH.
Qed.

Lemma linked_events r l : forall st fin,
  linked r st l fin -> events fin = events st ++ flat_map (trail r) l.
Proof.
  induction l as [|c l IH]; intros st fin; cbn.
  - intros ->. now rewrite app_nil_r.
  - intros (<- & _ & Hl). rewrite (IH _ _ Hl), step_events.
    now rewrite <- app_assoc.
Qed.




Lemma linked_written r l : forall st fin,
  linked r st l fin ->
  (s_written (self fin) = true
   <-> s_written (self st) = true \/ Exists marks l).
Proof.
  induction l as [|c l IH]; intros st fin; cbn.
  - intros ->. rewrite Exists_nil. tauto.
  - intros (<- & Hrec & Hl). rewrite (IH _ _ Hl), Exists_cons.
    rewrite (step_written r c Hrec). tauto.
Qed.

Lemma linked_config r l : forall st fin,
  linked r st l fin ->
  Forall (fun c => s_name (self (snd c)) = s_name (self st)
                   /\ s_request (self (snd c)) = s_request (self st)
                   /\ s_store (self (snd c)) = s_store (self st)) l
  /\ s_name (self fin) = s_name (self st)
  /\ s_request (self fin) = s_request (self st)
  /\ s_store (self fin) = s_store (self st).
Proof.
  induction l as [|c l IH]; intros st fin; cbn.
  - intros ->. auto.
  - intros (<- & _ & Hl). destruct (IH _ _ Hl) as (Hall & Hn & Hr & Hs).
    destruct (step_config r c) as (En & Er & Es).
    rewrite En, Er, Es in *. split; [|auto].
    constructor; [auto|exact Hall].
Qed.




Lemma cur_first st :
  s_session (self st) = None ->
  cur st = fst (fst (Get (s_store (self st)) (s_request (self st))
                         (s_name (self st)) (world st))).
Proof. intros Hn. unfold cur. now rewrite (Session_first st Hn). Qed.


End StepFacts.

(** ** The session as a key/value bag, and its written flag *)

Section SessionClaims.
Context {W : Type} {flash : Flash}.
Implicit Types (st : state W) (store : Store W).

Lemma index_put_eq k v l :
  key_eqb k k = true -> index (make_map (map_put k v l)) k = v.
Proof.
  intros Hk. unfold index, lookup, values_lookup. cbn [entries].
  now rewrite assoc_put_eq.
Qed.

Lemma index_put_irrefl k v l :
  key_eqb k k = false -> index (make_map (map_put k v l)) k = Nil.
Proof.
  intros Hk. unfold index, lookup, values_lookup. cbn [entries].
  now rewrite assoc_put_irrefl.
Qed.

Lemma index_drop_eq k m : index (drop k m) k = Nil.
Proof.
  unfold index, lookup, values_lookup. destruct m; cbn; [reflexivity|].
  now rewrite assoc_drop_eq.
Qed.



Lemma map_assign_returned m key val m' :
  map_assign m key val = Returned m' <->
  exists k l, hash key = Some k /\ m = make_map l
              /\ m' = make_map (map_put k val l).
Proof.
  unfold map_assign. split.
  - destruct (hash key) as [k|]; [|discriminate].
    destruct m as [|l]; [discriminate|]. intros [= <-]. eauto.
  - intros (k & l & -> & -> & ->). reflexivity.
Qed.

Lemma map_delete_returned m key m' :
  map_delete m key = Returned m' <->
  exists k, hash key = Some k /\ m' = drop k m.
Proof.
  unfold map_delete, drop. split.
  - destruct (hash key) as [k|]; [|destruct m; discriminate].
    destruct m; intros [= <-]; eauto.
  - intros (k & -> & ->). now destruct m.
Qed.




(** [Get] in a state whose session is cached. *)
Lemma Get_cached key st g :
  s_session (self st) = Some g ->
  fst (session_Get key st) = map_index (gorilla.Values g) key.
Proof. intros Hg. now rewrite Get_eq, (cur_cached st g Hg). Qed.



(** C10, as implemented.  [Written()] is false when the request begins.
    A call of [Flashes] (a read that still marks the session, before it
    does anything else), a call of [Set], [Delete] or [AddFlash] that
    returns, and a call of [Clear] on a session that holds at least one
    value make it true; no other call does, in particular no call of
    [Set], [Delete] or [AddFlash] that panics; and once true it stays
    true through every later call, through the rest of the request and
    through the Before hook. *)
Theorem C10_written_flag :
  (forall name store r w,
      s_written (self (initial name store r w)) = false)
  /\ (forall o st,
      marks (Called o (fst (call o st)), st) ->
      s_written (self (snd (call o st))) = true)
  /\ (forall o st,
      s_written (self (snd (call o st))) = true ->
      s_written (self st) = true \/ marks (Called o (fst (call o st)), st))
  /\ (forall o st,
      s_written (self st) = true ->
      s_written (self (snd (call o st))) = true)
  /\ (forall r h st,
      s_written (self st) = true ->
      s_written (self (snd (run (beforeHook r) h st))) = true)
  /\ (forall r st,
      s_written (self (snd (beforeHook r st))) = s_written (self st)).
Proof.
  split; [reflexivity|].
  split; [intros o st Hm; apply call_written; auto|].
  split; [intros o st Hw; now apply call_written|].
  split; [intros o st Hw; apply call_written; auto|].
  split.
  - intros r h st Hw. apply (linked_written r _ _ _ (run_linked r h st)).
    auto.
  - intros r st. apply beforeHook_written_flag.
Qed.

End SessionClaims.

(** C9.  On a request whose context no [Sessions] middleware populated,
    [GetSession] returns nil (it does not panic: the function is total and
    the type assertion is the comma-ok form). *)
Theorem C9_GetSession_unpopulated (req : Request) :
  unpopulated (req_ctx req) -> GetSession req = None.
Proof.
  unfold GetSession. destruct req as [cookies ctx]. cbn.
  induction ctx as [|parent IH key val]; cbn; [reflexivity|].
  intros [Hkey Hparent]. rewrite decide_False by exact Hkey. auto.
Qed.

Lemma C9_witness :
  let req := {| req_cookies := [("my_session", "MTQ")];
                req_ctx := WithValue Background (foreignKey "user")
                                     (Foreign (Str "alice")) |} in
  unpopulated (req_ctx req) /\ GetSession req = None.
Proof.
  cbn zeta.
  assert (H : unpopulated (WithValue Background (foreignKey "user")
                                     (Foreign (Str "alice")))).
  { cbn. split; [discriminate|exact I]. }
  split; [exact H|].
  apply (C9_GetSession_unpopulated
           {| req_cookies := [("my_session", "MTQ")];
              req_ctx := WithValue Background (foreignKey "user")
                                   (Foreign (Str "alice")) |}).
  exact H.
Defined.

(** After the middleware has run, the handler gets the session back. *)
Lemma GetSession_with_session r a : GetSession (with_session r a) = Some a.
Proof. reflexivity. Qed.

(** ** The middleware: lazy loading and saving *)

Section MiddlewareClaims.
Context {W : Type} {flash : Flash}.
Implicit Types (st : state W) (store : Store W).

Lemma Sessions_linked name store a r next w :
  linked (with_session r a) (initial name store r w)
         (fst (Sessions name store a r next w))
         (snd (Sessions name store a r next w)).
Proof. apply run_linked. Qed.

Lemma Sessions_events name store a r next w :
  events (snd (Sessions name store a r next w)) =
    flat_map (trail (with_session r a)) (fst (Sessions name store a r next w)).
Proof.
  now rewrite (linked_events _ _ _ _ (Sessions_linked name store a r next w)).
Qed.




End MiddlewareClaims.




(** [Clear] as the first call on a session that holds no value. *)
Lemma C10_counterexample :
  let st := initial "my_session" sample.store sample.request [] in
  ~ (mutator OClear = true -> s_written (self (snd (call OClear st))) = true).
Proof.
  cbn zeta. intros H. specialize (H eq_refl). vm_compute in H. discriminate.
Qed.

(** [AddFlash] on a session whose flashes are no slice panics and leaves
    the flag unset. *)
Example AddFlash_panics_unmarked :
  let g := gorilla.set_Values (make_map [(KStr "_flash", Str "x")])
             (gorilla.NewSession "my_session") in
  let st := updated (initial "my_session" sample.store sample.request [])
                    (Some g) false in
  fst (call (OAddFlash (Str "hello") []) st) = Panicked
  /\ s_written (self (snd (call (OAddFlash (Str "hello") []) st))) = false.
Proof. vm_compute. auto. Qed.

(** ** The database-backed stores *)

Section MongoClaims.
Context {cdc : Codec} {bck : Backend}.
Import mongostore.
Implicit Types (m : mongoStore) (session : gorilla.Session) (w : dbworld).

(** *** The guard on the session id *)

Lemma load_invalid m session w :
  IsObjectIdHex (gorilla.ID session) = false ->
  mongoStore_load m session w = (false, Some ErrInvalidId, session, w).
Proof. intros Hid. unfold mongoStore_load. now rewrite Hid. Qed.

Lemma save_invalid m session w :
  IsObjectIdHex (gorilla.ID session) = false ->
  mongoStore_save m session w = (Some ErrInvalidId, w).
Proof. intros Hid. unfold mongoStore_save. now rewrite Hid. Qed.

Lemma delete_invalid m session w :
  IsObjectIdHex (gorilla.ID session) = false ->
  mongoStore_delete m session w = (Some ErrInvalidId, w).
Proof. intros Hid. unfold mongoStore_delete. now rewrite Hid. Qed.

(** C7.  With a session id that is not an object-id hex, [load], [save]
    and [delete] return [ErrInvalidId] at once: the world, and so the
    database and the list of accesses to it, is the one they started in,
    and [load] hands the session back as it got it. *)
Theorem C7_invalid_id m session w :
  IsObjectIdHex (gorilla.ID session) = false ->
  mongoStore_load m session w = (false, Some ErrInvalidId, session, w)
  /\ mongoStore_save m session w = (Some ErrInvalidId, w)
  /\ mongoStore_delete m session w = (Some ErrInvalidId, w).
Proof.
  intros Hid.
  split; [|split];
    [apply load_invalid|apply save_invalid|apply delete_invalid]; exact Hid.
Qed.

(** *** [delete] and [save], step by step *)

Lemma delete_valid m session w :
  IsObjectIdHex (gorilla.ID session) = true ->
  mongoStore_delete m session w =
    remove (database m) (collection m) (ObjectIdHex (gorilla.ID session)) w.
Proof. intros Hid. unfold mongoStore_delete. now rewrite Hid. Qed.

Lemma save_valid m session w :
  IsObjectIdHex (gorilla.ID session) = true ->
  mongoStore_save m session w =
    match modified_of session w with
    | inl e => (Some e, w)
    | inr t =>
        match EncodeMulti_values (gorilla.Name session)
                (gorilla.Values session) (store_Codecs m) with
        | inl e => (Some e, w)
        | inr encoded =>
            upsert (database m) (collection m)
                   (ObjectIdHex (gorilla.ID session))
                   {| doc_ID := ""; Data := encoded; Modified := t |} w
        end
    end.
Proof.
  intros Hid. unfold mongoStore_save, modified_of. rewrite Hid. cbn.
  unfold bind, ret, time_Now, gets.
  destruct (gorilla.Values session !! KStr "modified") as [[]|]; try reflexivity.
  all: now destruct (EncodeMulti_values _ _ _).
Qed.

(** Neither touches the response, the clock or the counter. *)
Lemma delete_response m session w :
  response (snd (mongoStore_delete m session w)) = response w
  /\ counter (snd (mongoStore_delete m session w)) = counter w.
Proof.
  unfold mongoStore_delete, remove.
  destruct (IsObjectIdHex _); cbn; [|auto].
  now destruct (RemoveId _ _ _ _).
Qed.

Lemma save_response m session w :
  response (snd (mongoStore_save m session w)) = response w
  /\ counter (snd (mongoStore_save m session w)) = counter w.
Proof.
  destruct (IsObjectIdHex (gorilla.ID session)) eqn:Hid.
  - rewrite (save_valid _ _ _ Hid).
    destruct (modified_of session w); [now cbn|].
    destruct (EncodeMulti_values _ _ _); [now cbn|].
    unfold upsert. now destruct (UpsertId _ _ _ _ _).
  - now rewrite (save_invalid m session w Hid).
Qed.

(** *** [Save], step by step *)

Lemma Save_expired m r session w :
  gorilla.MaxAge (gorilla.Opts session) < 0 ->
  mongoStore_Save m r session w =
    match fst (mongoStore_delete m session w) with
    | Some e => (Some e, session, snd (mongoStore_delete m session w))
    | None =>
        (None, session,
         snd (set_token (gorilla.Name session) "" (gorilla.Opts session)
                        (snd (mongoStore_delete m session w))))
    end.
Proof.
  intros Hage. apply Z.ltb_lt in Hage.
  unfold mongoStore_Save. rewrite Hage. unfold bind, ret.
  now destruct (mongoStore_delete m session w) as [[e|] w1].
Qed.

Lemma Save_kept m r session w :
  0 <= gorilla.MaxAge (gorilla.Opts session) ->
  let session' := fst (assign_id session w) in
  let w1 := snd (assign_id session w) in
  mongoStore_Save m r session w =
    match fst (mongoStore_save m session' w1) with
    | Some e => (Some e, session', snd (mongoStore_save m session' w1))
    | None =>
        match EncodeMulti_string (gorilla.Name session')
                (gorilla.ID session') (store_Codecs m) with
        | inl e => (Some e, session', snd (mongoStore_save m session' w1))
        | inr encoded =>
            (None, session',
             snd (set_token (gorilla.Name session') encoded
                            (gorilla.Opts session')
                            (snd (mongoStore_save m session' w1))))
        end
    end.
Proof.
  intros Hage. apply Z.ltb_ge in Hage. cbn zeta.
  unfold mongoStore_Save. rewrite Hage. unfold bind at 1.
  fold (assign_id session). destruct (assign_id session w) as [s1 w1].
  cbn [fst snd]. unfold bind, ret.
  destruct (mongoStore_save m s1 w1) as [[e|] w2]; [reflexivity|].
  cbn [fst snd]. now destruct (EncodeMulti_string _ _ _).
Qed.

Lemma assign_id_eq session w :
  gorilla.ID (fst (assign_id session w)) = saved_id session w
  /\ gorilla.Name (fst (assign_id session w)) = gorilla.Name session
  /\ gorilla.Values (fst (assign_id session w)) = gorilla.Values session
  /\ gorilla.Opts (fst (assign_id session w)) = gorilla.Opts session
  /\ db (snd (assign_id session w)) = db w
  /\ accesses (snd (assign_id session w)) = accesses w
  /\ response (snd (assign_id session w)) = response w
  /\ clock (snd (assign_id session w)) = clock w
  /\ counter (snd (assign_id session w)) =
       if decide (gorilla.ID session = "") then S (counter w) else counter w.
Proof.
  unfold assign_id, saved_id. destruct (decide _); cbn; auto 10.
Qed.

Lemma delete_error m session w e :
  fst (mongoStore_delete m session w) = Some e
  <-> IsObjectIdHex (gorilla.ID session) = false /\ e = ErrInvalidId
      \/ IsObjectIdHex (gorilla.ID session) = true
         /\ fst (RemoveId (database m) (collection m)
                   (ObjectIdHex (gorilla.ID session)) (db w)) = Some e.
Proof.
  destruct (IsObjectIdHex (gorilla.ID session)) eqn:Hid.
  - rewrite (delete_valid _ _ _ Hid). unfold remove.
    destruct (RemoveId _ _ _ _). cbn. intuition discriminate.
  - rewrite (delete_invalid _ _ _ Hid). cbn.
    split; [intros [= <-]; auto|]. intros [[_ ->]|[? _]]; congruence.
Qed.

Lemma modified_error session w e :
  modified_of session w = inl e -> e = ErrInvalidModified.
Proof.
  unfold modified_of.
  destruct (gorilla.Values session !! KStr "modified") as [[]|]; congruence.
Qed.

Lemma save_error m session w e :
  fst (mongoStore_save m session w) = Some e
  <-> IsObjectIdHex (gorilla.ID session) = false /\ e = ErrInvalidId
      \/ IsObjectIdHex (gorilla.ID session) = true
         /\ (modified_of session w = inl e
             \/ (exists t,
                   modified_of session w = inr t
                   /\ EncodeMulti_values (gorilla.Name session)
                        (gorilla.Values session) (store_Codecs m) = inl e)
             \/ (exists t data,
                   modified_of session w = inr t
                   /\ EncodeMulti_values (gorilla.Name session)
                        (gorilla.Values session) (store_Codecs m) = inr data
                   /\ fst (UpsertId (database m) (collection m)
                             (ObjectIdHex (gorilla.ID session))
                             {| doc_ID := ""; Data := data; Modified := t |}
                             (db w)) = Some e)).
Proof.
  destruct (IsObjectIdHex (gorilla.ID session)) eqn:Hid.
  - rewrite (save_valid _ _ _ Hid).
    destruct (modified_of session w) as [e'|t] eqn:Hm.
    { cbn. split.
      - intros [= <-]. auto.
      - intros [[? _]|[_ [?|[(? & ? & _)|(? & ? & ? & _)]]]]; congruence. }
    destruct (EncodeMulti_values _ _ _) as [e'|data] eqn:Hv.
    { cbn. split.
      - intros [= <-]. right. split; [reflexivity|]. right. left. eauto.
      - intros [[? _]|[_ [?|[(? & ? & ?)|(? & ? & ? & ? & _)]]]]; congruence. }
    unfold upsert. destruct (UpsertId _ _ _ _ _) as [err d] eqn:Hu. cbn.
    split.
    + intros ->. right. split; [reflexivity|]. right. right.
      exists t, data. rewrite Hu. auto.
    + intros [[? _]|[_ [?|[(? & ? & ?)|(t' & data' & Ht & Hd & He)]]]];
        try congruence.
      injection Ht as <-. injection Hd as <-. now rewrite Hu in He.
  - rewrite (save_invalid _ _ _ Hid). cbn.
    split; [intros [= <-]; auto|]. intros [[_ ->]|[? _]]; congruence.
Qed.

(** C5.  [Save] returns an error exactly when one of its steps fails, and
    the error is then the one that step returned: [delete] for an expired
    session, else [save], else the encoding of the id.  [delete] fails
    with [ErrInvalidId] or with what the driver's remove returned; [save]
    fails with [ErrInvalidId], with [ErrInvalidModified], or with what the
    encoding of the values or the driver's upsert returned.  Whenever
    [Save] returns an error, the response carries no new cookie; and when
    the response has changed, every step before [SetToken] succeeded. *)
Theorem C5_save_error m r session w :
  let res := mongoStore_Save m r session w in
  let session' := fst (assign_id session w) in
  let w1 := snd (assign_id session w) in
  (forall e, fst (fst res) = Some e
     <-> gorilla.MaxAge (gorilla.Opts session) < 0
         /\ fst (mongoStore_delete m session w) = Some e
         \/ 0 <= gorilla.MaxAge (gorilla.Opts session)
            /\ fst (mongoStore_save m session' w1) = Some e
         \/ 0 <= gorilla.MaxAge (gorilla.Opts session)
            /\ fst (mongoStore_save m session' w1) = None
            /\ EncodeMulti_string (gorilla.Name session')
                 (gorilla.ID session') (store_Codecs m) = inl e)
  /\ (forall e, fst (fst res) = Some e -> response (snd res) = response w)
  /\ (response (snd res) <> response w ->
      fst (fst res) = None
      /\ (gorilla.MaxAge (gorilla.Opts session) < 0
          /\ fst (mongoStore_delete m session w) = None
          \/ 0 <= gorilla.MaxAge (gorilla.Opts session)
             /\ fst (mongoStore_save m session' w1) = None
             /\ exists encoded,
                  EncodeMulti_string (gorilla.Name session')
                    (gorilla.ID session') (store_Codecs m) = inr encoded))
  /\ (forall session w e,
        fst (mongoStore_delete m session w) = Some e
        <-> IsObjectIdHex (gorilla.ID session) = false /\ e = ErrInvalidId
            \/ IsObjectIdHex (gorilla.ID session) = true
               /\ fst (RemoveId (database m) (collection m)
                         (ObjectIdHex (gorilla.ID session)) (db w)) = Some e)
  /\ (forall session w e,
        fst (mongoStore_save m session w) = Some e
        <-> IsObjectIdHex (gorilla.ID session) = false /\ e = ErrInvalidId
            \/ IsObjectIdHex (gorilla.ID session) = true
               /\ (modified_of session w = inl e
                   \/ (exists t,
                         modified_of session w = inr t
                         /\ EncodeMulti_values (gorilla.Name session)
                              (gorilla.Values session) (store_Codecs m)
                            = inl e)
                   \/ (exists t data,
                         modified_of session w = inr t
                         /\ EncodeMulti_values (gorilla.Name session)
                              (gorilla.Values session) (store_Codecs m)
                            = inr data
                         /\ fst (UpsertId (database m) (collection m)
                                   (ObjectIdHex (gorilla.ID session))
                                   {| doc_ID := ""; Data := data;
                                      Modified := t |}
                                   (db w)) = Some e))).
Proof.
  cbn zeta.
  assert (Hquiet : forall s' w', response (snd (mongoStore_save m s' w'))
                                 = response w') by (intros; apply save_response).
  pose proof (assign_id_eq session w) as (_ & _ & _ & _ & _ & _ & Hresp & _).
  split; [|split; [|split; [|split; [apply delete_error|apply save_error]]]].
  - intros e.
    destruct (Z.lt_ge_cases (gorilla.MaxAge (gorilla.Opts session)) 0)
      as [Hage|Hage].
    + rewrite (Save_expired m r session w Hage).
      destruct (fst (mongoStore_delete m session w)) as [e'|] eqn:Hd;
        cbn [fst snd]; split; try discriminate; try lia; auto.
      * intros [[_ ?]|[[? _]|[? _]]]; [assumption|lia|lia].
      * intros [[_ ?]|[[? _]|[? _]]]; [discriminate|lia|lia].
    + rewrite (Save_kept m r session w Hage).
      destruct (fst (mongoStore_save m _ _)) as [e'|] eqn:Hs; cbn [fst snd].
      * split; [auto|].
        intros [[? _]|[[_ ?]|(_ & ? & _)]]; [lia|assumption|discriminate].
      * destruct (EncodeMulti_string _ _ _) as [e'|encoded] eqn:He;
          cbn [fst snd]; split; try discriminate.
        -- intros [= <-]. auto.
        -- intros [[? _]|[[_ ?]|(_ & _ & ?)]]; [lia|discriminate|congruence].
        -- intros [[? _]|[[_ ?]|(_ & _ & ?)]]; [lia|discriminate|discriminate].
  - intros e.
    destruct (Z.lt_ge_cases (gorilla.MaxAge (gorilla.Opts session)) 0)
      as [Hage|Hage].
    + rewrite (Save_expired m r session w Hage).
      destruct (fst (mongoStore_delete m session w)) as [e'|] eqn:Hd;
        cbn [fst snd]; [|discriminate].
      intros _. apply delete_response.
    + rewrite (Save_kept m r session w Hage).
      destruct (fst (mongoStore_save m _ _)) as [e'|] eqn:Hs; cbn [fst snd].
      * intros _. now rewrite Hquiet.
      * destruct (EncodeMulti_string _ _ _) as [e'|encoded] eqn:He;
          cbn [fst snd]; [|discriminate].
        intros _. now rewrite Hquiet.
  - destruct (Z.lt_ge_cases (gorilla.MaxAge (gorilla.Opts session)) 0)
      as [Hage|Hage].
    + rewrite (Save_expired m r session w Hage).
      destruct (fst (mongoStore_delete m session w)) as [e'|] eqn:Hd;
        cbn [fst snd].
      * intros Hr. exfalso. apply Hr. apply delete_response.
      * intros _. split; [reflexivity|]. left. auto.
    + rewrite (Save_kept m r session w Hage).
      destruct (fst (mongoStore_save m _ _)) as [e'|] eqn:Hs; cbn [fst snd].
      * intros Hr. exfalso. apply Hr. now rewrite Hquiet.
      * destruct (EncodeMulti_string _ _ _) as [e'|encoded] eqn:He;
          cbn [fst snd].
        -- intros Hr. exfalso. apply Hr. now rewrite Hquiet.
        -- intros _. split; [reflexivity|]. right. eauto.
Qed.

(** C4, as implemented.  On a session whose [MaxAge] is negative, [Save] asks
    [delete] to remove the document of the session's id: it performs no
    upsert, generates no id and leaves the session as it is.  When the
    delete succeeds, which takes a session id that is an object-id hex and
    a driver that reports no error, [Save] sets the cookie to the empty
    value and returns nil; otherwise it returns the error and sets no
    cookie.  On a session with a non-negative [MaxAge] and an empty id,
    [Save] first assigns the hex of a new object id, and any upsert it
    goes on to make is under that id. *)
Theorem C4_expired_or_fresh m r session w :
  let res := mongoStore_Save m r session w in
  let oid := ObjectIdHex (gorilla.ID session) in
  (gorilla.MaxAge (gorilla.Opts session) < 0 ->
     snd (fst res) = session
     /\ counter (snd res) = counter w
     /\ accesses (snd res) =
          accesses w ++
          (if IsObjectIdHex (gorilla.ID session)
           then [Remove (database m) (collection m) oid] else [])
     /\ (fst (fst res) = None
         <-> IsObjectIdHex (gorilla.ID session) = true
             /\ fst (RemoveId (database m) (collection m) oid (db w)) = None)
     /\ (fst (fst res) = None ->
           db (snd res) = snd (RemoveId (database m) (collection m) oid (db w))
           /\ response (snd res) =
                response w ++ [mkCookie (gorilla.Name session) ""
                                        (gorilla.Opts session)])
     /\ (fst (fst res) <> None -> response (snd res) = response w))
  /\ (0 <= gorilla.MaxAge (gorilla.Opts session) ->
      gorilla.ID session = "" ->
      let fresh := Hex (NewObjectId (counter w)) in
      snd (fst res) = gorilla.set_ID fresh session
      /\ counter (snd res) = S (counter w)
      /\ forall a, a ∈ accesses (snd res) ->
           a ∈ accesses w
           \/ exists doc,
                a = Upsert (database m) (collection m) (ObjectIdHex fresh) doc).
Proof.
  cbn zeta. split.
  - intros Hage. rewrite (Save_expired m r session w Hage).
    destruct (IsObjectIdHex (gorilla.ID session)) eqn:Hid.
    + rewrite (delete_valid _ _ _ Hid). unfold remove.
      destruct (RemoveId _ _ _ _) as [[e|] d]; cbn;
        repeat split; try tauto; try discriminate; intuition discriminate.
    + rewrite (delete_invalid _ _ _ Hid). cbn. rewrite app_nil_r.
      repeat split; try tauto; try discriminate; intuition discriminate.
  - intros Hage Hid. rewrite (Save_kept m r session w Hage).
    pose proof (assign_id_eq session w) as (_ & _ & _ & _ & _ & Ha & _ & _ & Hn).
    rewrite decide_True in Hn by exact Hid.
    assert (Hs1 : fst (assign_id session w)
                  = gorilla.set_ID (Hex (NewObjectId (counter w))) session).
    { unfold assign_id. now rewrite decide_True by exact Hid. }
    rewrite Hs1.
    set (s1 := gorilla.set_ID _ session).
    set (w1 := snd (assign_id session w)) in *.
    assert (Hacc : forall a, a ∈ accesses (snd (mongoStore_save m s1 w1)) ->
              a ∈ accesses w
              \/ exists doc, a = Upsert (database m) (collection m)
                                   (ObjectIdHex (gorilla.ID s1)) doc).
    { intros a. destruct (IsObjectIdHex (gorilla.ID s1)) eqn:Hv.
      - rewrite (save_valid _ _ _ Hv).
        destruct (modified_of s1 w1); [cbn; rewrite Ha; auto|].
        destruct (EncodeMulti_values _ _ _); [cbn; rewrite Ha; auto|].
        unfold upsert. destruct (UpsertId _ _ _ _ _). cbn. rewrite Ha.
        intros [Hin|Hin]%elem_of_app; [auto|].
        apply list_elem_of_singleton in Hin. eauto.
      - rewrite (save_invalid _ _ _ Hv). cbn. rewrite Ha. auto. }
    pose proof (save_response m s1 w1) as [_ Hc]. rewrite Hn in Hc.
    destruct (fst (mongoStore_save m s1 w1)) as [e|]; cbn [fst snd];
      [auto|].
    destruct (EncodeMulti_string _ _ _); cbn [fst snd]; auto.
Qed.

(** A successful [Save] of a session that is kept. *)
Lemma Save_success m r session w :
  0 <= gorilla.MaxAge (gorilla.Opts session) ->
  fst (fst (mongoStore_Save m r session w)) = None ->
  let res := mongoStore_Save m r session w in
  let id := saved_id session w in
  exists encoded data t,
    EncodeMulti_string (gorilla.Name session) id (store_Codecs m) = inr encoded
    /\ EncodeMulti_values (gorilla.Name session) (gorilla.Values session)
         (store_Codecs m) = inr data
    /\ modified_of session w = inr t
    /\ response (snd res) =
         response w ++ [mkCookie (gorilla.Name session) encoded
                                 (gorilla.Opts session)]
    /\ accesses (snd res) =
         accesses w ++
         [Upsert (database m) (collection m) (ObjectIdHex id)
                 {| doc_ID := ""; Data := data; Modified := t |}]
    /\ UpsertId (database m) (collection m) (ObjectIdHex id)
         {| doc_ID := ""; Data := data; Modified := t |} (db w)
       = (None, db (snd res)).
Proof.
  intros Hage. cbn zeta. rewrite (Save_kept m r session w Hage).
  pose proof (assign_id_eq session w)
    as (Hid & Hname & Hvals & Hopts & Hdb & Hacc & Hresp & Hclock & _).
  set (s1 := fst (assign_id session w)) in *.
  set (w1 := snd (assign_id session w)) in *.
  assert (Hmod : modified_of s1 w1 = modified_of session w).
  { unfold modified_of. now rewrite Hvals, Hclock. }
  destruct (IsObjectIdHex (gorilla.ID s1)) eqn:Hv.
  2: { now rewrite (save_invalid _ _ _ Hv). }
  rewrite (save_valid _ _ _ Hv), Hmod, Hname, Hvals, Hid, Hopts.
  destruct (modified_of session w) as [e|t]; [discriminate|].
  destruct (EncodeMulti_values _ _ _) as [e|data]; [discriminate|].
  unfold upsert. rewrite Hdb.
  destruct (UpsertId _ _ _ _ _) as [[e|] d] eqn:Hu; cbn [fst snd];
    [discriminate|].
  destruct (EncodeMulti_string _ _ _) as [e|encoded]; [discriminate|].
  intros _. exists encoded, data, t. cbn. rewrite Hacc, Hresp, Hu. auto 10.
Qed.

(** When [Save] of a session that is kept succeeds. *)
Lemma Save_succeeds m r session w :
  0 <= gorilla.MaxAge (gorilla.Opts session) ->
  let id := saved_id session w in
  fst (fst (mongoStore_Save m r session w)) = None
  <-> IsObjectIdHex id = true
      /\ exists encoded data t,
           EncodeMulti_string (gorilla.Name session) id (store_Codecs m)
             = inr encoded
           /\ EncodeMulti_values (gorilla.Name session)
                (gorilla.Values session) (store_Codecs m) = inr data
           /\ modified_of session w = inr t
           /\ fst (UpsertId (database m) (collection m) (ObjectIdHex id)
                     {| doc_ID := ""; Data := data; Modified := t |} (db w))
              = None.
Proof.
  intros Hage. cbn zeta. rewrite (Save_kept m r session w Hage).
  pose proof (assign_id_eq session w)
    as (Hid & Hname & Hvals & Hopts & Hdb & _).
  set (s1 := fst (assign_id session w)) in *.
  set (w1 := snd (assign_id session w)) in *.
  assert (Hmod : modified_of s1 w1 = modified_of session w).
  { unfold modified_of. pose proof (assign_id_eq session w) as H.
    fold s1 w1 in H. destruct H as (_ & _ & _ & _ & _ & _ & _ & Hclock & _).
    now rewrite Hvals, Hclock. }
  destruct (IsObjectIdHex (gorilla.ID s1)) eqn:Hv.
  2: { rewrite (save_invalid _ _ _ Hv). cbn. rewrite Hid in Hv.
       split; [discriminate|]. intros [H _]. congruence. }
  rewrite (save_valid _ _ _ Hv), Hmod, Hname, Hvals, Hid. rewrite Hid in Hv.
  destruct (modified_of session w) as [e|t].
  { cbn. split; [discriminate|].
    intros (_ & ? & ? & ? & _ & _ & [=] & _). }
  destruct (EncodeMulti_values _ _ _) as [e|data].
  { cbn. split; [discriminate|].
    intros (_ & ? & ? & ? & _ & [=] & _). }
  unfold upsert. rewrite Hdb.
  destruct (UpsertId _ _ _ _ _) as [[e|] d] eqn:Hu; cbn [fst snd].
  { split; [discriminate|].
    intros (_ & ? & ? & ? & _ & [= <-] & [= <-] & Hn).
    rewrite Hu in Hn. discriminate. }
  destruct (EncodeMulti_string _ _ _) as [e|encoded]; cbn [fst].
  { split; [discriminate|]. intros (_ & ? & ? & ? & [=] & _). }
  split; [|reflexivity]. intros _. split; [exact Hv|].
  exists encoded, data, t. rewrite Hu. auto.
Qed.

End MongoClaims.

Section DalFacts.
Context {cdc : Codec} {bck : Backend}.
Import dalstore.
Implicit Types (d : dalStore) (session : gorilla.Session) (w : dbworld).

Lemma dal_save_invalid d session w :
  IsObjectIdHex (gorilla.ID session) = false ->
  dalStore_save d session w = (Some ErrInvalidId, w).
Proof. intros Hid. unfold dalStore_save. now rewrite Hid. Qed.

Lemma dal_save_valid d session w :
  IsObjectIdHex (gorilla.ID session) = true ->
  dalStore_save d session w =
    match modified_of session w with
    | inl e => (Some e, w)
    | inr t =>
        match EncodeMulti_values (gorilla.Name session)
                (gorilla.Values session) (store_Codecs d) with
        | inl e => (Some e, w)
        | inr encoded =>
            upsert (database d) (collection d)
                   (ObjectIdHex (gorilla.ID session))
                   {| doc_ID := ObjectIdHex (gorilla.ID session);
                      Data := encoded; Modified := t |} w
        end
    end.
Proof.
  intros Hid. unfold dalStore_save, modified_of. rewrite Hid. cbn.
  unfold bind, ret, time_Now, gets.
  destruct (gorilla.Values session !! KStr "modified") as [[]|]; try reflexivity.
  all: now destruct (EncodeMulti_values _ _ _).
Qed.

Lemma dal_Save_kept d r session w :
  0 <= gorilla.MaxAge (gorilla.Opts session) ->
  let session' := fst (assign_id session w) in
  let w1 := snd (assign_id session w) in
  dalStore_Save d r session w =
    match fst (dalStore_save d session' w1) with
    | Some e => (Some e, session', snd (dalStore_save d session' w1))
    | None =>
        match EncodeMulti_string (gorilla.Name session')
                (gorilla.ID session') (store_Codecs d) with
        | inl e => (Some e, session', snd (dalStore_save d session' w1))
        | inr encoded =>
            (None, session',
             snd (set_token (gorilla.Name session') encoded
                            (gorilla.Opts session')
                            (snd (dalStore_save d session' w1))))
        end
    end.
Proof.
  intros Hage. apply Z.ltb_ge in Hage. cbn zeta.
  unfold dalStore_Save. rewrite Hage. unfold bind at 1.
  fold (assign_id session). destruct (assign_id session w) as [s1 w1].
  cbn [fst snd]. unfold bind, ret.
  destruct (dalStore_save d s1 w1) as [[e|] w2]; [reflexivity|].
  cbn [fst snd]. now destruct (EncodeMulti_string _ _ _).
Qed.

Lemma dal_Save_success d r session w :
  0 <= gorilla.MaxAge (gorilla.Opts session) ->
  fst (fst (dalStore_Save d r session w)) = None ->
  let res := dalStore_Save d r session w in
  let id := saved_id session w in
  exists encoded data t,
    EncodeMulti_string (gorilla.Name session) id (store_Codecs d) = inr encoded
    /\ EncodeMulti_values (gorilla.Name session) (gorilla.Values session)
         (store_Codecs d) = inr data
    /\ modified_of session w = inr t
    /\ response (snd res) =
         response w ++ [mkCookie (gorilla.Name session) encoded
                                 (gorilla.Opts session)]
    /\ accesses (snd res) =
         accesses w ++
         [Upsert (database d) (collection d) (ObjectIdHex id)
                 {| doc_ID := ObjectIdHex id; Data := data; Modified := t |}]
    /\ UpsertId (database d) (collection d) (ObjectIdHex id)
         {| doc_ID := ObjectIdHex id; Data := data; Modified := t |} (db w)
       = (None, db (snd res)).
Proof.
  intros Hage. cbn zeta. rewrite (dal_Save_kept d r session w Hage).
  pose proof (assign_id_eq session w)
    as (Hid & Hname & Hvals & Hopts & Hdb & Hacc & Hresp & Hclock & _).
  set (s1 := fst (assign_id session w)) in *.
  set (w1 := snd (assign_id session w)) in *.
  assert (Hmod : modified_of s1 w1 = modified_of session w).
  { unfold modified_of. now rewrite Hvals, Hclock. }
  destruct (IsObjectIdHex (gorilla.ID s1)) eqn:Hv.
  2: { now rewrite (dal_save_invalid _ _ _ Hv). }
  rewrite (dal_save_valid _ _ _ Hv), Hmod, Hname, Hvals, Hid, Hopts.
  destruct (modified_of session w) as [e|t]; [discriminate|].
  destruct (EncodeMulti_values _ _ _) as [e|data]; [discriminate|].
  unfold upsert. rewrite Hdb.
  destruct (UpsertId _ _ _ _ _) as [[e|] db'] eqn:Hu; cbn [fst snd];
    [discriminate|].
  destruct (EncodeMulti_string _ _ _) as [e|encoded]; [discriminate|].
  intros _. exists encoded, data, t. cbn. rewrite Hacc, Hresp, Hu. auto 10.
Qed.

Lemma dal_Save_succeeds d r session w :
  0 <= gorilla.MaxAge (gorilla.Opts session) ->
  let id := saved_id session w in
  fst (fst (dalStore_Save d r session w)) = None
  <-> IsObjectIdHex id = true
      /\ exists encoded data t,
           EncodeMulti_string (gorilla.Name session) id (store_Codecs d)
             = inr encoded
           /\ EncodeMulti_values (gorilla.Name session)
                (gorilla.Values session) (store_Codecs d) = inr data
           /\ modified_of session w = inr t
           /\ fst (UpsertId (database d) (collection d) (ObjectIdHex id)
                     {| doc_ID := ObjectIdHex id; Data := data; Modified := t |} (db w))
              = None.
Proof.
  intros Hage. cbn zeta. rewrite (dal_Save_kept d r session w Hage).
  pose proof (assign_id_eq session w)
    as (Hid & Hname & Hvals & Hopts & Hdb & _).
  set (s1 := fst (assign_id session w)) in *.
  set (w1 := snd (assign_id session w)) in *.
  assert (Hmod : modified_of s1 w1 = modified_of session w).
  { unfold modified_of. pose proof (assign_id_eq session w) as H.
    fold s1 w1 in H. destruct H as (_ & _ & _ & _ & _ & _ & _ & Hclock & _).
    now rewrite Hvals, Hclock. }
  destruct (IsObjectIdHex (gorilla.ID s1)) eqn:Hv.
  2: { rewrite (dal_save_invalid _ _ _ Hv). cbn. rewrite Hid in Hv.
       split; [discriminate|]. intros [H _]. congruence. }
  rewrite (dal_save_valid _ _ _ Hv), Hmod, Hname, Hvals, Hid. rewrite Hid in Hv.
  destruct (modified_of session w) as [e|t].
  { cbn. split; [discriminate|].
    intros (_ & ? & ? & ? & _ & _ & [=] & _). }
  destruct (EncodeMulti_values _ _ _) as [e|data].
  { cbn. split; [discriminate|].
    intros (_ & ? & ? & ? & _ & [=] & _). }
  unfold upsert. rewrite Hdb.
  destruct (UpsertId _ _ _ _ _) as [[e|] db'] eqn:Hu; cbn [fst snd].
  { split; [discriminate|].
    intros (_ & ? & ? & ? & _ & [= <-] & [= <-] & Hn).
    rewrite Hu in Hn. discriminate. }
  destruct (EncodeMulti_string _ _ _) as [e|encoded]; cbn [fst].
  { split; [discriminate|]. intros (_ & ? & ? & ? & [=] & _). }
  split; [|reflexivity]. intros _. split; [exact Hv|].
  exists encoded, data, t. rewrite Hu. auto.
Qed.

End DalFacts.

(** ** [New] and [Save] of both stores *)

Section StoreClaims.
Context {cdc : Codec} {bck : Backend}.
Implicit Types (r : Request) (session : gorilla.Session) (w : dbworld).

(** Case analysis along [New]: is there a cookie, does it decode, is the
    id an object-id hex, is the document found, does its data decode. *)
Ltac along_New :=
  unfold cookie_loads, cookie_decode_fails;
  unfold mongostore.mongoStore_New, mongostore.mongoStore_load,
         dalstore.dalStore_New, dalstore.dalStore_load, find;
  match goal with
  | |- context [sessions.GetToken ?r ?name] =>
      destruct (sessions.GetToken r name) as [errToken|cook] eqn:Htoken
  end; cbn;
  [| match goal with
     | |- context [DecodeMulti_string ?n ?c ?d ?cs] =>
         destruct (DecodeMulti_string n c d cs) as [[e1|] sid] eqn:Hdecode
     end; cbn;
     [| match goal with
        | |- context [IsObjectIdHex ?i] =>
            destruct (IsObjectIdHex i) eqn:Hid
        end; cbn; unfold bind, ret; cbn;
        [ match goal with
          | |- context [FindId ?a ?b ?c ?d] =>
              destruct (FindId a b c d) as [e2|doc] eqn:Hfind
          end; cbn;
          [| match goal with
             | |- context [DecodeMulti_values ?n ?c ?d ?cs] =>
                 destruct (DecodeMulti_values n c d cs) as [[e3|] vals]
                   eqn:Hvalues
             end; cbn ]
        |] ] ].

Lemma New_spec (m : mongostore.mongoStore) r name w :
  let res := mongostore.mongoStore_New m r name w in
  (gorilla.IsNew (fst (fst res)) = false
   <-> cookie_loads (mongostore.store_Codecs m) (mongostore.database m)
         (mongostore.collection m) r name w)
  /\ (forall e, snd (fst res) = Some e
      <-> cookie_decode_fails (mongostore.store_Codecs m) r name e).
Proof.
  cbn zeta. along_New.
  all: split; [split|intros e; split].
  all: try discriminate.
  all: try (intros (c & i & dc & vs & H1 & H2 & H3 & H4 & H5); congruence).
  all: try (intros (c & H1 & H2); injection H1 as <-;
            rewrite Hdecode in H2; cbn in H2; congruence).
  all: try (intros _; exists cook, sid, doc, vals; auto).
  all: try (intros [= <-]; exists cook; rewrite Hdecode; now auto).
  intros (c & H1 & _). discriminate.
Qed.

Lemma dal_New_spec (d : dalstore.dalStore) r name w :
  let res := dalstore.dalStore_New d r name w in
  (gorilla.IsNew (fst (fst res)) = false
   <-> cookie_loads (dalstore.store_Codecs d) (dalstore.database d)
         (dalstore.collection d) r name w)
  /\ (forall e, snd (fst res) = Some e
      <-> cookie_decode_fails (dalstore.store_Codecs d) r name e).
Proof.
  cbn zeta. along_New.
  all: split; [split|intros e; split].
  all: try discriminate.
  all: try (intros (c & i & dc & vs & H1 & H2 & H3 & H4 & H5); congruence).
  all: try (intros (c & H1 & H2); injection H1 as <-;
            rewrite Hdecode in H2; cbn in H2; congruence).
  all: try (intros _; exists cook, sid, doc, vals; auto).
  all: try (intros [= <-]; exists cook; rewrite Hdecode; now auto).
  intros (c & H1 & _). discriminate.
Qed.

Lemma not_false_iff_loads (b : bool) (P : Prop) :
  (b = false <-> P) -> (b = true <-> ~ P).
Proof. destruct b; intuition discriminate. Qed.

(** C2.  [mongoStore.New], and likewise [dalStore.New], returns a session
    with [IsNew = false] exactly when the request carries a cookie of the
    session's name, the codec decodes it to an id without error, and the
    document of that id is fetched (the id being an object-id hex) and
    its data decoded; in every other case [IsNew = true].  The error it
    returns is non-nil exactly when the cookie is there and decoding it
    failed, and is then that error: without a cookie, and after a cookie
    that decoded, whatever the fetch by id did, the error is nil. *)
Theorem C2_New_IsNew :
  (forall (m : mongostore.mongoStore) r name w,
     let res := mongostore.mongoStore_New m r name w in
     let loads := cookie_loads (mongostore.store_Codecs m)
                    (mongostore.database m) (mongostore.collection m)
                    r name w in
     (gorilla.IsNew (fst (fst res)) = false <-> loads)
     /\ (gorilla.IsNew (fst (fst res)) = true <-> ~ loads)
     /\ (forall e, snd (fst res) = Some e
         <-> cookie_decode_fails (mongostore.store_Codecs m) r name e)
     /\ (forall errToken, sessions.GetToken r name = inl errToken ->
           snd (fst res) = None)
     /\ (forall cook id,
           sessions.GetToken r name = inr cook ->
           DecodeMulti_string name cook "" (mongostore.store_Codecs m)
             = (None, id) ->
           snd (fst res) = None))
  /\ (forall (d : dalstore.dalStore) r name w,
     let res := dalstore.dalStore_New d r name w in
     let loads := cookie_loads (dalstore.store_Codecs d)
                    (dalstore.database d) (dalstore.collection d)
                    r name w in
     (gorilla.IsNew (fst (fst res)) = false <-> loads)
     /\ (gorilla.IsNew (fst (fst res)) = true <-> ~ loads)
     /\ (forall e, snd (fst res) = Some e
         <-> cookie_decode_fails (dalstore.store_Codecs d) r name e)
     /\ (forall errToken, sessions.GetToken r name = inl errToken ->
           snd (fst res) = None)
     /\ (forall cook id,
           sessions.GetToken r name = inr cook ->
           DecodeMulti_string name cook "" (dalstore.store_Codecs d)
             = (None, id) ->
           snd (fst res) = None)).
Proof.
  split.
  - intros m r name w. cbn zeta.
    destruct (New_spec m r name w) as [Hnew Herr].
    split; [exact Hnew|]. split; [now apply not_false_iff_loads|].
    split; [exact Herr|]. split.
    + intros errToken Htoken.
      destruct (snd (fst (mongostore.mongoStore_New m r name w))) as [e|]
        eqn:He; [|reflexivity].
      destruct (proj1 (Herr e) eq_refl) as (c & H1 & _). congruence.
    + intros cook id Htoken Hdecode.
      destruct (snd (fst (mongostore.mongoStore_New m r name w))) as [e|]
        eqn:He; [|reflexivity].
      destruct (proj1 (Herr e) eq_refl) as (c & H1 & H2).
      rewrite Htoken in H1. injection H1 as <-.
      rewrite Hdecode in H2. discriminate.
  - intros d r name w. cbn zeta.
    destruct (dal_New_spec d r name w) as [Hnew Herr].
    split; [exact Hnew|]. split; [now apply not_false_iff_loads|].
    split; [exact Herr|]. split.
    + intros errToken Htoken.
      destruct (snd (fst (dalstore.dalStore_New d r name w))) as [e|]
        eqn:He; [|reflexivity].
      destruct (proj1 (Herr e) eq_refl) as (c & H1 & _). congruence.
    + intros cook id Htoken Hdecode.
      destruct (snd (fst (dalstore.dalStore_New d r name w))) as [e|]
        eqn:He; [|reflexivity].
      destruct (proj1 (Herr e) eq_refl) as (c & H1 & H2).
      rewrite Htoken in H1. injection H1 as <-.
      rewrite Hdecode in H2. discriminate.
Qed.

(** C3.  A [Save] of a session with [MaxAge >= 0], by [mongoStore] and
    by [dalStore] alike, succeeds exactly when the id is an object-id hex,
    the id and the values map encode, the ["modified"] value is usable and
    the driver accepts the upsert.  It then adds one cookie to the
    response, whose value is [EncodeMulti(name, id)], the encoding of the
    session id and nothing else; it makes one access to the database, the
    upsert under that id of a document whose [Data] is the encoding of the
    values map, and leaves the database as that upsert made it.  Saving
    the same session with any other values map sets the very same
    cookie. *)
Theorem C3_cookie_carries_id :
  (forall (m : mongostore.mongoStore) r session w,
     0 <= gorilla.MaxAge (gorilla.Opts session) ->
     let res := mongostore.mongoStore_Save m r session w in
     let id := saved_id session w in
     (fst (fst res) = None
      <-> IsObjectIdHex id = true
          /\ exists encoded data t,
               EncodeMulti_string (gorilla.Name session) id
                 (mongostore.store_Codecs m) = inr encoded
               /\ EncodeMulti_values (gorilla.Name session)
                    (gorilla.Values session) (mongostore.store_Codecs m)
                  = inr data
               /\ modified_of session w = inr t
               /\ fst (UpsertId (mongostore.database m)
                         (mongostore.collection m) (ObjectIdHex id)
                         {| doc_ID := ""; Data := data;
                            Modified := t |} (db w)) = None)
     /\ (fst (fst res) = None ->
         exists encoded data t,
           EncodeMulti_string (gorilla.Name session) id
             (mongostore.store_Codecs m) = inr encoded
           /\ EncodeMulti_values (gorilla.Name session)
                (gorilla.Values session) (mongostore.store_Codecs m)
              = inr data
           /\ modified_of session w = inr t
           /\ response (snd res) =
                response w ++ [mkCookie (gorilla.Name session) encoded
                                        (gorilla.Opts session)]
           /\ accesses (snd res) =
                accesses w ++
                [Upsert (mongostore.database m) (mongostore.collection m)
                        (ObjectIdHex id)
                        {| doc_ID := ""; Data := data;
                           Modified := t |}]
           /\ UpsertId (mongostore.database m) (mongostore.collection m)
                (ObjectIdHex id)
                {| doc_ID := ""; Data := data; Modified := t |} (db w)
              = (None, db (snd res)))
     /\ (forall vals,
           let res' := mongostore.mongoStore_Save m r
                         (gorilla.set_Values vals session) w in
           fst (fst res) = None -> fst (fst res') = None ->
           response (snd res') = response (snd res)))
  /\ (forall (d : dalstore.dalStore) r session w,
     0 <= gorilla.MaxAge (gorilla.Opts session) ->
     let res := dalstore.dalStore_Save d r session w in
     let id := saved_id session w in
     (fst (fst res) = None
      <-> IsObjectIdHex id = true
          /\ exists encoded data t,
               EncodeMulti_string (gorilla.Name session) id
                 (dalstore.store_Codecs d) = inr encoded
               /\ EncodeMulti_values (gorilla.Name session)
                    (gorilla.Values session) (dalstore.store_Codecs d)
                  = inr data
               /\ modified_of session w = inr t
               /\ fst (UpsertId (dalstore.database d)
                         (dalstore.collection d) (ObjectIdHex id)
                         {| doc_ID := ObjectIdHex id; Data := data;
                            Modified := t |} (db w)) = None)
     /\ (fst (fst res) = None ->
         exists encoded data t,
           EncodeMulti_string (gorilla.Name session) id
             (dalstore.store_Codecs d) = inr encoded
           /\ EncodeMulti_values (gorilla.Name session)
                (gorilla.Values session) (dalstore.store_Codecs d)
              = inr data
           /\ modified_of session w = inr t
           /\ response (snd res) =
                response w ++ [mkCookie (gorilla.Name session) encoded
                                        (gorilla.Opts session)]
           /\ accesses (snd res) =
                accesses w ++
                [Upsert (dalstore.database d) (dalstore.collection d)
                        (ObjectIdHex id)
                        {| doc_ID := ObjectIdHex id; Data := data;
                           Modified := t |}]
           /\ UpsertId (dalstore.database d) (dalstore.collection d)
                (ObjectIdHex id)
                {| doc_ID := ObjectIdHex id; Data := data; Modified := t |} (db w)
              = (None, db (snd res)))
     /\ (forall vals,
           let res' := dalstore.dalStore_Save d r
                         (gorilla.set_Values vals session) w in
           fst (fst res) = None -> fst (fst res') = None ->
           response (snd res') = response (snd res))).
Proof.
  split.
  - intros m r session w Hage. cbn zeta.
    split; [exact (Save_succeeds m r session w Hage)|].
    split; [exact (Save_success m r session w Hage)|].
    intros vals Hok Hok'.
    destruct (Save_success m r session w Hage Hok)
      as (encoded & _ & _ & He & _ & _ & Hr & _).
    destruct (Save_success m r (gorilla.set_Values vals session) w Hage Hok')
      as (encoded' & _ & _ & He' & _ & _ & Hr' & _).
    cbn in He', Hr'. unfold saved_id in *. cbn in He'.
    rewrite Hr, Hr'. congruence.
  - intros d r session w Hage. cbn zeta.
    split; [exact (dal_Save_succeeds d r session w Hage)|].
    split; [exact (dal_Save_success d r session w Hage)|].
    intros vals Hok Hok'.
    destruct (dal_Save_success d r session w Hage Hok)
      as (encoded & _ & _ & He & _ & _ & Hr & _).
    destruct (dal_Save_success d r (gorilla.set_Values vals session) w Hage Hok')
      as (encoded' & _ & _ & He' & _ & _ & Hr' & _).
    cbn in He', Hr'. unfold saved_id in *. cbn in He'.
    rewrite Hr, Hr'. congruence.
Qed.

End StoreClaims.

(** ** Concrete requests *)

Lemma C7_witness :
  IsObjectIdHex (gorilla.ID sample.forged_session) = false
  /\ mongostore.mongoStore_load sample.mongo sample.forged_session
       sample.empty_world
     = (false, Some ErrInvalidId, sample.forged_session, sample.empty_world)
  /\ mongostore.mongoStore_save sample.mongo sample.forged_session
       sample.empty_world
     = (Some ErrInvalidId, sample.empty_world)
  /\ mongostore.mongoStore_delete sample.mongo sample.forged_session
       sample.empty_world
     = (Some ErrInvalidId, sample.empty_world).
Proof.
  split; [reflexivity|].
  apply (C7_invalid_id sample.mongo sample.forged_session sample.empty_world).
  reflexivity.
Defined.

(** An expired session that has never been saved has an empty id: [Save]
    returns [ErrInvalidId], removes nothing and sets no cookie. *)
Lemma C4_counterexample :
  let res := mongostore.mongoStore_Save sample.mongo sample.request
               sample.expired_session sample.empty_world in
  ~ (gorilla.MaxAge (gorilla.Opts sample.expired_session) < 0 ->
     accesses (snd res) = [Remove "app" "sessions" (ObjectIdHex "")]
     /\ response (snd res) =
          [mkCookie "my_session" ""
                    (gorilla.Opts sample.expired_session)]).
Proof.
  cbn zeta. intros H. destruct H as [Ha _]; [reflexivity|].
  vm_compute in Ha. discriminate.
Qed.

Example Save_expired_unsaved :
  let res := mongostore.mongoStore_Save sample.mongo sample.request
               sample.expired_session sample.empty_world in
  fst (fst res) = Some ErrInvalidId
  /\ accesses (snd res) = []
  /\ response (snd res) = [].
Proof. vm_compute. auto. Qed.

(** A first save of the session of the README: a new id, one upsert of the
    encoded values, one cookie that carries the id. *)
Example Save_fresh_session :
  let res := mongostore.mongoStore_Save sample.mongo sample.request
               sample.fresh_session sample.empty_world in
  fst (fst res) = None
  /\ gorilla.ID (snd (fst res)) = "507f1f77bcf86cd799439011"
  /\ response (snd res) =
       [mkCookie "my_session" "my_session|507f1f77bcf86cd799439011"
                 (gorilla.mkOptions "/" "" 3600 false false)]
  /\ accesses (snd res) =
       [Upsert "app" "sessions" "507f1f77bcf86cd799439011"
               {| doc_ID := ""; Data := "my_session|hello=world";
                  Modified := 1700000000 |}].
Proof. vm_compute. auto. Qed.

(** The same save against a database that cannot be reached: the driver's
    error comes back and the response stays empty. *)
Example Save_unreachable :
  let res := mongostore.mongoStore_Save sample.mongo sample.request
               sample.fresh_session sample.unreachable_world in
  fst (fst res) = Some sample.unreachable /\ response (snd res) = [].
Proof. vm_compute. auto. Qed.

(** The next request brings the cookie back: the session is not new and
    holds the values that were saved.  Against a database that lost the
    document it is new, and the error is nil all the same. *)
Example New_after_Save :
  let saved := snd (mongostore.mongoStore_Save sample.mongo sample.request
                      sample.fresh_session sample.empty_world) in
  let r := {| req_cookies :=
                [("my_session", "my_session|507f1f77bcf86cd799439011")];
              req_ctx := Background |} in
  let known := fst (mongostore.mongoStore_New sample.mongo r "my_session"
                      saved) in
  let lost := fst (mongostore.mongoStore_New sample.mongo r "my_session"
                     sample.empty_world) in
  gorilla.IsNew (fst known) = false
  /\ snd known = None
  /\ gorilla.Values (fst known) !! KStr "hello" = Some (Str "world")
  /\ gorilla.IsNew (fst lost) = true
  /\ snd lost = None.
Proof. vm_compute. auto 10. Qed.

Lemma C5_witness :
  let res := mongostore.mongoStore_Save sample.mongo sample.request
               sample.fresh_session sample.unreachable_world in
  fst (fst res) = Some sample.unreachable
  /\ response (snd res) = response sample.unreachable_world.
Proof.
  cbn zeta. split; [reflexivity|].
  apply (proj1 (proj2 (C5_save_error sample.mongo sample.request
                         sample.fresh_session sample.unreachable_world))
           sample.unreachable).
  reflexivity.
Defined.

Lemma C3_witness :
  let res := mongostore.mongoStore_Save sample.mongo sample.request
               sample.fresh_session sample.empty_world in
  let res' := dalstore.dalStore_Save sample.dal sample.request
                sample.fresh_session sample.empty_world in
  0 <= gorilla.MaxAge (gorilla.Opts sample.fresh_session)
  /\ fst (fst res) = None
  /\ fst (fst res') = None
  /\ (exists encoded data t,
        EncodeMulti_string "my_session"
          (saved_id sample.fresh_session sample.empty_world) tt = inr encoded
        /\ EncodeMulti_values "my_session" sample.hello tt = inr data
        /\ modified_of sample.fresh_session sample.empty_world = inr t
        /\ response (snd res) =
             [mkCookie "my_session" encoded
                       (gorilla.Opts sample.fresh_session)]
        /\ accesses (snd res) =
             [Upsert "app" "sessions"
                     (ObjectIdHex
                        (saved_id sample.fresh_session sample.empty_world))
                     {| doc_ID := ""; Data := data; Modified := t |}]
        /\ UpsertId "app" "sessions"
             (ObjectIdHex (saved_id sample.fresh_session sample.empty_world))
             {| doc_ID := ""; Data := data; Modified := t |}
             (db sample.empty_world)
           = (None, db (snd res)))
  /\ (exists encoded data t,
        EncodeMulti_string "my_session"
          (saved_id sample.fresh_session sample.empty_world) tt = inr encoded
        /\ EncodeMulti_values "my_session" sample.hello tt = inr data
        /\ modified_of sample.fresh_session sample.empty_world = inr t
        /\ response (snd res') =
             [mkCookie "my_session" encoded
                       (gorilla.Opts sample.fresh_session)]
        /\ accesses (snd res') =
             [Upsert "app" "sessions"
                     (ObjectIdHex
                        (saved_id sample.fresh_session sample.empty_world))
                     {| doc_ID :=
                          ObjectIdHex
                            (saved_id sample.fresh_session sample.empty_world);
                        Data := data; Modified := t |}]
        /\ UpsertId "app" "sessions"
             (ObjectIdHex (saved_id sample.fresh_session sample.empty_world))
             {| doc_ID :=
                  ObjectIdHex
                    (saved_id sample.fresh_session sample.empty_world);
                Data := data; Modified := t |}
             (db sample.empty_world)
           = (None, db (snd res'))).
Proof.
  cbn zeta.
  assert (Hage : 0 <= gorilla.MaxAge (gorilla.Opts sample.fresh_session))
    by (vm_compute; discriminate).
  split; [exact Hage|]. split; [reflexivity|]. split; [reflexivity|]. split.
  - apply (proj1 (proj2 (proj1 C3_cookie_carries_id sample.mongo
                           sample.request sample.fresh_session
                           sample.empty_world Hage))).
    reflexivity.
  - apply (proj1 (proj2 (proj2 C3_cookie_carries_id sample.dal
                           sample.request sample.fresh_session
                           sample.empty_world Hage))).
    reflexivity.
Defined.

Lemma C4_witness :
  let session := gorilla.set_Options (gorilla.mkOptions "/" "" (-1) false false)
                   sample.saved_session in
  let res := mongostore.mongoStore_Save sample.mongo sample.returning_request
               session sample.saved_world in
  gorilla.MaxAge (gorilla.Opts session) < 0
  /\ fst (fst res) = None
  /\ response (snd res) =
       response sample.saved_world
       ++ [mkCookie (gorilla.Name session) "" (gorilla.Opts session)].
Proof.
  cbn zeta.
  assert (Hage : gorilla.MaxAge
                   (gorilla.Opts
                      (gorilla.set_Options
                         (gorilla.mkOptions "/" "" (-1) false false)
                         sample.saved_session)) < 0) by reflexivity.
  split; [exact Hage|]. split; [reflexivity|].
  apply (proj1 (C4_expired_or_fresh sample.mongo sample.returning_request
                  (gorilla.set_Options
                     (gorilla.mkOptions "/" "" (-1) false false)
                     sample.saved_session)
                  sample.saved_world) Hage).
  reflexivity.
Defined.

Lemma C2_witness :
  cookie_loads (mongostore.store_Codecs sample.mongo) "app" "sessions"
    sample.returning_request "my_session" sample.saved_world
  /\ gorilla.IsNew (fst (fst (mongostore.mongoStore_New sample.mongo
                                sample.returning_request "my_session"
                                sample.saved_world))) = false.
Proof.
  assert (Hl : cookie_loads (mongostore.store_Codecs sample.mongo)
                 "app" "sessions" sample.returning_request "my_session"
                 sample.saved_world).
  { exists "my_session|507f1f77bcf86cd799439011", "507f1f77bcf86cd799439011",
      {| doc_ID := ""; Data := "my_session|hello=world";
         Modified := 1700000000 |}, sample.hello.
    repeat split; reflexivity. }
  split; [exact Hl|].
  apply (proj1 C2_New_IsNew sample.mongo sample.returning_request
           "my_session" sample.saved_world).
  exact Hl.
Defined.




Lemma C10_witness :
  let st := initial "my_session" sample.store sample.request [] in
  marks (Called (OFlashes []) (fst (call (OFlashes []) st)), st)
  /\ s_written (self (snd (call (OFlashes []) st))) = true.
Proof.
  cbn zeta.
  assert (Hm : marks (Called (OFlashes [])
                        (fst (call (OFlashes [])
                                (initial "my_session" sample.store
                                   sample.request []))),
                      initial "my_session" sample.store sample.request []))
    by exact I.
  split; [exact Hm|].
  apply (proj1 (proj2 (@C10_written_flag (list Cookie) sample.flash))
           (OFlashes [])
           (initial "my_session" sample.store sample.request [])).
  exact Hm.
Defined.

(** The request of sessions_test.go, step by step: [Get] is asked by the
    call of [Set], [Save] by the write, with the request that carries the
    context. *)
Example Sessions_trace_test :
  let run := Sessions "my_session" sample.store 7%nat sample.request
               sample.test_handler [] in
  events (snd run) =
    [CallGet sample.request "my_session";
     CallSave (with_session sample.request 7%nat)
       (gorilla.set_Values sample.hello (gorilla.NewSession "my_session"))].
Proof. reflexivity. Qed.

(** * Further properties *)

(** ** The session methods against the interface *)

Section SessionExtras.
Context {W : Type} {flash : Flash}.
Implicit Types (st : state W) (store : Store W) (g : gorilla.Session).

Lemma set_Values_same g : gorilla.set_Values (gorilla.Values g) g = g.
Proof. now destruct g. Qed.

Lemma cleared_empty m : entries m = [] -> cleared m = m.
Proof. destruct m as [|l]; cbn; [reflexivity|]. now intros ->. Qed.

Lemma index_put_ne k k' v l :
  key_eqb k k' = false ->
  index (make_map (map_put k v l)) k' = index (make_map l) k'.
Proof.
  intros Hne. unfold index, lookup, values_lookup. cbn [entries].
  now rewrite assoc_put_ne.
Qed.

Lemma index_drop_ne k k' m :
  key_eqb k k' = false -> index (drop k m) k' = index m k'.
Proof.
  intros Hne. unfold index, lookup, values_lookup.
  destruct m; cbn [drop entries]; [reflexivity|].
  now rewrite assoc_drop_ne.
Qed.

(** Where both keys can be hashed, [iface_eqb] is [key_eqb]. *)
Lemma map_index_put_ne key other k val l :
  iface_eqb key other = false -> hash key = Some k ->
  map_index (make_map (map_put k val l)) other = map_index (make_map l) other.
Proof.
  unfold iface_eqb, map_index. intros Hne Hk. rewrite Hk in Hne.
  destruct (hash other) as [k'|]; [|reflexivity].
  now rewrite index_put_ne.
Qed.

Lemma map_index_drop_ne key other k m :
  iface_eqb key other = false -> hash key = Some k ->
  map_index (drop k m) other = map_index m other.
Proof.
  unfold iface_eqb, map_index. intros Hne Hk. rewrite Hk in Hne.
  destruct (hash other) as [k'|]; [|reflexivity].
  now rewrite index_drop_ne.
Qed.

(** X1.  Keys do not interfere: on a session that is there, after
    [Set(key, val)] or [Delete(key)], whether it returned or panicked,
    [Get] of any key that is not equal to [key] ends as it would have
    ended before, with the same value if it returns. *)
Theorem session_keys_independent st g key val other :
  cur st = Some g ->
  iface_eqb key other = false ->
  fst (session_Get other (snd (session_Set key val st)))
  = fst (session_Get other st)
  /\ fst (session_Get other (snd (session_Delete key st)))
     = fst (session_Get other st).
Proof.
  intros Hg Hne.
  assert (Hload : fst (session_Get other (load st))
                  = map_index (gorilla.Values g) other).
  { apply Get_cached. now rewrite load_session. }
  rewrite Set_eq, Delete_eq, (Get_eq other st), Hg. split.
  - destruct (map_assign _ _ _) as [m|] eqn:Ha; cbn [fst snd];
      [|exact Hload].
    apply map_assign_returned in Ha as (k & l & Hk & Hv & ->).
    erewrite Get_cached by reflexivity.
    cbn [gorilla.Values gorilla.set_Values].
    rewrite Hv. now apply map_index_put_ne with key.
  - destruct (map_delete _ _) as [m|] eqn:Ha; cbn [fst snd];
      [|exact Hload].
    apply map_delete_returned in Ha as (k & Hk & ->).
    erewrite Get_cached by reflexivity.
    cbn [gorilla.Values gorilla.set_Values].
    now apply map_index_drop_ne with key.
Qed.

(** X2.  The methods against the interface.  When the store has a
    session for the call, the call ends as [apply] says and leaves cached
    the session [apply] says: in particular [Clear] leaves the entries
    whose key is not equal to itself, and a call that panics in gorilla
    leaves what gorilla had done by then.  When the store has none, the
    call panics and nothing is cached.  Either way the call touches the
    world and the log only through [s.Session()]. *)
Theorem call_follows_interface o st :
  (forall g, cur st = Some g ->
     fst (call o st) = fst (apply o g)
     /\ s_session (self (snd (call o st))) = Some (snd (apply o g)))
  /\ (cur st = None ->
      fst (call o st) = Panicked
      /\ s_session (self (snd (call o st))) = None)
  /\ world (snd (call o st)) = world (load st)
  /\ events (snd (call o st)) = events (load st).
Proof.
  destruct (call_frame o st) as (He & Hw & _ & _ & _ & Hnone).
  split; [|split; [|auto]].
  - intros g Hg. pose proof (load_session st) as Hl. rewrite Hg in Hl.
    destruct o; cbn [call apply]; unfold bind, ret;
      rewrite ?Get_eq, ?Set_eq, ?Delete_eq, ?Clear_eq, ?AddFlash_eq,
              ?Flashes_eq, ?Options_eq, ?Hg.
    + cbn. auto.
    + destruct (map_assign _ _ _); cbn; auto.
    + destruct (map_delete _ _); cbn; auto.
    + destruct (entries (gorilla.Values g)) eqn:Hent; cbn; [|auto].
      now rewrite Hl, (cleared_empty _ Hent), set_Values_same.
    + destruct (fst (gAddFlash _ _ _)); cbn; auto.
    + cbn. auto.
    + cbn. auto.
  - intros Hn. split; [|now apply Hnone].
    destruct o; cbn [call]; unfold bind, ret;
      rewrite ?Get_eq, ?Set_eq, ?Delete_eq, ?Clear_eq, ?AddFlash_eq,
              ?Flashes_eq, ?Options_eq, ?Hn; reflexivity.
Qed.

Lemma load_world st :
  s_session (self st) = None ->
  world (load st) =
    snd (Get (s_store (self st)) (s_request (self st)) (s_name (self st))
             (world st)).
Proof. intros Hn. unfold load. now rewrite (Session_first st Hn). Qed.

Lemma step_quiet r (c : step * state W) :
  asks c = false -> saves c = false -> world (after r c) = world (snd c).
Proof.
  destruct c as [[o res|res] st]; unfold asks, saves, after; cbn [fst snd].
  - destruct (s_session (self st)) as [g|] eqn:Hg; [|discriminate].
    intros _ _. destruct (call_frame o st) as (_ & -> & _).
    now rewrite (load_cached st g Hg).
  - destruct (s_written (self st)) eqn:Hw.
    + destruct (s_session (self st)) as [g|] eqn:Hg; [|discriminate].
      rewrite (cur_cached st g Hg). discriminate.
    + intros _ _. now rewrite beforeHook_unwritten.
Qed.

(** X3.  What a request does to the store and to the log.  The steps of
    the request follow one another, each ending as recorded.  The log is
    the events of the steps in order: a step that finds no session cached
    (a call, or a run of the hook with the flag set) calls [Get] with the
    name and the request as the middleware got it and prints its error,
    if any; a run of the hook with the flag set that has a session calls
    [Save] with the request that carries the context and prints its
    error, if any; nothing else is called or printed.  [Get] is asked in
    the world as it is then, and what it returns is the session of the
    step; a step that calls neither [Get] nor [Save] leaves the world of
    the store as it found it. *)
Theorem Sessions_trace name store a r next w :
  let r' := with_session r a in
  let trace := fst (Sessions name store a r next w) in
  let st := snd (Sessions name store a r next w) in
  linked r' (initial name store r w) trace st
  /\ events st = flat_map (trail r') trace
  /\ Forall (fun c => s_name (self (snd c)) = name
                      /\ s_request (self (snd c)) = r
                      /\ s_store (self (snd c)) = store) trace
  /\ (forall c, c ∈ trace -> asks c = true ->
        cur (snd c) = fst (fst (Get store r name (world (snd c))))
        /\ world (load (snd c)) = snd (Get store r name (world (snd c))))
  /\ (forall c, c ∈ trace -> asks c = false -> saves c = false ->
        world (after r' c) = world (snd c)).
Proof.
  cbn zeta.
  pose proof (Sessions_linked name store a r next w) as Hl.
  destruct (linked_config _ _ _ _ Hl) as (Hcfg & _).
  split; [exact Hl|]. split; [apply Sessions_events|].
  split; [exact Hcfg|]. split.
  - intros c Hc Ha. rewrite Forall_forall in Hcfg.
    destruct (Hcfg c Hc) as (Hn & Hr & Hs). cbn in Hn, Hr, Hs.
    assert (Hnone : s_session (self (snd c)) = None).
    { unfold asks in Ha. now destruct (s_session (self (snd c))). }
    rewrite (cur_first _ Hnone), (load_world _ Hnone), Hn, Hr, Hs. auto.
  - intros c _. apply step_quiet.
Qed.

End SessionExtras.

(** ** [dalStore]: the id guard, expiry and errors *)

Section DalExtras.
Context {cdc : Codec} {bck : Backend}.
Import dalstore.
Implicit Types (d : dalStore) (session : gorilla.Session) (w : dbworld).

(** *** The guard on the session id *)

Lemma dal_load_invalid d session w :
  IsObjectIdHex (gorilla.ID session) = false ->
  dalStore_load d session w = (false, Some ErrInvalidId, session, w).
Proof. intros Hid. unfold dalStore_load. now rewrite Hid. Qed.

Lemma dal_delete_invalid d session w :
  IsObjectIdHex (gorilla.ID session) = false ->
  dalStore_delete d session w = (Some ErrInvalidId, w).
Proof. intros Hid. unfold dalStore_delete. now rewrite Hid. Qed.

(** X4.  [dalStore] guards the session id like [mongoStore]: with an id
    that is not an object-id hex, [load], [save] and [delete] return
    [ErrInvalidId] at once, leaving the world, and so the database and
    the accesses to it, as well as the session, as they were. *)
Theorem dal_invalid_id d session w :
  IsObjectIdHex (gorilla.ID session) = false ->
  dalStore_load d session w = (false, Some ErrInvalidId, session, w)
  /\ dalStore_save d session w = (Some ErrInvalidId, w)
  /\ dalStore_delete d session w = (Some ErrInvalidId, w).
Proof.
  intros Hid.
  split; [|split];
    [apply dal_load_invalid|apply dal_save_invalid|apply dal_delete_invalid]; exact Hid.
Qed.

(** *** [delete] and [save], step by step *)

Lemma dal_delete_valid d session w :
  IsObjectIdHex (gorilla.ID session) = true ->
  dalStore_delete d session w =
    remove (database d) (collection d) (ObjectIdHex (gorilla.ID session)) w.
Proof. intros Hid. unfold dalStore_delete. now rewrite Hid. Qed.

(** Neither touches the response, the clock or the counter. *)
Lemma dal_delete_response d session w :
  response (snd (dalStore_delete d session w)) = response w
  /\ counter (snd (dalStore_delete d session w)) = counter w.
Proof.
  unfold dalStore_delete, remove.
  destruct (IsObjectIdHex _); cbn; [|auto].
  now destruct (RemoveId _ _ _ _).
Qed.

Lemma dal_save_response d session w :
  response (snd (dalStore_save d session w)) = response w
  /\ counter (snd (dalStore_save d session w)) = counter w.
Proof.
  destruct (IsObjectIdHex (gorilla.ID session)) eqn:Hid.
  - rewrite (dal_save_valid _ _ _ Hid).
    destruct (modified_of session w); [now cbn|].
    destruct (EncodeMulti_values _ _ _); [now cbn|].
    unfold upsert. now destruct (UpsertId _ _ _ _ _).
  - now rewrite (dal_save_invalid d session w Hid).
Qed.

(** *** [Save], step by step *)

Lemma dal_Save_expired d r session w :
  gorilla.MaxAge (gorilla.Opts session) < 0 ->
  dalStore_Save d r session w =
    match fst (dalStore_delete d session w) with
    | Some e => (Some e, session, snd (dalStore_delete d session w))
    | None =>
        (None, session,
         snd (set_token (gorilla.Name session) "" (gorilla.Opts session)
                        (snd (dalStore_delete d session w))))
    end.
Proof.
  intros Hage. apply Z.ltb_lt in Hage.
  unfold dalStore_Save. rewrite Hage. unfold bind, ret.
  now destruct (dalStore_delete d session w) as [[e|] w1].
Qed.

Lemma dal_delete_error d session w e :
  fst (dalStore_delete d session w) = Some e
  <-> IsObjectIdHex (gorilla.ID session) = false /\ e = ErrInvalidId
      \/ IsObjectIdHex (gorilla.ID session) = true
         /\ fst (RemoveId (database d) (collection d)
                   (ObjectIdHex (gorilla.ID session)) (db w)) = Some e.
Proof.
  destruct (IsObjectIdHex (gorilla.ID session)) eqn:Hid.
  - rewrite (dal_delete_valid _ _ _ Hid). unfold remove.
    destruct (RemoveId _ _ _ _). cbn. intuition discriminate.
  - rewrite (dal_delete_invalid _ _ _ Hid). cbn.
    split; [intros [= <-]; auto|]. intros [[_ ->]|[? _]]; congruence.
Qed.

Lemma dal_save_error d session w e :
  fst (dalStore_save d session w) = Some e
  <-> IsObjectIdHex (gorilla.ID session) = false /\ e = ErrInvalidId
      \/ IsObjectIdHex (gorilla.ID session) = true
         /\ (modified_of session w = inl e
             \/ (exists t,
                   modified_of session w = inr t
                   /\ EncodeMulti_values (gorilla.Name session)
                        (gorilla.Values session) (store_Codecs d) = inl e)
             \/ (exists t data,
                   modified_of session w = inr t
                   /\ EncodeMulti_values (gorilla.Name session)
                        (gorilla.Values session) (store_Codecs d) = inr data
                   /\ fst (UpsertId (database d) (collection d)
                             (ObjectIdHex (gorilla.ID session))
                             {| doc_ID := ObjectIdHex (gorilla.ID session); Data := data; Modified := t |}
                             (db w)) = Some e)).
Proof.
  destruct (IsObjectIdHex (gorilla.ID session)) eqn:Hid.
  - rewrite (dal_save_valid _ _ _ Hid).
    destruct (modified_of session w) as [e'|t] eqn:Hm.
    { cbn. split.
      - intros [= <-]. auto.
      - intros [[? _]|[_ [?|[(? & ? & _)|(? & ? & ? & _)]]]]; congruence. }
    destruct (EncodeMulti_values _ _ _) as [e'|data] eqn:Hv.
    { cbn. split.
      - intros [= <-]. right. split; [reflexivity|]. right. left. eauto.
      - intros [[? _]|[_ [?|[(? & ? & ?)|(? & ? & ? & ? & _)]]]]; congruence. }
    unfold upsert. destruct (UpsertId _ _ _ _ _) as [err d'] eqn:Hu. cbn.
    split.
    + intros ->. right. split; [reflexivity|]. right. right.
      exists t, data. rewrite Hu. auto.
    + intros [[? _]|[_ [?|[(? & ? & ?)|(t' & data' & Ht & Hd & He)]]]];
        try congruence.
      injection Ht as <-. injection Hd as <-. now rewrite Hu in He.
  - rewrite (dal_save_invalid _ _ _ Hid). cbn.
    split; [intros [= <-]; auto|]. intros [[_ ->]|[? _]]; congruence.
Qed.

(** X5.  [dalStore.Save] returns an error exactly when one of its steps
    fails, and the error is then the one that step returned: [delete] for
    an expired session, else [save], else the encoding of the id, each
    traced down to the driver's remove and upsert and the encoding of the
    values.  Whenever it returns an error, the response carries no new
    cookie; when the response has changed, every earlier step succeeded. *)
Theorem dal_Save_error d r session w :
  let res := dalStore_Save d r session w in
  let session' := fst (assign_id session w) in
  let w1 := snd (assign_id session w) in
  (forall e, fst (fst res) = Some e
     <-> gorilla.MaxAge (gorilla.Opts session) < 0
         /\ fst (dalStore_delete d session w) = Some e
         \/ 0 <= gorilla.MaxAge (gorilla.Opts session)
            /\ fst (dalStore_save d session' w1) = Some e
         \/ 0 <= gorilla.MaxAge (gorilla.Opts session)
            /\ fst (dalStore_save d session' w1) = None
            /\ EncodeMulti_string (gorilla.Name session')
                 (gorilla.ID session') (store_Codecs d) = inl e)
  /\ (forall e, fst (fst res) = Some e -> response (snd res) = response w)
  /\ (response (snd res) <> response w ->
      fst (fst res) = None
      /\ (gorilla.MaxAge (gorilla.Opts session) < 0
          /\ fst (dalStore_delete d session w) = None
          \/ 0 <= gorilla.MaxAge (gorilla.Opts session)
             /\ fst (dalStore_save d session' w1) = None
             /\ exists encoded,
                  EncodeMulti_string (gorilla.Name session')
                    (gorilla.ID session') (store_Codecs d) = inr encoded))
  /\ (forall session w e,
        fst (dalStore_delete d session w) = Some e
        <-> IsObjectIdHex (gorilla.ID session) = false /\ e = ErrInvalidId
            \/ IsObjectIdHex (gorilla.ID session) = true
               /\ fst (RemoveId (database d) (collection d)
                         (ObjectIdHex (gorilla.ID session)) (db w)) = Some e)
  /\ (forall session w e,
        fst (dalStore_save d session w) = Some e
        <-> IsObjectIdHex (gorilla.ID session) = false /\ e = ErrInvalidId
            \/ IsObjectIdHex (gorilla.ID session) = true
               /\ (modified_of session w = inl e
                   \/ (exists t,
                         modified_of session w = inr t
                         /\ EncodeMulti_values (gorilla.Name session)
                              (gorilla.Values session) (store_Codecs d)
                            = inl e)
                   \/ (exists t data,
                         modified_of session w = inr t
                         /\ EncodeMulti_values (gorilla.Name session)
                              (gorilla.Values session) (store_Codecs d)
                            = inr data
                         /\ fst (UpsertId (database d) (collection d)
                                   (ObjectIdHex (gorilla.ID session))
                                   {| doc_ID := ObjectIdHex (gorilla.ID session); Data := data;
                                      Modified := t |}
                                   (db w)) = Some e))).
Proof.
  cbn zeta.
  assert (Hquiet : forall s' w', response (snd (dalStore_save d s' w'))
                                 = response w') by (intros; apply dal_save_response).
  pose proof (assign_id_eq session w) as (_ & _ & _ & _ & _ & _ & Hresp & _).
  split; [|split; [|split; [|split; [apply dal_delete_error|apply dal_save_error]]]].
  - intros e.
    destruct (Z.lt_ge_cases (gorilla.MaxAge (gorilla.Opts session)) 0)
      as [Hage|Hage].
    + rewrite (dal_Save_expired d r session w Hage).
      destruct (fst (dalStore_delete d session w)) as [e'|] eqn:Hd;
        cbn [fst snd]; split; try discriminate; try lia; auto.
      * intros [[_ ?]|[[? _]|[? _]]]; [assumption|lia|lia].
      * intros [[_ ?]|[[? _]|[? _]]]; [discriminate|lia|lia].
    + rewrite (dal_Save_kept d r session w Hage).
      destruct (fst (dalStore_save d _ _)) as [e'|] eqn:Hs; cbn [fst snd].
      * split; [auto|].
        intros [[? _]|[[_ ?]|(_ & ? & _)]]; [lia|assumption|discriminate].
      * destruct (EncodeMulti_string _ _ _) as [e'|encoded] eqn:He;
          cbn [fst snd]; split; try discriminate.
        -- intros [= <-]. auto.
        -- intros [[? _]|[[_ ?]|(_ & _ & ?)]]; [lia|discriminate|congruence].
        -- intros [[? _]|[[_ ?]|(_ & _ & ?)]]; [lia|discriminate|discriminate].
  - intros e.
    destruct (Z.lt_ge_cases (gorilla.MaxAge (gorilla.Opts session)) 0)
      as [Hage|Hage].
    + rewrite (dal_Save_expired d r session w Hage).
      destruct (fst (dalStore_delete d session w)) as [e'|] eqn:Hd;
        cbn [fst snd]; [|discriminate].
      intros _. apply dal_delete_response.
    + rewrite (dal_Save_kept d r session w Hage).
      destruct (fst (dalStore_save d _ _)) as [e'|] eqn:Hs; cbn [fst snd].
      * intros _. now rewrite Hquiet.
      * destruct (EncodeMulti_string _ _ _) as [e'|encoded] eqn:He;
          cbn [fst snd]; [|discriminate].
        intros _. now rewrite Hquiet.
  - destruct (Z.lt_ge_cases (gorilla.MaxAge (gorilla.Opts session)) 0)
      as [Hage|Hage].
    + rewrite (dal_Save_expired d r session w Hage).
      destruct (fst (dalStore_delete d session w)) as [e'|] eqn:Hd;
        cbn [fst snd].
      * intros Hr. exfalso. apply Hr. apply dal_delete_response.
      * intros _. split; [reflexivity|]. left. auto.
    + rewrite (dal_Save_kept d r session w Hage).
      destruct (fst (dalStore_save d _ _)) as [e'|] eqn:Hs; cbn [fst snd].
      * intros Hr. exfalso. apply Hr. now rewrite Hquiet.
      * destruct (EncodeMulti_string _ _ _) as [e'|encoded] eqn:He;
          cbn [fst snd].
        -- intros Hr. exfalso. apply Hr. now rewrite Hquiet.
        -- intros _. split; [reflexivity|]. right. eauto.
Qed.

(** X6.  On a session whose [MaxAge] is negative, [dalStore.Save] asks
    [delete] to remove the document of the session's id, performs no
    upsert, generates no id and leaves the session as it is; it sets the
    cookie to the empty value exactly when the delete succeeded, and sets
    none otherwise.  On a session with a non-negative [MaxAge] and an
    empty id, it first assigns the hex of a new object id, and any upsert
    it goes on to make is under that id. *)
Theorem dal_expired_or_fresh d r session w :
  let res := dalStore_Save d r session w in
  let oid := ObjectIdHex (gorilla.ID session) in
  (gorilla.MaxAge (gorilla.Opts session) < 0 ->
     snd (fst res) = session
     /\ counter (snd res) = counter w
     /\ accesses (snd res) =
          accesses w ++
          (if IsObjectIdHex (gorilla.ID session)
           then [Remove (database d) (collection d) oid] else [])
     /\ (fst (fst res) = None
         <-> IsObjectIdHex (gorilla.ID session) = true
             /\ fst (RemoveId (database d) (collection d) oid (db w)) = None)
     /\ (fst (fst res) = None ->
           db (snd res) = snd (RemoveId (database d) (collection d) oid (db w))
           /\ response (snd res) =
                response w ++ [mkCookie (gorilla.Name session) ""
                                        (gorilla.Opts session)])
     /\ (fst (fst res) <> None -> response (snd res) = response w))
  /\ (0 <= gorilla.MaxAge (gorilla.Opts session) ->
      gorilla.ID session = "" ->
      let fresh := Hex (NewObjectId (counter w)) in
      snd (fst res) = gorilla.set_ID fresh session
      /\ counter (snd res) = S (counter w)
      /\ forall a, a ∈ accesses (snd res) ->
           a ∈ accesses w
           \/ exists doc,
                a = Upsert (database d) (collection d) (ObjectIdHex fresh) doc).
Proof.
  cbn zeta. split.
  - intros Hage. rewrite (dal_Save_expired d r session w Hage).
    destruct (IsObjectIdHex (gorilla.ID session)) eqn:Hid.
    + rewrite (dal_delete_valid _ _ _ Hid). unfold remove.
      destruct (RemoveId _ _ _ _) as [[e|] d']; cbn;
        repeat split; try tauto; try discriminate; intuition discriminate.
    + rewrite (dal_delete_invalid _ _ _ Hid). cbn. rewrite app_nil_r.
      repeat split; try tauto; try discriminate; intuition discriminate.
  - intros Hage Hid. rewrite (dal_Save_kept d r session w Hage).
    pose proof (assign_id_eq session w) as (_ & _ & _ & _ & _ & Ha & _ & _ & Hn).
    rewrite decide_True in Hn by exact Hid.
    assert (Hs1 : fst (assign_id session w)
                  = gorilla.set_ID (Hex (NewObjectId (counter w))) session).
    { unfold assign_id. now rewrite decide_True by exact Hid. }
    rewrite Hs1.
    set (s1 := gorilla.set_ID _ session).
    set (w1 := snd (assign_id session w)) in *.
    assert (Hacc : forall a, a ∈ accesses (snd (dalStore_save d s1 w1)) ->
              a ∈ accesses w
              \/ exists doc, a = Upsert (database d) (collection d)
                                   (ObjectIdHex (gorilla.ID s1)) doc).
    { intros a. destruct (IsObjectIdHex (gorilla.ID s1)) eqn:Hv.
      - rewrite (dal_save_valid _ _ _ Hv).
        destruct (modified_of s1 w1); [cbn; rewrite Ha; auto|].
        destruct (EncodeMulti_values _ _ _); [cbn; rewrite Ha; auto|].
        unfold upsert. destruct (UpsertId _ _ _ _ _). cbn. rewrite Ha.
        intros [Hin|Hin]%elem_of_app; [auto|].
        apply list_elem_of_singleton in Hin. eauto.
      - rewrite (dal_save_invalid _ _ _ Hv). cbn. rewrite Ha. auto. }
    pose proof (dal_save_response d s1 w1) as [_ Hc]. rewrite Hn in Hc.
    destruct (fst (dalStore_save d s1 w1)) as [e|]; cbn [fst snd];
      [auto|].
    destruct (EncodeMulti_string _ _ _); cbn [fst snd]; auto.
Qed.

End DalExtras.

(** ** [New]: what it reads, what it returns *)

Section NewExtras.
Context {cdc : Codec} {bck : Backend}.
Implicit Types (r : Request) (session : gorilla.Session) (w : dbworld).

Ltac through_New :=
  unfold New_access;
  unfold mongostore.mongoStore_New, mongostore.mongoStore_load,
         dalstore.dalStore_New, dalstore.dalStore_load, find;
  match goal with
  | |- context [sessions.GetToken ?r ?name] =>
      destruct (sessions.GetToken r name) as [errToken|cook] eqn:Htoken
  end; cbn;
  [| match goal with
     | |- context [DecodeMulti_string ?n ?c ?d ?cs] =>
         destruct (DecodeMulti_string n c d cs) as [[e1|] sid] eqn:Hdecode
     end; cbn;
     [| match goal with
        | |- context [IsObjectIdHex ?i] =>
            destruct (IsObjectIdHex i) eqn:Hid
        end; cbn; unfold bind, ret; cbn;
        [ match goal with
          | |- context [FindId ?a ?b ?c ?d] =>
              destruct (FindId a b c d) as [e2|doc] eqn:Hfind
          end; cbn;
          [| match goal with
             | |- context [DecodeMulti_values ?n ?c ?d ?cs] =>
                 destruct (DecodeMulti_values n c d cs) as [[e3|] vals]
                   eqn:Hvalues
             end; cbn ]
        |] ] ].

(** X7.  [New] only reads.  For [mongoStore] and [dalStore] alike it
    leaves the database, the response, the clock and the id counter as
    they were, and it makes at most one access to the database: a look-up
    by id, made exactly when the request carries the cookie, the cookie
    decodes and the id is an object-id hex. *)
Theorem New_only_reads :
  (forall (m : mongostore.mongoStore) r name w,
     let w' := snd (mongostore.mongoStore_New m r name w) in
     db w' = db w /\ response w' = response w
     /\ clock w' = clock w /\ counter w' = counter w
     /\ accesses w' =
          accesses w ++ New_access (mongostore.store_Codecs m)
                          (mongostore.database m) (mongostore.collection m)
                          r name)
  /\ (forall (d : dalstore.dalStore) r name w,
     let w' := snd (dalstore.dalStore_New d r name w) in
     db w' = db w /\ response w' = response w
     /\ clock w' = clock w /\ counter w' = counter w
     /\ accesses w' =
          accesses w ++ New_access (dalstore.store_Codecs d)
                          (dalstore.database d) (dalstore.collection d)
                          r name).
Proof.
  split; intros s r name w; cbn zeta; through_New;
    rewrite ?app_nil_r; auto 10.
Qed.

(** X8.  The session [New] returns, for both stores.  It bears the name
    asked for.  Without a cookie it is empty: no id, no values, new.
    With a cookie its id is whatever decoding left in it, also when
    decoding or the look-up failed; its values are those decoded from the
    document when the look-up succeeded, and none when the cookie did not
    decode, the id is no object-id hex, or no document was found. *)
Theorem New_session_content :
  (forall (m : mongostore.mongoStore) r name w,
     let g := fst (fst (mongostore.mongoStore_New m r name w)) in
     let codecs := mongostore.store_Codecs m in
     gorilla.Name g = name
     /\ (forall e, sessions.GetToken r name = inl e ->
           gorilla.ID g = "" /\ gorilla.Values g = ∅
           /\ gorilla.IsNew g = true)
     /\ (forall cook, sessions.GetToken r name = inr cook ->
           gorilla.ID g = snd (DecodeMulti_string name cook "" codecs)
           /\ (forall doc,
                 DecodeMulti_string name cook "" codecs
                   = (None, gorilla.ID g) ->
                 IsObjectIdHex (gorilla.ID g) = true ->
                 FindId (mongostore.database m) (mongostore.collection m)
                        (ObjectIdHex (gorilla.ID g)) (db w) = inr doc ->
                 gorilla.Values g =
                   snd (DecodeMulti_values name (Data doc) ∅ codecs))
           /\ (fst (DecodeMulti_string name cook "" codecs) <> None
               \/ IsObjectIdHex (gorilla.ID g) = false
               \/ (exists e,
                     FindId (mongostore.database m) (mongostore.collection m)
                            (ObjectIdHex (gorilla.ID g)) (db w) = inl e) ->
               gorilla.Values g = ∅ /\ gorilla.IsNew g = true)))
  /\ (forall (d : dalstore.dalStore) r name w,
     let g := fst (fst (dalstore.dalStore_New d r name w)) in
     let codecs := dalstore.store_Codecs d in
     gorilla.Name g = name
     /\ (forall e, sessions.GetToken r name = inl e ->
           gorilla.ID g = "" /\ gorilla.Values g = ∅
           /\ gorilla.IsNew g = true)
     /\ (forall cook, sessions.GetToken r name = inr cook ->
           gorilla.ID g = snd (DecodeMulti_string name cook "" codecs)
           /\ (forall doc,
                 DecodeMulti_string name cook "" codecs
                   = (None, gorilla.ID g) ->
                 IsObjectIdHex (gorilla.ID g) = true ->
                 FindId (dalstore.database d) (dalstore.collection d)
                        (ObjectIdHex (gorilla.ID g)) (db w) = inr doc ->
                 gorilla.Values g =
                   snd (DecodeMulti_values name (Data doc) ∅ codecs))
           /\ (fst (DecodeMulti_string name cook "" codecs) <> None
               \/ IsObjectIdHex (gorilla.ID g) = false
               \/ (exists e,
                     FindId (dalstore.database d) (dalstore.collection d)
                            (ObjectIdHex (gorilla.ID g)) (db w) = inl e) ->
               gorilla.Values g = ∅ /\ gorilla.IsNew g = true))).
Proof.
  split; intros s r name w; cbn zeta; through_New.
  all: split; [reflexivity|]; split;
    [intros e0 He0; try discriminate; auto|intros c Hc; try discriminate].
  all: injection Hc as <-; rewrite Hdecode; cbn [fst snd].
  all: split; [reflexivity|]; split.
  all: try (intros dc Hd Hv Hf; congruence).
  all: try (intros _; now auto).
  all: try (intros dc Hd Hv Hf; rewrite Hfind in Hf; injection Hf as <-;
            now rewrite Hvalues).
  all: intros [Hn|[Hn|[e0 Hn]]]; congruence.
Qed.

(** X9.  Which options of the store a session starts with.  After
    [Options(o)], a session from [mongoStore.New] has the [Path] and the
    [MaxAge] of [o] and nothing else of it: [Domain] is empty, [Secure]
    and [HttpOnly] are false.  A session from [dalStore.New] has all five
    fields of [o]. *)
Theorem New_session_options :
  (forall (m : mongostore.mongoStore) o r name w,
     gorilla.Opts (fst (fst (mongostore.mongoStore_New
                               (mongostore.mongoStore_Options m o)
                               r name w)))
     = {| gorilla.Path := sessions.Path o; gorilla.Domain := "";
          gorilla.MaxAge := sessions.MaxAge o; gorilla.Secure := false;
          gorilla.HttpOnly := false |})
  /\ (forall (d : dalstore.dalStore) o r name w,
     gorilla.Opts (fst (fst (dalstore.dalStore_New
                               (dalstore.dalStore_Options d o) r name w)))
     = {| gorilla.Path := sessions.Path o;
          gorilla.Domain := sessions.Domain o;
          gorilla.MaxAge := sessions.MaxAge o;
          gorilla.Secure := sessions.Secure o;
          gorilla.HttpOnly := sessions.HTTPOnly o |}).
Proof.
  split; intros s o r name w; through_New; reflexivity.
Qed.

End NewExtras.

(** ** [mongoStore.Save]: what it touches, and what [New] finds after it *)

Section SaveExtras.
Context {cdc : Codec} {bck : Backend}.
Import mongostore.
Implicit Types (m : mongoStore) (r : Request) (session : gorilla.Session)
  (w : dbworld).

Lemma Save_success_valid m r session w :
  0 <= gorilla.MaxAge (gorilla.Opts session) ->
  fst (fst (mongoStore_Save m r session w)) = None ->
  IsObjectIdHex (saved_id session w) = true.
Proof.
  intros Hage. rewrite (Save_kept m r session w Hage).
  pose proof (assign_id_eq session w) as (Hid & _).
  destruct (IsObjectIdHex (saved_id session w)) eqn:Hv; [reflexivity|].
  rewrite <- Hid in Hv. now rewrite (save_invalid _ _ _ Hv).
Qed.

(** X10.  What is saved is what is loaded.  Let [Save] succeed on a
    session that is kept.  If the next request brings back the cookie that
    was set, the codec decodes what it encoded (the id, and the values
    into an empty map), and the database, once it has accepted a document
    for the id, returns one with that data, then [New] on that request
    returns a
    session that is not new, with no error, with the id that was saved
    under and the values that were saved. *)
Theorem Save_New_round_trip m r r' session w :
  let name := gorilla.Name session in
  let id := saved_id session w in
  let w' := snd (mongoStore_Save m r session w) in
  let g := fst (fst (mongoStore_New m r' name w')) in
  0 <= gorilla.MaxAge (gorilla.Opts session) ->
  fst (fst (mongoStore_Save m r session w)) = None ->
  (forall encoded,
      EncodeMulti_string name id (store_Codecs m) = inr encoded ->
      sessions.GetToken r' name = inr encoded
      /\ DecodeMulti_string name encoded "" (store_Codecs m) = (None, id)) ->
  (forall data,
      EncodeMulti_values name (gorilla.Values session) (store_Codecs m)
        = inr data ->
      DecodeMulti_values name data ∅ (store_Codecs m)
        = (None, gorilla.Values session)) ->
  (forall doc d',
      UpsertId (database m) (collection m) (ObjectIdHex id) doc (db w)
        = (None, d') ->
      exists doc',
        FindId (database m) (collection m) (ObjectIdHex id) d' = inr doc'
        /\ Data doc' = Data doc) ->
  gorilla.IsNew g = false
  /\ snd (fst (mongoStore_New m r' name w')) = None
  /\ gorilla.ID g = id
  /\ gorilla.Values g = gorilla.Values session.
Proof.
  cbn zeta. intros Hage Hok Hcookie Hvalues Hfind.
  pose proof (Save_success_valid m r session w Hage Hok) as Hvalid.
  destruct (Save_success m r session w Hage Hok)
    as (encoded & data & t & He & Hd & _ & _ & _ & Hu).
  destruct (Hcookie encoded He) as [Htoken Hdecode].
  destruct (Hfind _ _ Hu) as (doc' & Hf & Hdata).
  specialize (Hvalues data Hd).
  unfold mongoStore_New. rewrite Htoken. cbn. rewrite Hdecode. cbn.
  unfold mongoStore_load. cbn. rewrite Hvalid. cbn.
  unfold bind, find, ret. cbn. rewrite Hf, Hdata. cbn. rewrite Hvalues.
  cbn. auto.
Qed.

Lemma save_footprint m session w :
  clock (snd (mongoStore_save m session w)) = clock w
  /\ exists acc,
       accesses (snd (mongoStore_save m session w)) = accesses w ++ acc
       /\ (List.length acc <= 1)%nat
       /\ Forall (fun a =>
            exists data,
              a = Upsert (database m) (collection m)
                    (ObjectIdHex (gorilla.ID session))
                    {| doc_ID := ""; Data := data;
                       Modified := stamp session w |}) acc.
Proof.
  assert (Hnone : clock w = clock w
                  /\ exists acc : list access,
                       accesses w = accesses w ++ acc
                       /\ (List.length acc <= 1)%nat
                       /\ Forall (fun a =>
                            exists data,
                              a = Upsert (database m) (collection m)
                                    (ObjectIdHex (gorilla.ID session))
                                    {| doc_ID := ""; Data := data;
                                       Modified := stamp session w |}) acc).
  { split; [reflexivity|]. exists []. rewrite app_nil_r. cbn. auto. }
  destruct (IsObjectIdHex (gorilla.ID session)) eqn:Hid.
  2: { now rewrite (save_invalid _ _ _ Hid). }
  rewrite (save_valid _ _ _ Hid).
  destruct (modified_of session w) as [e|t] eqn:Hm; [exact Hnone|].
  destruct (EncodeMulti_values _ _ _) as [e|data]; [exact Hnone|].
  unfold upsert. destruct (UpsertId _ _ _ _ _) as [err d']. cbn.
  split; [reflexivity|]. eexists. split; [reflexivity|]. split; [cbn; lia|].
  constructor; [|constructor]. exists data. do 2 f_equal.
  unfold modified_of in Hm. unfold stamp.
  destruct (gorilla.Values session !! KStr "modified") as [[]|]; congruence.
Qed.

Lemma delete_footprint m session w :
  clock (snd (mongoStore_delete m session w)) = clock w
  /\ exists acc,
       accesses (snd (mongoStore_delete m session w)) = accesses w ++ acc
       /\ (List.length acc <= 1)%nat
       /\ Forall (fun a => exists id, a = Remove (database m) (collection m) id)
                 acc.
Proof.
  unfold mongoStore_delete, remove.
  destruct (IsObjectIdHex _); cbn.
  - destruct (RemoveId _ _ _ _). cbn. split; [reflexivity|].
    eexists. split; [reflexivity|]. split; [cbn; lia|].
    constructor; [eauto|constructor].
  - split; [reflexivity|]. exists []. rewrite app_nil_r. cbn. auto.
Qed.

(** X11.  What [Save] touches.  Of the session it changes nothing but,
    for a session that is kept, the id: values, options, name and [IsNew]
    are as before, also after a first save.  It leaves the clock alone and
    draws on the id counter only for a kept session without id.  It makes
    at most one access to the database, a removal when the session is
    expired and an upsert when it is kept, never a look-up; and it adds at
    most one cookie, and none unless it returns nil. *)
Theorem Save_footprint m r session w :
  let res := mongoStore_Save m r session w in
  let session' := snd (fst res) in
  let w' := snd res in
  let expired := gorilla.MaxAge (gorilla.Opts session) <? 0 in
  gorilla.Values session' = gorilla.Values session
  /\ gorilla.Opts session' = gorilla.Opts session
  /\ gorilla.Name session' = gorilla.Name session
  /\ gorilla.IsNew session' = gorilla.IsNew session
  /\ gorilla.ID session' =
       (if expired then gorilla.ID session else saved_id session w)
  /\ clock w' = clock w
  /\ counter w' =
       (if expired then counter w
        else if decide (gorilla.ID session = "") then S (counter w)
             else counter w)
  /\ exists acc cookies,
       accesses w' = accesses w ++ acc
       /\ response w' = response w ++ cookies
       /\ (List.length acc <= 1)%nat
       /\ (List.length cookies <= 1)%nat
       /\ Forall (Save_may expired) acc
       /\ (cookies <> [] -> fst (fst res) = None).
Proof.
  cbn zeta.
  destruct (Z.lt_ge_cases (gorilla.MaxAge (gorilla.Opts session)) 0)
    as [Hage|Hage].
  - rewrite (proj2 (Z.ltb_lt _ _) Hage).
    rewrite (Save_expired m r session w Hage).
    destruct (delete_footprint m session w) as (Hc & acc & Ha & Hl & Hf).
    destruct (delete_response m session w) as (Hr & Hn).
    assert (Hmay : Forall (Save_may true) acc).
    { eapply Forall_impl; [exact Hf|]. now intros a [id ->]. }
    destruct (fst (mongoStore_delete m session w)); cbn [fst snd].
    + repeat split; auto. exists acc, []. rewrite app_nil_r.
      repeat split; auto. congruence.
    + cbn. repeat split; auto. exists acc, [mkCookie (gorilla.Name session) ""
                                              (gorilla.Opts session)].
      unfold sessions.SetToken. rewrite Hr. repeat split; auto.
  - rewrite (proj2 (Z.ltb_ge _ _) Hage).
    rewrite (Save_kept m r session w Hage).
    pose proof (assign_id_eq session w)
      as (Hid & Hname & Hvals & Hopts & _ & Hacc & Hresp & Hclock & Hcount).
    set (s1 := fst (assign_id session w)) in *.
    set (w1 := snd (assign_id session w)) in *.
    assert (Hisnew : gorilla.IsNew s1 = gorilla.IsNew session).
    { unfold s1, assign_id. now destruct (decide _). }
    destruct (save_footprint m s1 w1) as (Hc & acc & Ha & Hl & Hf).
    destruct (save_response m s1 w1) as (Hr & Hn).
    assert (Hmay : Forall (Save_may false) acc).
    { eapply Forall_impl; [exact Hf|]. now intros a [data ->]. }
    rewrite Hacc in Ha. rewrite Hresp in Hr. rewrite Hclock in Hc.
    rewrite Hcount in Hn.
    destruct (fst (mongoStore_save m s1 w1)); cbn [fst snd].
    + repeat split; auto. exists acc, []. rewrite app_nil_r.
      repeat split; auto. congruence.
    + destruct (EncodeMulti_string _ _ _) as [e|encoded]; cbn [fst snd].
      * repeat split; auto. exists acc, []. rewrite app_nil_r.
        repeat split; auto. congruence.
      * cbn. repeat split; auto.
        exists acc, [mkCookie (gorilla.Name s1) encoded (gorilla.Opts s1)].
        unfold sessions.SetToken. rewrite Hr. repeat split; auto.
Qed.

(** X12.  The time a document is stamped with.  Every upsert [Save]
    makes for a session that is kept is under the id the session is saved
    under, of a document without id field whose [Modified] is the
    session's own ["modified"] value when that is a time, and the clock
    otherwise.  When ["modified"] holds anything but a time and the id is
    an object-id hex, [Save] returns [ErrInvalidModified]: the database
    and the response are untouched, yet the session keeps the id it was
    given. *)
Theorem Save_stamps_modified m r session w :
  let res := mongoStore_Save m r session w in
  let w' := snd res in
  let id := saved_id session w in
  0 <= gorilla.MaxAge (gorilla.Opts session) ->
  (exists acc,
     accesses w' = accesses w ++ acc
     /\ Forall (fun a =>
          exists data,
            a = Upsert (database m) (collection m) (ObjectIdHex id)
                  {| doc_ID := ""; Data := data;
                     Modified := stamp session w |}) acc)
  /\ (forall v,
        IsObjectIdHex id = true ->
        gorilla.Values session !! KStr "modified" = Some v ->
        (forall t, v <> Time t) ->
        fst (fst res) = Some ErrInvalidModified
        /\ accesses w' = accesses w
        /\ db w' = db w
        /\ response w' = response w
        /\ gorilla.ID (snd (fst res)) = id).
Proof.
  cbn zeta. intros Hage. rewrite (Save_kept m r session w Hage).
  pose proof (assign_id_eq session w)
    as (Hid & Hname & Hvals & Hopts & Hdb & Hacc & Hresp & Hclock & _).
  set (s1 := fst (assign_id session w)) in *.
  set (w1 := snd (assign_id session w)) in *.
  assert (Hstamp : stamp s1 w1 = stamp session w).
  { unfold stamp. now rewrite Hvals, Hclock. }
  split.
  - destruct (save_footprint m s1 w1) as (_ & acc & Ha & _ & Hf).
    rewrite Hacc, Hid, Hstamp in *.
    exists acc. split; [|exact Hf].
    destruct (fst (mongoStore_save m s1 w1)); cbn [fst snd]; [exact Ha|].
    destruct (EncodeMulti_string _ _ _); cbn [fst snd]; exact Ha.
  - intros v Hvalid Hv Hnot. rewrite <- Hid in Hvalid.
    rewrite (save_valid _ _ _ Hvalid).
    assert (Hm : modified_of s1 w1 = inl ErrInvalidModified).
    { unfold modified_of. rewrite Hvals, Hv.
      destruct v; try reflexivity. now destruct (Hnot t). }
    rewrite Hm. cbn. auto.
Qed.

(** X13.  After a save that expires the session, the old cookie no longer
    loads.  Let [Save] succeed on a session with a negative [MaxAge].  If
    a later request still carries a cookie that decodes to the session's
    id, and the database, once it has removed the document of an id, finds
    none for it, then [New] returns a session that is new and without
    values, with no error, which still bears that id. *)
Theorem expired_session_is_gone m r r' cook session w :
  let name := gorilla.Name session in
  let id := gorilla.ID session in
  let w' := snd (mongoStore_Save m r session w) in
  let g := fst (fst (mongoStore_New m r' name w')) in
  gorilla.MaxAge (gorilla.Opts session) < 0 ->
  fst (fst (mongoStore_Save m r session w)) = None ->
  sessions.GetToken r' name = inr cook ->
  DecodeMulti_string name cook "" (store_Codecs m) = (None, id) ->
  (forall d',
      RemoveId (database m) (collection m) (ObjectIdHex id) (db w)
        = (None, d') ->
      exists e,
        FindId (database m) (collection m) (ObjectIdHex id) d' = inl e) ->
  gorilla.IsNew g = true
  /\ snd (fst (mongoStore_New m r' name w')) = None
  /\ gorilla.Values g = ∅
  /\ gorilla.ID g = id.
Proof.
  cbn zeta. intros Hage Hok Htoken Hdecode Hgone.
  rewrite (Save_expired m r session w Hage) in *.
  destruct (IsObjectIdHex (gorilla.ID session)) eqn:Hvalid.
  2: { now rewrite (delete_invalid _ _ _ Hvalid) in Hok. }
  rewrite (delete_valid _ _ _ Hvalid) in *. unfold remove in *.
  destruct (RemoveId _ _ _ _) as [[e|] d'] eqn:Hrm; cbn [fst snd] in *;
    [discriminate|].
  destruct (Hgone d' eq_refl) as [e He].
  unfold mongoStore_New. rewrite Htoken. cbn. rewrite Hdecode. cbn.
  unfold mongoStore_load. cbn. rewrite Hvalid. cbn.
  unfold bind, find, ret. cbn. rewrite He. cbn. auto.
Qed.

End SaveExtras.

(** ** The revision of the session methods with nil checks *)

Section NilExtras.
Context {W : Type} {flash : Flash} {gctx : GContext W}.
Implicit Types (st : state W) (store : Store W) (g : gorilla.Session).

Lemma nil_run_Call hook o k st :
  sessions_nil.run hook (Call o k) st =
    ((Called o (fst (sessions_nil.call o st)), st)
       :: fst (sessions_nil.run hook (k (fst (sessions_nil.call o st)))
                 (snd (sessions_nil.call o st))),
     snd (sessions_nil.run hook (k (fst (sessions_nil.call o st)))
            (snd (sessions_nil.call o st)))).
Proof.
  unfold sessions_nil.run. cbn [run_chain]. unfold bind, gets, ret.
  destruct (sessions_nil.call o st) as [res st1]. cbn [fst snd].
  now destruct (run_chain sessions_nil.call hook (k res) st1).
Qed.

Lemma nil_run_Write hook k st :
  sessions_nil.run hook (Write k) st =
    ((Wrote (fst (hook st)), st)
       :: fst (sessions_nil.run hook (k (fst (hook st))) (snd (hook st))),
     snd (sessions_nil.run hook (k (fst (hook st))) (snd (hook st)))).
Proof.
  unfold sessions_nil.run. cbn [run_chain]. unfold bind, gets, ret.
  destruct (hook st) as [res st1]. cbn [fst snd].
  now destruct (run_chain sessions_nil.call hook (k res) st1).
Qed.

(** Without a session every method returns its zero value, having done
    no more than ask the store. *)
Lemma nil_call_none o st :
  cur st = None ->
  sessions_nil.call o st = (Returned (sessions_nil.zero o), load st).
Proof.
  unfold cur, load. intros Hn.
  destruct o; cbn [sessions_nil.call sessions_nil.zero];
    unfold sessions_nil.session_Get, sessions_nil.session_Set,
           sessions_nil.session_Delete, sessions_nil.session_Clear,
           sessions_nil.session_AddFlash, sessions_nil.session_Flashes,
           sessions_nil.session_Options, bind, ret;
    destruct (session_Session st) as [sess st1]; cbn [fst snd] in *;
    now rewrite Hn.
Qed.

Lemma bereft_load st :
  sessions_nil.bereft st ->
  cur st = None
  /\ sessions_nil.bereft (load st)
  /\ s_written (self (load st)) = s_written (self st)
  /\ events (load st) = events st ++ fetch st
  /\ asks (Called (OGet Nil) (Returned RNone), st) = true.
Proof.
  intros [Hn Hstore].
  assert (Hc : cur st = None) by (rewrite (cur_first st Hn); apply Hstore).
  split; [exact Hc|]. split; [|split; [apply load_written|split]].
  - destruct (load_config st) as (En & Er & Es).
    split; [now rewrite load_session|]. now rewrite En, Er, Es.
  - apply load_events.
  - unfold asks. cbn. now rewrite Hn.
Qed.

Lemma bereft_run r h : forall st,
  sessions_nil.bereft st ->
  s_written (self st) = false ->
  let res := sessions_nil.run (beforeHook r) h st in
  map fst (fst res) = sessions_nil.unanswered h
  /\ sessions_nil.bereft (snd res)
  /\ s_written (self (snd res)) = false
  /\ Get_calls (events (snd res)) =
       (Get_calls (events st)
        + List.length (List.filter called (sessions_nil.unanswered h)))%nat
  /\ Save_calls (events (snd res)) = Save_calls (events st).
Proof.
  induction h as [|o k IH|k IH]; intros st Hb Hw; cbn zeta.
  - cbn. repeat split; try apply Hb; auto with arith.
  - rewrite nil_run_Call.
    destruct (bereft_load st Hb) as (Hc & Hb' & Hw' & He & _).
    rewrite (nil_call_none o st Hc). cbn [fst snd].
    rewrite Hw in Hw'.
    destruct (IH (Returned (sessions_nil.zero o)) (load st) Hb' Hw')
      as (H1 & H2 & H3 & H4 & H5).
    cbn [map fst sessions_nil.unanswered List.filter called List.length].
    split; [now rewrite H1|]. split; [exact H2|]. split; [exact H3|].
    rewrite H4, H5, He, Get_calls_app, Save_calls_app,
            fetch_Get_calls, fetch_Save_calls.
    destruct Hb as [-> _]. split; lia.
  - rewrite nil_run_Write, beforeHook_unwritten by exact Hw. cbn [fst snd].
    destruct (IH (Returned tt) st Hb Hw) as (H1 & H2 & H3 & H4 & H5).
    cbn [map fst sessions_nil.unanswered List.filter called].
    rewrite H1. auto.
Qed.

(** X14.  A store that has no session to give.  When [Get] of the store
    returns a nil session whatever the world, no call of the request
    panics and each returns its zero value: nil for [Get], an empty slice
    for [Flashes]; every write returns.  The flag stays unset and the hook
    saves nothing.  Nil is not cached: the store is asked again by every
    call, so [Get] is called once per call on the session. *)
Theorem no_session_no_cache name store a r next w :
  (forall w', fst (fst (Get store r name w')) = None) ->
  let res := sessions_nil.Sessions name store a r next w in
  let steps := sessions_nil.unanswered (next (with_session r a)) in
  map fst (fst res) = steps
  /\ Get_calls (events (snd res)) = List.length (List.filter called steps)
  /\ Save_calls (events (snd res)) = 0%nat
  /\ s_written (self (snd res)) = false
  /\ s_session (self (snd res)) = None.
Proof.
  intros Hstore. cbn zeta.
  assert (Hb : sessions_nil.bereft (initial name store r w)).
  { split; [reflexivity|exact Hstore]. }
  destruct (bereft_run (with_session r a) (next (with_session r a))
              (initial name store r w) Hb eq_refl)
    as (H1 & H2 & H3 & H4 & H5).
  split; [exact H1|]. split; [exact H4|]. split; [exact H5|].
  split; [exact H3|apply H2].
Qed.

(** *** With a session *)

Lemma nil_Clear_eq st g :
  cur st = Some g ->
  sessions_nil.session_Clear st =
    (Returned tt,
     mk_state (mk_session (s_name (self st)) (s_request (self st))
                 (s_store (self st))
                 (Some (gorilla.set_Values nil_map g)) true)
              (snd (context_Clear (s_request (self st)) (world (load st))))
              (events (load st) ++ [CallClear (s_request (self st))])).
Proof.
  intros Hg. destruct (load_config st) as (Hn & Hr & Hs).
  unfold sessions_nil.session_Clear, bind. unfold cur, load in *.
  destruct (session_Session st) as [sess st1]. cbn [fst snd] in *.
  subst sess. unfold assign_session, mark_written, emit, in_world, modify,
    gets, ret. cbn.
  rewrite Hn, Hr, Hs. now destruct (context_Clear _ _).
Qed.

Lemma nil_Get_cached key st g :
  s_session (self st) = Some g ->
  sessions_nil.session_Get key st = (map_index (gorilla.Values g) key, st).
Proof.
  intros Hg. unfold sessions_nil.session_Get, bind.
  now rewrite (Session_cached st g Hg).
Qed.

Lemma nil_Set_eq st g key val :
  cur st = Some g ->
  sessions_nil.session_Set key val st =
    match map_assign (gorilla.Values g) key val with
    | Returned m =>
        (Returned tt, updated (load st) (Some (gorilla.set_Values m g)) true)
    | Panicked => (Panicked, load st)
    end.
Proof.
  intros Hg. unfold sessions_nil.session_Set, bind. unfold cur, load in *.
  destruct (session_Session st) as [sess st1]. cbn [fst snd] in *.
  subst sess. now destruct (map_assign _ _ _).
Qed.

Lemma nil_Delete_eq st g key :
  cur st = Some g ->
  sessions_nil.session_Delete key st =
    match map_delete (gorilla.Values g) key with
    | Returned m =>
        (Returned tt, updated (load st) (Some (gorilla.set_Values m g)) true)
    | Panicked => (Panicked, load st)
    end.
Proof.
  intros Hg. unfold sessions_nil.session_Delete, bind. unfold cur, load in *.
  destruct (session_Session st) as [sess st1]. cbn [fst snd] in *.
  subst sess. now destruct (map_delete _ _).
Qed.

(** X15.  [Clear] on a session that is there.  It returns, sets the flag
    whether or not the session held a value, and leaves the session with
    a nil values map; after it [Get] returns nil, and [Delete] returns and
    leaves the map nil, for every key that can be hashed, and both panic
    for a key that cannot. *)
Theorem Clear_sets_nil st g :
  cur st = Some g ->
  let st' := snd (sessions_nil.session_Clear st) in
  fst (sessions_nil.session_Clear st) = Returned tt
  /\ s_written (self st') = true
  /\ s_session (self st') = Some (gorilla.set_Values nil_map g)
  /\ (forall key,
        fst (sessions_nil.session_Get key st') =
          match hash key with
          | Some _ => Returned Nil
          | None => Panicked
          end)
  /\ (forall key,
        fst (sessions_nil.session_Delete key st') =
          match hash key with
          | Some _ => Returned tt
          | None => Panicked
          end
        /\ s_session (self (snd (sessions_nil.session_Delete key st')))
           = Some (gorilla.set_Values nil_map g)).
Proof.
  intros Hg. cbn zeta. rewrite (nil_Clear_eq st g Hg). cbn [fst snd].
  split; [reflexivity|]. split; [reflexivity|]. split; [reflexivity|].
  split; intros key.
  - erewrite nil_Get_cached by reflexivity. cbn.
    unfold map_index. now destruct (hash key).
  - erewrite nil_Delete_eq by (apply cur_cached; reflexivity).
    cbn [gorilla.Values gorilla.set_Values]. unfold map_delete.
    destruct (hash key); cbn [fst snd]; [auto|].
    split; [reflexivity|]. rewrite load_session. now apply cur_cached.
Qed.

(** X16.  [Set] after [Clear] panics.  [Clear] leaves the values map nil
    and [Set] assigns into the map, so on a session that is there [Set]
    called after [Clear] does not return, whatever the key; in a request
    that calls [Clear] and then [Set], the second call is recorded as a
    panic. *)
Theorem Set_after_Clear_panics st g key val hook k :
  cur st = Some g ->
  fst (sessions_nil.session_Set key val
         (snd (sessions_nil.session_Clear st))) = Panicked
  /\ exists rest,
       fst (sessions_nil.run hook
              (Call OClear (fun _ => Call (OSet key val) k)) st)
       = (Called OClear (Returned RNone), st)
         :: (Called (OSet key val) Panicked,
             snd (sessions_nil.call OClear st))
         :: rest.
Proof.
  intros Hg.
  assert (Hset : forall st1,
             s_session (self st1) = Some (gorilla.set_Values nil_map g) ->
             fst (sessions_nil.session_Set key val st1) = Panicked).
  { intros st1 Hs. erewrite nil_Set_eq by (apply cur_cached; exact Hs).
    cbn. unfold map_assign. now destruct (hash key). }
  assert (Hclear : s_session (self (snd (sessions_nil.session_Clear st)))
                   = Some (gorilla.set_Values nil_map g)).
  { now rewrite (nil_Clear_eq st g Hg). }
  split; [now apply Hset|].
  rewrite nil_run_Call.
  assert (Hc : sessions_nil.call OClear st
               = (Returned RNone, snd (sessions_nil.session_Clear st))).
  { cbn [sessions_nil.call]. unfold bind, ret.
    now rewrite (nil_Clear_eq st g Hg). }
  rewrite Hc. cbn [fst snd]. rewrite nil_run_Call. cbn [fst].
  assert (Hs : fst (sessions_nil.call (OSet key val)
                      (snd (sessions_nil.session_Clear st))) = Panicked).
  { cbn [sessions_nil.call]. unfold bind, ret.
    pose proof (Hset _ Hclear) as Hp.
    destruct (sessions_nil.session_Set _ _ _) as [u st2]. cbn in *.
    now subst u. }
  rewrite Hs. eauto.
Qed.

(** X17.  On a session that is there and whose values map is not nil
    the methods are those of a key/value bag, for the keys a map finds
    again: with a key that can be hashed, [Set] and [Delete] return;
    [Get(k)] after [Set(k, v)] returns [v] if [k] is equal to itself and
    nil if it is a NaN; [Get(k)] after [Delete(k)] returns nil; and
    neither [Set] nor [Delete] changes how [Get] ends for a key not equal
    to [k]. *)
Theorem nil_checked_bag st g key val k :
  cur st = Some g ->
  gorilla.Values g <> nil_map ->
  hash key = Some k ->
  let set := sessions_nil.session_Set key val st in
  let del := sessions_nil.session_Delete key st in
  fst set = Returned tt
  /\ fst del = Returned tt
  /\ fst (sessions_nil.session_Get key (snd set))
     = Returned (if key_eqb k k then val else Nil)
  /\ fst (sessions_nil.session_Get key (snd del)) = Returned Nil
  /\ (forall other, iface_eqb key other = false ->
        fst (sessions_nil.session_Get other (snd set))
          = map_index (gorilla.Values g) other
        /\ fst (sessions_nil.session_Get other (snd del))
          = map_index (gorilla.Values g) other
        /\ fst (sessions_nil.session_Get other st)
          = map_index (gorilla.Values g) other).
Proof.
  intros Hg Hv Hk. cbn zeta.
  rewrite (nil_Set_eq st g key val Hg), (nil_Delete_eq st g key Hg).
  unfold map_assign, map_delete. rewrite Hk.
  destruct (gorilla.Values g) as [|l] eqn:Hvals; [contradiction|].
  cbn [fst snd].
  split; [reflexivity|]. split; [reflexivity|].
  split; [|split].
  - erewrite nil_Get_cached by reflexivity.
    cbn [fst gorilla.Values gorilla.set_Values]. unfold map_index.
    rewrite Hk. destruct (key_eqb k k) eqn:He.
    + now rewrite index_put_eq.
    + now rewrite index_put_irrefl.
  - erewrite nil_Get_cached by reflexivity.
    cbn [fst gorilla.Values gorilla.set_Values]. unfold map_index.
    rewrite Hk. change (make_map (map_drop k l)) with (drop k (make_map l)).
    now rewrite index_drop_eq.
  - intros other Hne. split; [|split].
    + erewrite nil_Get_cached by reflexivity.
      cbn [fst gorilla.Values gorilla.set_Values].
      now apply map_index_put_ne with key.
    + erewrite nil_Get_cached by reflexivity.
      cbn [fst gorilla.Values gorilla.set_Values].
      change (make_map (map_drop k l)) with (drop k (make_map l)).
      now apply map_index_drop_ne with key.
    + unfold sessions_nil.session_Get, bind. unfold cur in Hg.
      destruct (session_Session st) as [sess st1]. cbn in *. subst sess.
      cbn. now rewrite Hvals.
Qed.

End NilExtras.

(** ** The earlier revision of [New] *)

Section EarlyExtras.
Context {cdc : Codec} {bck : Backend}.

(** X18.  The rewrite of [New] kept its behaviour.  On the same request
    and world, [New] of the earlier revision, which sets the error of
    [load] back to nil by hand, and [mongoStore.New], which keeps it in a
    variable of the inner block, return the same session and the same
    error, and leave the same world. *)
Theorem early_New_agrees (m : earlystore.mongoStore) r name w :
  earlystore.mongoStore_New m r name w =
  mongostore.mongoStore_New
    (mongostore.mk_mongoStore (earlystore.store_Codecs m)
       (fst (earlystore.coll m)) (snd (earlystore.coll m))
       (earlystore.options m))
    r name w.
Proof.
  unfold earlystore.mongoStore_New, mongostore.mongoStore_New,
    earlystore.mongoStore_load, mongostore.mongoStore_load, find.
  cbn [mongostore.store_Codecs mongostore.database mongostore.collection
       mongostore.options].
  destruct (sessions.GetToken r name) as [e|cook]; [reflexivity|].
  destruct (DecodeMulti_string _ _ _ _) as [[e|] sid]; [reflexivity|].
  cbn. destruct (IsObjectIdHex sid); cbn; [|reflexivity].
  unfold bind, ret. cbn.
  destruct (FindId _ _ _ _) as [e|doc]; cbn; [reflexivity|].
  destruct (DecodeMulti_values _ _ _ _) as [[e|] vals]; reflexivity.
Qed.

End EarlyExtras.

(** ** Concrete requests, continued *)

Lemma session_keys_independent_witness :
  let st := initial "my_session" sample.store sample.request [] in
  cur st = Some (gorilla.NewSession "my_session")
  /\ iface_eqb (Str "hello") (Str "foo") = false
  /\ fst (session_Get (Str "foo")
            (snd (session_Set (Str "hello") (Str "world") st)))
     = fst (session_Get (Str "foo") st).
Proof.
  cbn zeta. split; [reflexivity|]. split; [reflexivity|].
  apply (proj1 (session_keys_independent
                  (initial "my_session" sample.store sample.request [])
                  (gorilla.NewSession "my_session")
                  (Str "hello") (Str "world") (Str "foo")
                  eq_refl eq_refl)).
Defined.

(** [Clear] on a session that holds a value under a NaN and one under a
    string leaves the one under the NaN. *)
Lemma call_follows_interface_witness :
  let g := gorilla.set_Values
             (make_map [(KFloat NaN, Str "v"); (KStr "hello", Str "world")])
             (gorilla.NewSession "my_session") in
  let st := updated (initial "my_session" sample.store sample.request [])
                    (Some g) false in
  cur st = Some g
  /\ fst (call OClear st) = Returned RNone
  /\ s_session (self (snd (call OClear st))) =
       Some (gorilla.set_Values (make_map [(KFloat NaN, Str "v")])
               (gorilla.NewSession "my_session")).
Proof.
  cbn zeta. split; [reflexivity|].
  apply (proj1 (call_follows_interface OClear
                  (updated (initial "my_session" sample.store
                              sample.request [])
                     (Some (gorilla.set_Values
                              (make_map [(KFloat NaN, Str "v");
                                         (KStr "hello", Str "world")])
                              (gorilla.NewSession "my_session")))
                     false))
           (gorilla.set_Values
              (make_map [(KFloat NaN, Str "v"); (KStr "hello", Str "world")])
              (gorilla.NewSession "my_session"))).
  reflexivity.
Defined.

Lemma no_session_no_cache_witness :
  let res := sessions_nil.Sessions "my_session" sample.no_session 0%nat
               sample.request sample.busy_handler [] in
  (forall w', fst (fst (Get sample.no_session sample.request "my_session" w'))
              = None)
  /\ Get_calls (events (snd res)) = 3%nat
  /\ Save_calls (events (snd res)) = 0%nat.
Proof.
  cbn zeta.
  assert (H : forall w' : list Cookie,
             fst (fst (Get sample.no_session sample.request "my_session" w'))
             = None) by reflexivity.
  split; [exact H|].
  destruct (no_session_no_cache "my_session" sample.no_session 0%nat
              sample.request sample.busy_handler [] H)
    as (_ & Hg & Hs & _).
  split; [exact Hg|exact Hs].
Defined.

Lemma Clear_sets_nil_witness :
  let st := initial "my_session" sample.store sample.request [] in
  let st' := snd (sessions_nil.session_Clear st) in
  cur st = Some (gorilla.NewSession "my_session")
  /\ s_written (self st') = true
  /\ fst (sessions_nil.session_Get (Str "hello") st') = Returned Nil.
Proof.
  cbn zeta. split; [reflexivity|].
  destruct (Clear_sets_nil
              (initial "my_session" sample.store sample.request [])
              (gorilla.NewSession "my_session") eq_refl)
    as (_ & Hw & _ & Hget & _).
  split; [exact Hw|]. exact (Hget (Str "hello")).
Defined.

Lemma Set_after_Clear_panics_witness :
  let st := initial "my_session" sample.store sample.request [] in
  cur st = Some (gorilla.NewSession "my_session")
  /\ fst (sessions_nil.session_Set (Str "hello") (Str "world")
            (snd (sessions_nil.session_Clear st))) = Panicked.
Proof.
  cbn zeta. split; [reflexivity|].
  apply (proj1 (Set_after_Clear_panics
                  (initial "my_session" sample.store sample.request [])
                  (gorilla.NewSession "my_session")
                  (Str "hello") (Str "world")
                  (beforeHook sample.request) (fun _ => Done) eq_refl)).
Defined.

Lemma nil_checked_bag_witness :
  let st := initial "my_session" sample.store sample.request [] in
  cur st = Some (gorilla.NewSession "my_session")
  /\ gorilla.Values (gorilla.NewSession "my_session") <> nil_map
  /\ hash (Str "hello") = Some (KStr "hello")
  /\ fst (sessions_nil.session_Get (Str "hello")
            (snd (sessions_nil.session_Set (Str "hello") (Str "world") st)))
     = Returned (Str "world").
Proof.
  cbn zeta.
  assert (Hv : gorilla.Values (gorilla.NewSession "my_session") <> nil_map)
    by discriminate.
  split; [reflexivity|]. split; [exact Hv|]. split; [reflexivity|].
  destruct (nil_checked_bag
              (initial "my_session" sample.store sample.request [])
              (gorilla.NewSession "my_session")
              (Str "hello") (Str "world") (KStr "hello") eq_refl Hv eq_refl)
    as (_ & _ & Hget & _).
  exact Hget.
Defined.

Lemma dal_invalid_id_witness :
  IsObjectIdHex (gorilla.ID sample.forged_session) = false
  /\ dalstore.dalStore_save sample.dal sample.forged_session
       sample.empty_world
     = (Some ErrInvalidId, sample.empty_world).
Proof.
  split; [reflexivity|].
  apply (dal_invalid_id sample.dal sample.forged_session sample.empty_world).
  reflexivity.
Defined.

Lemma Save_New_round_trip_witness :
  let g := fst (fst (mongostore.mongoStore_New sample.mongo
                       sample.returning_request "my_session"
                       sample.saved_world)) in
  gorilla.IsNew g = false
  /\ snd (fst (mongostore.mongoStore_New sample.mongo
                 sample.returning_request "my_session" sample.saved_world))
     = None
  /\ gorilla.ID g = "507f1f77bcf86cd799439011"
  /\ gorilla.Values g = sample.hello.
Proof.
  apply (Save_New_round_trip sample.mongo sample.request
           sample.returning_request sample.fresh_session sample.empty_world).
  - vm_compute. discriminate.
  - reflexivity.
  - intros encoded He. vm_compute in He. injection He as <-.
    split; reflexivity.
  - intros data Hd. vm_compute in Hd. injection Hd as <-. reflexivity.
  - intros doc d' Hu. cbn in Hu. injection Hu as <-.
    exists doc. split; [|reflexivity]. cbn. now rewrite lookup_insert_eq.
Defined.

Lemma Save_stamps_modified_witness :
  0 <= gorilla.MaxAge (gorilla.Opts sample.fresh_session)
  /\ exists acc,
       accesses (snd (mongostore.mongoStore_Save sample.mongo sample.request
                        sample.fresh_session sample.empty_world))
       = accesses sample.empty_world ++ acc
       /\ Forall (fun a =>
            exists data,
              a = Upsert "app" "sessions"
                    (ObjectIdHex (saved_id sample.fresh_session
                                    sample.empty_world))
                    {| doc_ID := ""; Data := data;
                       Modified := stamp sample.fresh_session
                                     sample.empty_world |}) acc.
Proof.
  assert (Hage : 0 <= gorilla.MaxAge (gorilla.Opts sample.fresh_session))
    by (vm_compute; discriminate).
  split; [exact Hage|].
  apply (Save_stamps_modified sample.mongo sample.request
           sample.fresh_session sample.empty_world Hage).
Defined.

Lemma expired_session_is_gone_witness :
  let session := gorilla.set_Options
                   (gorilla.mkOptions "/" "" (-1) false false)
                   sample.saved_session in
  let w' := snd (mongostore.mongoStore_Save sample.mongo
                   sample.returning_request session sample.saved_world) in
  let g := fst (fst (mongostore.mongoStore_New sample.mongo
                       sample.returning_request "my_session" w')) in
  gorilla.IsNew g = true
  /\ snd (fst (mongostore.mongoStore_New sample.mongo
                 sample.returning_request "my_session" w')) = None
  /\ gorilla.Values g = ∅
  /\ gorilla.ID g = "507f1f77bcf86cd799439011".
Proof.
  apply (expired_session_is_gone sample.mongo sample.returning_request
           sample.returning_request
           "my_session|507f1f77bcf86cd799439011"
           (gorilla.set_Options (gorilla.mkOptions "/" "" (-1) false false)
              sample.saved_session)
           sample.saved_world).
  - reflexivity.
  - reflexivity.
  - reflexivity.
  - reflexivity.
  - intros d' Hr. vm_compute in Hr. injection Hr as <-.
    exists sample.not_found. reflexivity.
Defined.
